(** * Meeting assistant: transcript-to-structured-output pipeline

    A shallow embedding of [src/llm_processor.py] (class [LLMProcessor]),
    [src/ai_agent.py] (class [AIAgent]) and [src/models.py], and the
    properties of the pipeline stated over it.

    Python text is a list of code points, Python exceptions are values of
    [exn] carried by a [result], and every call that leaves the process
    (transcription, the Ollama completion, the calendar, the clock) or
    enters the [json] library is recorded in a trace threaded by the
    monad [M]. *)

From Stdlib Require Import ZArith Ascii String DecimalString Lia.
From stdpp Require Import base option list gmap.

Set Warnings "-register-all".
Local Open Scope Z_scope.

(** ** Text *)

Abbreviation char := N (only parsing).
Abbreviation str := (list N) (only parsing).

(** [lit "abc"] is the Python string ['abc']. *)
Definition lit (s : string) : str := N_of_ascii <$> list_ascii_of_string s.

Definition chr (a : ascii) : char := N_of_ascii a.

(** A Python literal that contains double quotes is written with a
    backquote in place of each of them: [py "{`a`: 1}"] is the text
    [{"a": 1}]. *)
Definition py (s : string) : str :=
  (fun c => if N.eqb c 96 then 34%N else c) <$> lit s.

Definition lbrace : char := chr "{".
Definition rbrace : char := chr "}".

(** [text.find(c)] for a one-character [c]: the first index, or [-1]. *)
Fixpoint find_from (text : str) (c : char) (i : Z) : Z :=
  match text with
  | [] => -1
  | x :: rest => if N.eqb x c then i else find_from rest c (i + 1)
  end.

Definition str_find (text : str) (c : char) : Z := find_from text c 0.

(** [text[lo:hi]] for [0 <= lo <= hi]. *)
Definition slice (text : str) (lo hi : Z) : str :=
  take (Z.to_nat (hi - lo)) (drop (Z.to_nat lo) text).

(** ** Exceptions and results *)

(** The exception classes that occur, all of them subclasses of
    [Exception]; [PlainException] is [Exception] itself. *)
Inductive exn_class :=
| ValueError | JSONDecodeError | ValidationError
| KeyError | TypeError | AttributeError
| OverflowError | UnboundLocalError
| ConnectionError | PlainException.

Record exn := Exn { exn_cls : exn_class; exn_msg : str }.

(** [isinstance(e, ValueError)]: [json.JSONDecodeError] and pydantic's
    [ValidationError] are subclasses of [ValueError]. *)
Definition is_ValueError (e : exn) : bool :=
  match exn_cls e with
  | ValueError | JSONDecodeError | ValidationError => true
  | _ => false
  end.

Definition is_JSONDecodeError (e : exn) : bool :=
  match exn_cls e with JSONDecodeError => true | _ => false end.

Definition is_KeyError (e : exn) : bool :=
  match exn_cls e with KeyError => true | _ => false end.

(** [except Exception]: every modelled exception. *)
Definition is_Exception (e : exn) : bool := true.

Inductive result (A : Type) :=
| Ok (a : A)
| Raise (e : exn).
Arguments Ok {A} a.
Arguments Raise {A} e.

(** ** Values produced by [json.loads] *)

(** A float is kept as the decimal it was read from, [m * 10^e]. *)
Inductive pyfloat :=
| FDec (m e : Z)
| FNaN
| FInf (neg : bool).

Inductive json :=
| JNull
| JBool (b : bool)
| JInt (z : Z)
| JFloat (f : pyfloat)
| JStr (s : str)
| JArr (l : list json)
| JObj (kv : list (str * json)).

(** A [dict] is an association list in insertion order, one entry per key. *)
Fixpoint assoc {V} (k : str) (kv : list (str * V)) : option V :=
  match kv with
  | [] => None
  | (k', v) :: rest => if bool_decide (k' = k) then Some v else assoc k rest
  end.

(** [d[k] = v] on a dict: replaces the value in place, or appends. *)
Fixpoint dict_set {V} (k : str) (v : V) (kv : list (str * V)) : list (str * V) :=
  match kv with
  | [] => [(k, v)]
  | (k', v') :: rest =>
      if bool_decide (k' = k) then (k', v) :: rest else (k', v') :: dict_set k v rest
  end.

Definition float_truthy (f : pyfloat) : bool :=
  match f with
  | FDec m _ => negb (m =? 0)
  | _ => true
  end.

(** [bool(v)] *)
Definition py_truthy (v : json) : bool :=
  match v with
  | JNull => false
  | JBool b => b
  | JInt z => negb (z =? 0)
  | JFloat f => float_truthy f
  | JStr s => negb (bool_decide (s = []))
  | JArr l => negb (bool_decide (l = []))
  | JObj kv => match kv with [] => false | _ => true end
  end.

Definition attribute_error : exn := Exn AttributeError (lit "object has no attribute 'get'").
Definition type_error_iter : exn := Exn TypeError (lit "object is not iterable").
Definition type_error_index : exn := Exn TypeError (lit "object is not subscriptable by a string").

(** [v.get(k, default)]: only a dict has [get]. *)
Definition py_get (v : json) (k : str) (dflt : json) : result json :=
  match v with
  | JObj kv => Ok (default dflt (assoc k kv))
  | _ => Raise attribute_error
  end.

(** [v[k]] for a string [k]. *)
Definition py_getitem (v : json) (k : str) : result json :=
  match v with
  | JObj kv =>
      match assoc k kv with
      | Some x => Ok x
      | None => Raise (Exn KeyError k)
      end
  | _ => Raise type_error_index
  end.

(** [for x in v]: a list yields its items, a dict its keys, a string its
    characters; nothing else is iterable. *)
Definition py_iter (v : json) : result (list json) :=
  match v with
  | JArr l => Ok l
  | JObj kv => Ok ((fun p => JStr (fst p)) <$> kv)
  | JStr s => Ok ((fun c => JStr [c]) <$> s)
  | _ => Raise type_error_iter
  end.

(** [a or b] *)
Definition py_or (a b : json) : json := if py_truthy a then a else b.

(** ** Data model ([src/models.py]) *)

Record datetime := Datetime {
  dt_year : Z; dt_month : Z; dt_day : Z;
  dt_hour : Z; dt_minute : Z; dt_second : Z
}.

(** [a < b] on naive datetimes: lexicographic on the six fields. *)
Definition datetime_key (d : datetime) : list Z :=
  [dt_year d; dt_month d; dt_day d; dt_hour d; dt_minute d; dt_second d].

Fixpoint lex_ltb (a b : list Z) : bool :=
  match a, b with
  | x :: a', y :: b' => if x <? y then true else if y <? x then false else lex_ltb a' b'
  | [], _ :: _ => true
  | _, _ => false
  end.

Definition datetime_ltb (a b : datetime) : bool :=
  lex_ltb (datetime_key a) (datetime_key b).

(** A [timedelta], in milliseconds. *)
Record timedelta := Timedelta { td_milliseconds : Z }.

Inductive SpeakerRole := PARTICIPANT | MODERATOR | UNKNOWN.

Record Speaker := mkSpeaker {
  speaker_id : str;
  role : SpeakerRole;
  name : option str;
  speaker_confidence : pyfloat
}.

Record TranscriptionSegment := mkSegment {
  seg_start : Z;
  seg_end : Z;
  speaker : str;
  text : str;
  confidence : pyfloat
}.

Record MeetingTranscript := mkTranscript {
  meeting_id : str;
  audio_url : str;
  duration : Z;
  speakers : list Speaker;
  segments : list TranscriptionSegment;
  created_at : datetime
}.

Record ActionItem := mkActionItem {
  description : str;
  assignee : option str;
  due_date : option datetime;
  priority : str;
  status : str
}.

Record Decision := mkDecision {
  topic : str;
  decision : str;
  rationale : option str;
  impact : option str
}.

Record MeetingMinutes := mkMinutes {
  mm_meeting_id : str;
  mm_date : datetime;
  mm_duration : timedelta;
  participants : list str;
  key_points : list str;
  action_items : list ActionItem;
  decisions : list Decision;
  next_steps : list str;
  mm_summary : str
}.

(** [reminders] keeps its default and is left out. *)
Record CalendarEvent := mkCalendarEvent {
  summary : str;
  ev_description : str;
  start_time : datetime;
  end_time : datetime;
  attendees : list str;
  location : option str
}.

Inductive ProcessingStatus := PENDING | PROCESSING | COMPLETED | FAILED.

Record ProcessingResult := mkResult {
  pr_status : ProcessingStatus;
  pr_meeting_id : str;
  transcript : option MeetingTranscript;
  minutes : option MeetingMinutes;
  calendar_events : list CalendarEvent;
  error_message : option str;
  processing_time : option Z
}.

(** ** The trace monad *)

(** What the process does that can be seen from outside it, in order. *)
Inductive event :=
| EvTranscribe (audio_path mid : str)
| EvOllama (prompt system_prompt : str)
| EvJsonLoads (s : str)
| EvCreateEvent (ev : CalendarEvent)
| EvTime.

Definition M (A : Type) : Type := list event -> list event * result A.

Definition ret {A} (a : A) : M A := fun tr => (tr, Ok a).

Definition raise {A} (e : exn) : M A := fun tr => (tr, Raise e).

Definition bind {A B} (m : M A) (k : A -> M B) : M B :=
  fun tr =>
    match m tr with
    | (tr', Ok a) => k a tr'
    | (tr', Raise e) => (tr', Raise e)
    end.

(** [try: m  except C as e: h e], where [catches] is [isinstance(e, C)]. *)
Definition try_except {A} (m : M A) (catches : exn -> bool) (h : exn -> M A) : M A :=
  fun tr =>
    match m tr with
    | (tr', Ok a) => (tr', Ok a)
    | (tr', Raise e) => if catches e then h e tr' else (tr', Raise e)
    end.

Definition emit (e : event) : M unit := fun tr => (tr ++ [e], Ok tt).

Definition lift {A} (r : result A) : M A := fun tr => (tr, r).

Declare Scope py_scope.
Delimit Scope py_scope with py_scope.
Notation "x <- m ;; k" := (bind m (fun x => k))
  (at level 100, m at next level, right associativity) : py_scope.
Notation "m ;;; k" := (bind m (fun _ => k))
  (at level 100, right associativity) : py_scope.
Local Open Scope py_scope.

(** [for x in l: acc = body x acc] *)
Fixpoint for_in {A S} (l : list A) (body : A -> S -> M S) (acc : S) : M S :=
  match l with
  | [] => ret acc
  | x :: rest => acc' <- body x acc ;; for_in rest body acc'
  end.

(** ** The world outside the pipeline *)

(** Library functions and services the code calls. A library call that
    fails with one exception class only returns an [option]. *)
Record World := mkWorld {
  (** [json.loads(s)]: the value, or the exception raised, which is
      [json.JSONDecodeError] for a text that is not JSON *)
  json_loads : str -> result json;
  (** [datetime.strptime(s, fmt)]; [None] is [ValueError] *)
  strptime : str -> str -> option datetime;
  (** group 1 of [re.search(r'summary[:\s]+(.+?)(?:\n|$)', s, re.IGNORECASE)] *)
  re_search_summary : str -> option str;
  (** [s.lower()] *)
  str_lower : str -> str;
  (** what pydantic makes of a number or boolean given for a [str] field
      ([None]: rejected); version 1 converts numbers, version 2 rejects *)
  pydantic_str_of_scalar : json -> option str;
  (** the HTTP exchange of [_call_ollama]: the ["response"] text, or the
      exception of the transport or of a non-200 status *)
  ollama : str -> str -> result str;
  (** [AudioProcessor.process_audio_file(audio_path, meeting_id)] *)
  process_audio_file : str -> str -> result MeetingTranscript;
  (** [CalendarManager.create_event(event)], the created event's link *)
  create_event : CalendarEvent -> result str;
  (** [time.time()], as a function of what happened so far *)
  time_time : list event -> Z;
  (** [str(uuid.uuid4())] *)
  uuid4 : str;
  (** [datetime.now()] formatted with ["%A, %B %d, %Y"] and ["%I:%M %p"] *)
  today_str : str;
  time_str : str
}.

(** ** String helpers of the Python runtime *)

(** [sep.join(parts)] *)
Fixpoint str_join (sep : str) (parts : list str) : str :=
  match parts with
  | [] => []
  | [p] => p
  | p :: rest => p ++ sep ++ str_join sep rest
  end.

Definition newline : char := 10%N.

Definition unlines (l : list string) : str := str_join [newline] (py <$> l).

(** [s.split('\n')] *)
Fixpoint str_split (c : char) (s : str) : list str :=
  match s with
  | [] => [[]]
  | x :: rest =>
      if N.eqb x c then [] :: str_split c rest
      else match str_split c rest with
           | h :: t => (x :: h) :: t
           | [] => [[x]]
           end
  end.

(** [c.isspace()] *)
Definition py_isspace (c : char) : bool :=
  ((9 <=? c) && (c <=? 13) || (28 <=? c) && (c <=? 32)
   || (c =? 133) || (c =? 160) || (c =? 5760)
   || (8192 <=? c) && (c <=? 8202)
   || (c =? 8232) || (c =? 8233) || (c =? 8239) || (c =? 8287) || (c =? 12288))%N.

Fixpoint lstrip (s : str) : str :=
  match s with
  | c :: rest => if py_isspace c then lstrip rest else s
  | [] => []
  end.

(** [s.strip()] *)
Definition str_strip (s : str) : str := reverse (lstrip (reverse (lstrip s))).

(** [s.startswith(p)] *)
Fixpoint startswith (s p : str) : bool :=
  match p, s with
  | [], _ => true
  | a :: p', b :: s' => N.eqb a b && startswith s' p'
  | _ :: _, [] => false
  end.

(** [needle in hay] *)
Fixpoint str_contains (needle hay : str) : bool :=
  startswith hay needle ||
  match hay with
  | [] => false
  | _ :: rest => str_contains needle rest
  end.

(** [str(n)] for an [int] *)
Definition str_of_Z (n : Z) : str := lit (NilZero.string_of_int (Z.to_int n)).

(** [f"{n:02d}"] *)
Definition format_02d (n : Z) : str :=
  let s := str_of_Z n in
  if (length s <? 2)%nat then chr "0" :: s else s.

(** ** Prompts ([src/llm_processor.py]) *)

(** [system_prompt] of [generate_meeting_minutes] *)
Definition minutes_system_prompt : str :=
  unlines [
    "You are an expert meeting assistant. Your task is to analyze a meeting transcript and generate comprehensive meeting minutes. ";
    "            ";
    "            Focus on:";
    "            1. Key points discussed";
    "            2. Action items with assignees and due dates";
    "            3. Decisions made with rationale";
    "            4. Next steps";
    "            ";
    "            Be concise but thorough. Extract specific dates, times, and commitments mentioned."]%string.

(** [prompt] of [generate_meeting_minutes] *)
Definition minutes_prompt (transcript_text : str) : str :=
  unlines [
    "Please analyze this meeting transcript and generate structured meeting minutes:";
    EmptyString;
    EmptyString]%string
  ++
  transcript_text
  ++
  unlines [
    EmptyString;
    EmptyString;
    "Please provide the analysis in the following JSON format:";
    "{";
    "    `key_points`: [`point1`, `point2`, ...],";
    "    `action_items`: [";
    "        {";
    "            `description`: `action item description`,";
    "            `assignee`: `person name or 'TBD'`,";
    "            `due_date`: `YYYY-MM-DD or null`,";
    "            `priority`: `low/medium/high`";
    "        }";
    "    ],";
    "    `decisions`: [";
    "        {";
    "            `topic`: `decision topic`,";
    "            `decision`: `what was decided`,";
    "            `rationale`: `why this decision was made`";
    "        }";
    "    ],";
    "    `next_steps`: [`step1`, `step2`, ...],";
    "    `summary`: `brief summary of the meeting`";
    "}"]%string.

(** [system_prompt] of [extract_calendar_events] *)
Definition events_system_prompt (today_str : str) (time_str : str) : str :=
  unlines [
    "Today is "]%string
  ++
  today_str
  ++
  unlines [
    ". The current time is "]%string
  ++
  time_str
  ++
  unlines [
    ".";
    EmptyString;
    "When extracting event dates/times from the transcript:";
    "- `Thursday` means the next Thursday after today.";
    "- `Next Sunday` means the Sunday after the coming Sunday.";
    "- `23rd Afternoon` means 12pm-1pm on the 23rd of this month (or next month if the 23rd has passed).";
    "- `29th June around 2pm` means 29th June of this year at 2pm.";
    "- `5pm today` means today at 5pm.";
    "- If the transcript mentions `lunch`, set the time to 12:00 pm.";
    "- If the transcript mentions `afternoon`, set the time to 1:00 pm.";
    "- If the transcript mentions `evening`, set the time to 6:00 pm.";
    "- If the transcript mentions `morning`, set the time to 9:00 am.";
    "- If a date is ambiguous, prefer the next possible occurrence.";
    "- Always return the event start and end time in the format YYYY-MM-DD HH:MM (24-hour time).";
    EmptyString]%string.

(** [prompt] of [extract_calendar_events] *)
Definition events_prompt (transcript_text : str) : str :=
  unlines [
    "Please analyze this meeting transcript and extract any calendar events that should be scheduled:";
    EmptyString;
    EmptyString]%string
  ++
  transcript_text
  ++
  unlines [
    EmptyString;
    EmptyString;
    "Please provide the events in the following JSON format:";
    "{";
    "    `events`: [";
    "        {";
    "            `summary`: `event title`,";
    "            `description`: `event description`,";
    "            `start_time`: `YYYY-MM-DD HH:MM`,";
    "            `end_time`: `YYYY-MM-DD HH:MM`,";
    "            `attendees`: [`email1@example.com`, `email2@example.com`],";
    "            `location`: `meeting location or null`";
    "        }";
    "    ]";
    "}";
    EmptyString;
    "Only include events that have specific dates and times mentioned. If no clear events are found, return an empty events array."]%string.

(** [system_prompt] of [infer_speaker_names] *)
Definition names_system_prompt : str :=
  unlines [
    "You are an expert meeting assistant specializing in speaker identification. Given a meeting transcript with speaker labels and their utterances, infer the most likely real names for each speaker label based on context clues, introductions, self-identifications, or references by other speakers. Look for patterns like: 'Hi, I'm John', 'This is Sarah speaking', 'John mentioned...', etc. If a name cannot be determined with reasonable confidence, keep the original label. Output only a JSON mapping of speaker labels to names."]%string.

(** [prompt] of [infer_speaker_names] *)
Definition names_prompt (transcript_text : str) : str :=
  unlines [
    EmptyString;
    "Please analyze this meeting transcript and infer the real names for each speaker:";
    EmptyString;
    EmptyString]%string
  ++
  transcript_text
  ++
  unlines [
    EmptyString;
    EmptyString;
    "Provide a JSON mapping of speaker labels to inferred names. For example:";
    "{";
    "  `A`: `John Smith`,";
    "  `B`: `Sarah Johnson`,";
    "  `C`: `C`";
    "}";
    EmptyString;
    "Only change labels where you can confidently infer a name from the context.";
    "Look for:";
    "- Self-introductions (`Hi, I'm Alex`)";
    "- Direct references (`Hey Jessica`)";
    "- Context clues that reveal names";
    EmptyString]%string.

(** ** [LLMProcessor] ([src/llm_processor.py]) *)

Definition msg_no_json : str := lit "No JSON object found in response.".
Definition msg_no_valid_json : str := lit "No valid JSON object found in response.".

(** The two failures of [extract_first_json_block]. *)
Definition NoJsonFound : exn := Exn ValueError msg_no_json.
Definition MalformedJson : exn := Exn ValueError msg_no_valid_json.

Definition json_decode_error : exn := Exn JSONDecodeError (lit "Expecting value").
Definition strptime_value_error : exn :=
  Exn ValueError (lit "time data does not match format").
Definition strptime_type_error : exn :=
  Exn TypeError (lit "strptime() argument 1 must be str").
Definition validation_error : exn := Exn ValidationError (lit "validation error").
Definition overflow_error : exn :=
  Exn OverflowError (lit "days must have magnitude <= 999999999").
Definition unbound_response : exn :=
  Exn UnboundLocalError (lit "local variable 'response' referenced before assignment").
Definition not_a_dictionary : exn :=
  Exn ValueError (lit "Response is not a valid dictionary").
Definition no_format_matches : exn :=
  Exn ValueError (lit "Time data does not match expected formats.").

(** [timedelta(milliseconds=ms)]: the day count is bounded. *)
Definition timedelta_of_milliseconds (ms : Z) : result timedelta :=
  if (-999999999 <=? ms / 86400000) && (ms / 86400000 <=? 999999999)
  then Ok (Timedelta ms) else Raise overflow_error.

(** [[mm:ss]] of a segment start given in milliseconds *)
Definition timestamp (start : Z) : str :=
  lit "[" ++ format_02d (start / 1000 / 60) ++ lit ":"
          ++ format_02d ((start / 1000) mod 60) ++ lit "]".

Definition bullet_glyph : str := [226; 8364; 162]%N.

Section LLMProcessor.
Context (W : World).

(** *** pydantic field validation *)

(** a field annotated [str] *)
Definition pydantic_str (v : json) : option str :=
  match v with
  | JStr s => Some s
  | JNull | JArr _ | JObj _ => None
  | JBool _ | JInt _ | JFloat _ => pydantic_str_of_scalar W v
  end.

(** a field annotated [Optional[str]] *)
Definition pydantic_optional_str (v : json) : option (option str) :=
  match v with
  | JNull => Some None
  | _ => Some <$> pydantic_str v
  end.

Fixpoint pydantic_all_str (l : list json) : option (list str) :=
  match l with
  | [] => Some []
  | v :: rest =>
      match pydantic_str v, pydantic_all_str rest with
      | Some s, Some ss => Some (s :: ss)
      | _, _ => None
      end
  end.

(** a field annotated [List[str]] *)
Definition pydantic_list_str (v : json) : option (list str) :=
  match v with
  | JArr l => pydantic_all_str l
  | _ => None
  end.

Definition validated {A} (o : option A) : M A :=
  match o with
  | Some a => ret a
  | None => raise validation_error
  end.

(** *** Library calls *)

Definition call_json_loads (s : str) : M json :=
  emit (EvJsonLoads s) ;;;
  lift (json_loads W s).

(** [datetime.strptime(v, fmt)] *)
Definition call_strptime (v : json) (fmt : str) : M datetime :=
  match v with
  | JStr s =>
      match strptime W s fmt with
      | Some d => ret d
      | None => raise strptime_value_error
      end
  | _ => raise strptime_type_error
  end.

Definition _call_ollama (prompt system_prompt : str) : M str :=
  emit (EvOllama prompt system_prompt) ;;;
  lift (ollama W prompt system_prompt).

(** *** [extract_first_json_block] *)

(** The [for i in range(start, len(text))] loop; [rest] is [text[i:]]. *)
Fixpoint scan_braces (text : str) (start : Z) (rest : str) (i brace_count : Z) : M json :=
  match rest with
  | [] => raise MalformedJson
  | c :: rest' =>
      if N.eqb c lbrace then
        scan_braces text start rest' (i + 1) (brace_count + 1)
      else if N.eqb c rbrace then
        let brace_count := brace_count - 1 in
        if brace_count =? 0 then
          try_except (call_json_loads (slice text start (i + 1)))
            is_JSONDecodeError (fun _ => raise MalformedJson)
        else scan_braces text start rest' (i + 1) brace_count
      else scan_braces text start rest' (i + 1) brace_count
  end.

Definition extract_first_json_block (text : str) : M json :=
  let start := str_find text lbrace in
  if start =? -1 then raise NoJsonFound
  else scan_braces text start (drop (Z.to_nat start) text) start 0.

(** *** [_prepare_transcript_text] *)

Definition _prepare_transcript_text (transcript : MeetingTranscript) : str :=
  let speakers_info :=
    str_join (lit ", ") ((fun s => lit "Speaker " ++ speaker_id s) <$> speakers transcript) in
  str_join [newline]
    ([lit "Meeting Participants: " ++ speakers_info; []] ++
     ((fun segment =>
         timestamp (seg_start segment) ++ lit " Speaker " ++ speaker segment
           ++ lit ": " ++ text segment) <$> segments transcript)).

(** *** [_fallback_parsing] *)

Definition fallback_key_points (response : str) : list str :=
  str_strip <$>
    (drop 1 <$>
       filter (fun line =>
                 (startswith line (lit "-") || startswith line bullet_glyph
                  || startswith line (lit "*")) && (2 <? length line)%nat = true)
              (str_strip <$> str_split newline response)).

Definition fallback_summary (response : str) : str :=
  if str_contains (lit "summary") (str_lower W response) then
    match re_search_summary W response with
    | Some g => str_strip g
    | None => []
    end
  else [].

Definition _fallback_parsing (response : str) : json :=
  JObj [ (lit "key_points", JArr (JStr <$> fallback_key_points response));
         (lit "action_items", JArr []);
         (lit "decisions", JArr []);
         (lit "next_steps", JArr []);
         (lit "summary", JStr (fallback_summary response)) ].

(** *** [generate_meeting_minutes] *)

(** One turn of the action-item loop. *)
Definition action_item_of (item : json) (action_items : list ActionItem)
  : M (list ActionItem) :=
  d <- lift (py_get item (lit "due_date") JNull) ;;
  due_date <-
    (if py_truthy d then
       try_except
         (v <- lift (py_getitem item (lit "due_date")) ;;
          dt <- call_strptime v (lit "%Y-%m-%d") ;;
          ret (Some dt))
         is_ValueError (fun _ => ret None)
     else ret None) ;;
  a_description <- lift (py_get item (lit "description") (JStr [])) ;;
  a_assignee <- lift (py_get item (lit "assignee") JNull) ;;
  a_priority <- lift (py_get item (lit "priority") (JStr (lit "medium"))) ;;
  v_description <- validated (pydantic_str a_description) ;;
  v_assignee <- validated (pydantic_optional_str a_assignee) ;;
  v_priority <- validated (pydantic_str a_priority) ;;
  ret (action_items ++
       [mkActionItem v_description v_assignee due_date v_priority (lit "pending")]).

(** One turn of the decision loop. *)
Definition decision_of (d : json) (decisions : list Decision) : M (list Decision) :=
  a_topic <- lift (py_get d (lit "topic") (JStr [])) ;;
  a_decision <- lift (py_get d (lit "decision") (JStr [])) ;;
  a_rationale <- lift (py_get d (lit "rationale") JNull) ;;
  v_topic <- validated (pydantic_str a_topic) ;;
  v_decision <- validated (pydantic_str a_decision) ;;
  v_rationale <- validated (pydantic_optional_str a_rationale) ;;
  ret (decisions ++ [mkDecision v_topic v_decision v_rationale None]).

(** What [generate_meeting_minutes] does with [parsed_data]: the two
    loops, the participants, the list fields and the constructor. *)
Definition minutes_of_parsed_data (transcript : MeetingTranscript) (parsed_data : json)
  : M MeetingMinutes :=
  items <- lift (py_get parsed_data (lit "action_items") (JArr [])) ;;
  items <- lift (py_iter items) ;;
  action_items <- for_in items action_item_of [] ;;
  ds <- lift (py_get parsed_data (lit "decisions") (JArr [])) ;;
  ds <- lift (py_iter ds) ;;
  decisions <- for_in ds decision_of [] ;;
  (* list(set(...)): the distinct speakers, in no particular order *)
  let participants := remove_dups (speaker <$> segments transcript) in
  kp <- lift (py_get parsed_data (lit "key_points") JNull) ;;
  let key_points := py_or kp (JArr []) in
  ns <- lift (py_get parsed_data (lit "next_steps") JNull) ;;
  let next_steps := py_or ns (JArr []) in
  m_duration <- lift (timedelta_of_milliseconds (duration transcript)) ;;
  a_summary <- lift (py_get parsed_data (lit "summary") (JStr [])) ;;
  v_key_points <- validated (pydantic_list_str key_points) ;;
  v_next_steps <- validated (pydantic_list_str next_steps) ;;
  v_summary <- validated (pydantic_str a_summary) ;;
  ret (mkMinutes (meeting_id transcript) (created_at transcript) m_duration
         participants v_key_points action_items decisions v_next_steps v_summary).

Definition generate_meeting_minutes (transcript : MeetingTranscript) : M MeetingMinutes :=
  let transcript_text := _prepare_transcript_text transcript in
  response <- _call_ollama (minutes_prompt transcript_text) minutes_system_prompt ;;
  parsed_data <-
    try_except (extract_first_json_block response)
      is_Exception (fun _ => ret (_fallback_parsing response)) ;;
  minutes_of_parsed_data transcript parsed_data.

(** *** [parse_datetime] and [extract_calendar_events] *)

Definition parse_datetime (dt_str : json) : M datetime :=
  try_except (call_strptime dt_str (lit "%Y-%m-%d %H:%M")) is_ValueError
    (fun _ =>
       try_except (call_strptime dt_str (lit "%Y-%m-%d %H:%M:%S")) is_ValueError
         (fun _ => raise no_format_matches)).

(** One turn of the candidate loop. *)
Definition calendar_event_of (event_data : json) (events : list CalendarEvent)
  : M (list CalendarEvent) :=
  try_except
    (s <- lift (py_getitem event_data (lit "start_time")) ;;
     start_time <- parse_datetime s ;;
     e <- lift (py_getitem event_data (lit "end_time")) ;;
     end_time <- parse_datetime e ;;
     a_summary <- lift (py_get event_data (lit "summary") (JStr [])) ;;
     a_description <- lift (py_get event_data (lit "description") (JStr [])) ;;
     a_attendees <- lift (py_get event_data (lit "attendees") (JArr [])) ;;
     a_location <- lift (py_get event_data (lit "location") JNull) ;;
     v_summary <- validated (pydantic_str a_summary) ;;
     v_description <- validated (pydantic_str a_description) ;;
     v_attendees <- validated (pydantic_list_str a_attendees) ;;
     v_location <- validated (pydantic_optional_str a_location) ;;
     ret (events ++
          [mkCalendarEvent v_summary v_description start_time end_time
             v_attendees v_location]))
    (fun e => is_ValueError e || is_KeyError e)
    (fun _ => ret events).

(** the candidate loop of [extract_calendar_events] *)
Definition events_of_parsed_data (parsed_data : json) : M (list CalendarEvent) :=
  cands <- lift (py_get parsed_data (lit "events") (JArr [])) ;;
  cands <- lift (py_iter cands) ;;
  for_in cands calendar_event_of [].

Definition extract_calendar_events (transcript : MeetingTranscript)
    (minutes : option MeetingMinutes) : M (list CalendarEvent) :=
  try_except
    (let transcript_text := _prepare_transcript_text transcript in
     response <- _call_ollama (events_prompt transcript_text)
                   (events_system_prompt (today_str W) (time_str W)) ;;
     parsed <-
       try_except (v <- extract_first_json_block response ;; ret (Some v))
         is_Exception (fun _ => ret None) ;;
     match parsed with
     | None => ret []
     | Some parsed_data => events_of_parsed_data parsed_data
     end)
    is_Exception (fun _ => ret []).

(** *** [infer_speaker_names] *)

Definition names_transcript_text (transcript : MeetingTranscript) : str :=
  str_join [newline]
    ((fun segment =>
        timestamp (seg_start segment) ++ lit " " ++ speaker segment
          ++ lit ": " ++ text segment) <$> segments transcript).

(** The validation loop over [mapping.items()]. *)
Definition validate_mapping (mapping : list (str * json)) : gmap str str :=
  foldl (fun validated_mapping p =>
           match snd p with
           | JStr inferred_name => <[fst p := inferred_name]> validated_mapping
           | _ => validated_mapping
           end) ∅ mapping.

(** The [except Exception] handler prints [response]; [response] is bound
    only once [_call_ollama] has returned. *)
Definition names_handler (response : option str) : M (gmap str str) :=
  match response with
  | None => raise unbound_response
  | Some _ => ret ∅
  end.

Definition infer_speaker_names (transcript : MeetingTranscript) : M (gmap str str) :=
  let transcript_text := names_transcript_text transcript in
  try_except
    (response <- _call_ollama (names_prompt transcript_text) names_system_prompt ;;
     try_except
       (mapping <- extract_first_json_block response ;;
        match mapping with
        | JObj kv => ret (validate_mapping kv)
        | _ => raise not_a_dictionary
        end)
       is_Exception (fun _ => names_handler (Some response)))
    is_Exception (fun _ => names_handler None).

End LLMProcessor.

(** ** [AIAgent] ([src/ai_agent.py]) *)

(** An entry point builds one [ProcessingResult] and assigns its fields
    as it goes; what was assigned before an exception stays assigned.
    [Agent] threads that object next to the trace. *)
Definition Agent (A : Type) : Type :=
  ProcessingResult -> list event -> ProcessingResult * list event * result A.

Definition agent_ret {A} (a : A) : Agent A := fun r tr => (r, tr, Ok a).

Definition agent_bind {A B} (m : Agent A) (k : A -> Agent B) : Agent B :=
  fun r tr =>
    match m r tr with
    | (r', tr', Ok a) => k a r' tr'
    | (r', tr', Raise e) => (r', tr', Raise e)
    end.

(** a call into another component: the result object is not in its reach *)
Definition call {A} (m : M A) : Agent A :=
  fun r tr => let '(tr', x) := m tr in (r, tr', x).

(** [result.field = value] *)
Definition assign (f : ProcessingResult -> ProcessingResult) : Agent unit :=
  fun r tr => (f r, tr, Ok tt).

Definition agent_try (body : Agent unit) (catches : exn -> bool)
    (handler : exn -> Agent unit) : Agent unit :=
  fun r tr =>
    match body r tr with
    | (r', tr', Ok a) => (r', tr', Ok a)
    | (r', tr', Raise e) => if catches e then handler e r' tr' else (r', tr', Raise e)
    end.

(** [return result] after the [try] statement *)
Definition return_result (a : Agent unit) (r0 : ProcessingResult) : M ProcessingResult :=
  fun tr =>
    match a r0 tr with
    | (r, tr', Ok _) => (tr', Ok r)
    | (_, tr', Raise e) => (tr', Raise e)
    end.

Notation "x <~ m ;; k" := (agent_bind m (fun x => k))
  (at level 100, m at next level, right associativity) : py_scope.
Notation "m ~;; k" := (agent_bind m (fun _ => k))
  (at level 100, right associativity) : py_scope.

Definition set_status (s : ProcessingStatus) (r : ProcessingResult) : ProcessingResult :=
  mkResult s (pr_meeting_id r) (transcript r) (minutes r) (calendar_events r)
    (error_message r) (processing_time r).

Definition set_transcript (t : MeetingTranscript) (r : ProcessingResult) : ProcessingResult :=
  mkResult (pr_status r) (pr_meeting_id r) (Some t) (minutes r) (calendar_events r)
    (error_message r) (processing_time r).

Definition set_minutes (m : MeetingMinutes) (r : ProcessingResult) : ProcessingResult :=
  mkResult (pr_status r) (pr_meeting_id r) (transcript r) (Some m) (calendar_events r)
    (error_message r) (processing_time r).

Definition set_calendar_events (evs : list CalendarEvent) (r : ProcessingResult)
  : ProcessingResult :=
  mkResult (pr_status r) (pr_meeting_id r) (transcript r) (minutes r) evs
    (error_message r) (processing_time r).

Definition set_error_message (msg : str) (r : ProcessingResult) : ProcessingResult :=
  mkResult (pr_status r) (pr_meeting_id r) (transcript r) (minutes r) (calendar_events r)
    (Some msg) (processing_time r).

Definition set_processing_time (t : Z) (r : ProcessingResult) : ProcessingResult :=
  mkResult (pr_status r) (pr_meeting_id r) (transcript r) (minutes r) (calendar_events r)
    (error_message r) (Some t).

(** *** Relabeling (step 1.5 of [process_meeting]) *)

(** [if segment.speaker in speaker_map:
       segment.speaker = speaker_map[segment.speaker]] *)
Definition relabel_segment (speaker_map : gmap str str) (segment : TranscriptionSegment)
  : TranscriptionSegment :=
  match speaker_map !! speaker segment with
  | Some new_label =>
      mkSegment (seg_start segment) (seg_end segment) new_label (text segment)
        (confidence segment)
  | None => segment
  end.

(** [if speaker.speaker_id in speaker_map:
       speaker.speaker_id = speaker_map[speaker.speaker_id]] *)
Definition relabel_speaker (speaker_map : gmap str str) (s : Speaker) : Speaker :=
  match speaker_map !! speaker_id s with
  | Some new_label => mkSpeaker new_label (role s) (name s) (speaker_confidence s)
  | None => s
  end.

(** The two loops: every segment object, then every speaker object, is
    visited once and updated in place. The objects of a transcript are
    distinct ([transcribe_audio] builds each with its own constructor
    call), so an update of one is not seen through another. *)
Definition relabel (speaker_map : gmap str str) (t : MeetingTranscript) : MeetingTranscript :=
  mkTranscript (meeting_id t) (audio_url t) (duration t)
    (relabel_speaker speaker_map <$> speakers t)
    (relabel_segment speaker_map <$> segments t)
    (created_at t).

(** [if speaker_map: ... else: ...] *)
Definition apply_speaker_map (speaker_map : gmap str str) (t : MeetingTranscript)
  : MeetingTranscript :=
  if bool_decide (speaker_map = ∅) then t else relabel speaker_map t.

Section AIAgent.
Context (W : World).

Definition call_time : M Z :=
  fun tr => (tr ++ [EvTime], Ok (time_time W tr)).

Definition call_process_audio_file (audio_path mid : str) : M MeetingTranscript :=
  emit (EvTranscribe audio_path mid) ;;;
  lift (process_audio_file W audio_path mid).

(** [CalendarManager.create_events]: a failed creation is skipped. *)
Definition create_events (events : list CalendarEvent) : M (list str) :=
  for_in events
    (fun ev created_events =>
       try_except
         (created_event <- (emit (EvCreateEvent ev) ;;; lift (create_event W ev)) ;;
          ret (created_events ++ [created_event]))
         is_Exception (fun _ => ret created_events))
    [].

(** [if not meeting_id: meeting_id = str(uuid.uuid4())] *)
Definition meeting_id_or_fresh (meeting_id : option str) : str :=
  match meeting_id with
  | Some (c :: s) => c :: s
  | _ => uuid4 W
  end.

Definition new_result (mid : str) : ProcessingResult :=
  mkResult PROCESSING mid None None [] None None.

(** the last two assignments of a [try] block *)
Definition completed (start_time : Z) : Agent unit :=
  assign (set_status COMPLETED) ~;;
  now <~ call call_time ;;
  assign (set_processing_time (now - start_time)).

(** the [except Exception as e] block shared by the four entry points *)
Definition failed (start_time : Z) (e : exn) : Agent unit :=
  assign (set_status FAILED) ~;;
  assign (set_error_message (exn_msg e)) ~;;
  now <~ call call_time ;;
  assign (set_processing_time (now - start_time)).

Definition process_meeting (audio_path : str) (meeting_id : option str)
  : M ProcessingResult :=
  start_time <- call_time ;;
  let mid := meeting_id_or_fresh meeting_id in
  return_result
    (agent_try
       (transcript <~ call (call_process_audio_file audio_path mid) ;;
        assign (set_transcript transcript) ~;;
        speaker_map <~ call (infer_speaker_names W transcript) ;;
        (* [result.transcript] and [transcript] are one object: the
           relabeling in place shows in the result *)
        let transcript := apply_speaker_map speaker_map transcript in
        assign (set_transcript transcript) ~;;
        minutes <~ call (generate_meeting_minutes W transcript) ;;
        assign (set_minutes minutes) ~;;
        calendar_events <~ call (extract_calendar_events W transcript (Some minutes)) ;;
        assign (set_calendar_events calendar_events) ~;;
        (match calendar_events with
         | [] => agent_ret tt
         | _ => _ <~ call (create_events calendar_events) ;; agent_ret tt
         end) ~;;
        completed start_time)
       is_Exception (failed start_time))
    (new_result mid).

Definition generate_minutes_only (audio_path : str) (meeting_id : option str)
  : M ProcessingResult :=
  start_time <- call_time ;;
  let mid := meeting_id_or_fresh meeting_id in
  return_result
    (agent_try
       (transcript <~ call (call_process_audio_file audio_path mid) ;;
        assign (set_transcript transcript) ~;;
        minutes <~ call (generate_meeting_minutes W transcript) ;;
        assign (set_minutes minutes) ~;;
        completed start_time)
       is_Exception (failed start_time))
    (new_result mid).

Definition extract_events_only (audio_path : str) (meeting_id : option str)
  : M ProcessingResult :=
  start_time <- call_time ;;
  let mid := meeting_id_or_fresh meeting_id in
  return_result
    (agent_try
       (transcript <~ call (call_process_audio_file audio_path mid) ;;
        assign (set_transcript transcript) ~;;
        calendar_events <~ call (extract_calendar_events W transcript None) ;;
        assign (set_calendar_events calendar_events) ~;;
        (match calendar_events with
         | [] => agent_ret tt
         | _ => _ <~ call (create_events calendar_events) ;; agent_ret tt
         end) ~;;
        completed start_time)
       is_Exception (failed start_time))
    (new_result mid).

Definition generate_transcript_only (audio_path : str) (meeting_id : option str)
  : M ProcessingResult :=
  start_time <- call_time ;;
  let mid := meeting_id_or_fresh meeting_id in
  return_result
    (agent_try
       (transcript <~ call (call_process_audio_file audio_path mid) ;;
        assign (set_transcript transcript) ~;;
        completed start_time)
       is_Exception (failed start_time))
    (new_result mid).

End AIAgent.

(** ** Reference behaviour of the library functions

    Executable descriptions of [json.loads], [datetime.strptime], the
    summary regular expression, [str.lower] and pydantic's strict [str]
    validation, used to run the pipeline on concrete responses. The
    properties proved for every [World] do not depend on them. *)
Module PyLib.

(** *** [json.loads] *)

Definition is_json_ws (c : char) : bool :=
  ((c =? 32) || (c =? 9) || (c =? 10) || (c =? 13))%N.

Fixpoint skip_ws (s : str) : str :=
  match s with
  | c :: rest => if is_json_ws c then skip_ws rest else s
  | [] => []
  end.

Definition digit_val (c : char) : option Z :=
  if ((48 <=? c) && (c <=? 57))%N then Some (Z.of_N c - 48) else None.

Definition hex_val (c : char) : option Z :=
  if ((48 <=? c) && (c <=? 57))%N then Some (Z.of_N c - 48)
  else if ((97 <=? c) && (c <=? 102))%N then Some (Z.of_N c - 87)
  else if ((65 <=? c) && (c <=? 70))%N then Some (Z.of_N c - 55)
  else None.

(** the longest prefix of decimal digits, as values, and what follows *)
Fixpoint span_digits (s : str) : list Z * str :=
  match s with
  | c :: rest =>
      match digit_val c with
      | Some d => let '(ds, r) := span_digits rest in (d :: ds, r)
      | None => ([], s)
      end
  | [] => ([], [])
  end.

Definition Z_of_digits (ds : list Z) : Z := foldl (fun acc d => acc * 10 + d) 0 ds.

(** an optional minus sign, then [0] or a digit run with no leading zero *)
Definition scan_integer (s : str) : option (bool * list Z * str) :=
  let '(neg, s1) :=
    match s with
    | c :: rest => if (c =? 45)%N then (true, rest) else (false, s)
    | [] => (false, s)
    end in
  match s1 with
  | c :: rest =>
      if (c =? 48)%N then Some (neg, [0], rest)
      else match span_digits s1 with
           | ([], _) => None
           | (ds, r) => Some (neg, ds, r)
           end
  | [] => None
  end.

(** an optional fraction: a dot and at least one digit *)
Definition scan_fraction (s : str) : option (list Z) * str :=
  match s with
  | c :: rest =>
      if (c =? 46)%N then
        match span_digits rest with
        | ([], _) => (None, s)
        | (ds, r) => (Some ds, r)
        end
      else (None, s)
  | [] => (None, s)
  end.

(** an optional exponent: [e] or [E], an optional sign, at least one digit *)
Definition scan_exponent (s : str) : option Z * str :=
  match s with
  | c :: rest =>
      if ((c =? 101) || (c =? 69))%N then
        let '(neg, r1) :=
          match rest with
          | sg :: r => if (sg =? 45)%N then (true, r)
                       else if (sg =? 43)%N then (false, r) else (false, rest)
          | [] => (false, rest)
          end in
        match span_digits r1 with
        | ([], _) => (None, s)
        | (ds, r) => (Some (if neg then - Z_of_digits ds else Z_of_digits ds), r)
        end
      else (None, s)
  | [] => (None, s)
  end.

Definition parse_number (s : str) : option (json * str) :=
  match scan_integer s with
  | None => None
  | Some (neg, ds, r) =>
      let '(frac, r1) := scan_fraction r in
      let '(exp, r2) := scan_exponent r1 in
      let sign (z : Z) := if neg then - z else z in
      match frac, exp with
      | None, None => Some (JInt (sign (Z_of_digits ds)), r2)
      | _, _ =>
          let fd := default [] frac in
          Some (JFloat (FDec (sign (Z_of_digits (ds ++ fd)))
                             (default 0 exp - Z.of_nat (length fd))), r2)
      end
  end.

(** four hexadecimal digits *)
Definition scan_hex4 (s : str) : option (Z * str) :=
  match s with
  | a :: b :: c :: d :: rest =>
      match hex_val a, hex_val b, hex_val c, hex_val d with
      | Some x, Some y, Some z, Some w => Some (((x * 16 + y) * 16 + z) * 16 + w, rest)
      | _, _, _, _ => None
      end
  | _ => None
  end.

(** a low surrogate escape right after a high surrogate *)
Definition scan_low_surrogate (s : str) : option (Z * str) :=
  match s with
  | bs :: u :: rest =>
      if ((bs =? 92) && (u =? 117))%N then
        match scan_hex4 rest with
        | Some (lo, r) => if (56320 <=? lo) && (lo <=? 57343) then Some (lo, r) else None
        | None => None
        end
      else None
  | _ => None
  end.

Definition simple_escape (c : char) : option char :=
  if (c =? 34)%N then Some 34%N
  else if (c =? 92)%N then Some 92%N
  else if (c =? 47)%N then Some 47%N
  else if (c =? 98)%N then Some 8%N
  else if (c =? 102)%N then Some 12%N
  else if (c =? 110)%N then Some 10%N
  else if (c =? 114)%N then Some 13%N
  else if (c =? 116)%N then Some 9%N
  else None.

(** The body of a string literal, after its opening quote. [fuel] bounds
    the number of characters read. *)
Fixpoint parse_string (fuel : nat) (s acc : str) : option (str * str) :=
  match fuel with
  | O => None
  | S fuel' =>
      match s with
      | [] => None
      | c :: rest =>
          if (c =? 34)%N then Some (reverse acc, rest)
          else if (c =? 92)%N then
            match rest with
            | [] => None
            | e :: rest' =>
                if (e =? 117)%N then
                  match scan_hex4 rest' with
                  | None => None
                  | Some (hi, r) =>
                      if (55296 <=? hi) && (hi <=? 56319) then
                        match scan_low_surrogate r with
                        | Some (lo, r') =>
                            parse_string fuel' r'
                              (Z.to_N (65536 + (hi - 55296) * 1024 + (lo - 56320)) :: acc)
                        | None => parse_string fuel' r (Z.to_N hi :: acc)
                        end
                      else parse_string fuel' r (Z.to_N hi :: acc)
                  end
                else
                  match simple_escape e with
                  | Some x => parse_string fuel' rest' (x :: acc)
                  | None => None
                  end
            end
          else if (c <? 32)%N then None
          else parse_string fuel' rest (c :: acc)
      end
  end.

Fixpoint parse_value (fuel : nat) (s : str) : option (json * str) :=
  match fuel with
  | O => None
  | S fuel' =>
      match s with
      | [] => None
      | c :: rest =>
          if (c =? 34)%N then
            match parse_string (S (length rest)) rest [] with
            | Some (x, r) => Some (JStr x, r)
            | None => None
            end
          else if (c =? 123)%N then
            match skip_ws rest with
            | c1 :: r1 =>
                if (c1 =? 125)%N then Some (JObj [], r1)
                else parse_members fuel' (c1 :: r1) []
            | [] => None
            end
          else if (c =? 91)%N then
            match skip_ws rest with
            | c1 :: r1 =>
                if (c1 =? 93)%N then Some (JArr [], r1)
                else parse_elements fuel' (c1 :: r1) []
            | [] => None
            end
          else if startswith s (lit "null") then Some (JNull, drop 4 s)
          else if startswith s (lit "true") then Some (JBool true, drop 4 s)
          else if startswith s (lit "false") then Some (JBool false, drop 5 s)
          else
            match parse_number s with
            | Some x => Some x
            | None =>
                if startswith s (lit "NaN") then Some (JFloat FNaN, drop 3 s)
                else if startswith s (lit "Infinity") then Some (JFloat (FInf false), drop 8 s)
                else if startswith s (lit "-Infinity") then Some (JFloat (FInf true), drop 9 s)
                else None
            end
      end
  end
with parse_elements (fuel : nat) (s : str) (acc : list json) : option (json * str) :=
  match fuel with
  | O => None
  | S fuel' =>
      match parse_value fuel' s with
      | None => None
      | Some (v, r) =>
          match skip_ws r with
          | c :: r1 =>
              if (c =? 44)%N then parse_elements fuel' (skip_ws r1) (acc ++ [v])
              else if (c =? 93)%N then Some (JArr (acc ++ [v]), r1)
              else None
          | [] => None
          end
      end
  end
with parse_members (fuel : nat) (s : str) (acc : list (str * json)) : option (json * str) :=
  match fuel with
  | O => None
  | S fuel' =>
      match s with
      | q :: rest =>
          if (q =? 34)%N then
            match parse_string (S (length rest)) rest [] with
            | None => None
            | Some (k, r) =>
                match skip_ws r with
                | colon :: r1 =>
                    if (colon =? 58)%N then
                      match parse_value fuel' (skip_ws r1) with
                      | None => None
                      | Some (v, r2) =>
                          match skip_ws r2 with
                          | c :: r3 =>
                              if (c =? 44)%N then
                                parse_members fuel' (skip_ws r3) (dict_set k v acc)
                              else if (c =? 125)%N then Some (JObj (dict_set k v acc), r3)
                              else None
                          | [] => None
                          end
                      end
                    else None
                | [] => None
                end
            end
          else None
      | [] => None
      end
  end.

Definition json_loads (s : str) : option json :=
  match parse_value (2 * length s + 2) (skip_ws s) with
  | Some (v, r) => match skip_ws r with [] => Some v | _ => None end
  | None => None
  end.

(** *** [datetime.strptime] *)

(** A format is a sequence of directives, whitespace runs and literal
    characters. *)
Inductive fmt_token :=
| TDirective (d : char)
| TSpace
| TLiteral (c : char).

Fixpoint fmt_tokens (fuel : nat) (fmt : str) : list fmt_token :=
  match fuel with
  | O => []
  | S fuel' =>
      match fmt with
      | [] => []
      | c :: rest =>
          if (c =? 37)%N then
            match rest with
            | d :: rest' => TDirective d :: fmt_tokens fuel' rest'
            | [] => [TLiteral c]
            end
          else if py_isspace c then TSpace :: fmt_tokens fuel' (lstrip rest)
          else TLiteral c :: fmt_tokens fuel' rest
      end
  end.

(** two digits whose value lies in [lo, hi] *)
Definition two_digits (lo hi : Z) (s : str) : list (Z * str) :=
  match s with
  | a :: b :: rest =>
      match digit_val a, digit_val b with
      | Some x, Some y =>
          if (lo <=? x * 10 + y) && (x * 10 + y <=? hi) then [(x * 10 + y, rest)] else []
      | _, _ => []
      end
  | _ => []
  end.

(** one digit whose value is at least [lo] *)
Definition one_digit (lo : Z) (s : str) : list (Z * str) :=
  match s with
  | a :: rest =>
      match digit_val a with
      | Some x => if lo <=? x then [(x, rest)] else []
      | None => []
      end
  | _ => []
  end.

Definition four_digits (s : str) : list (Z * str) :=
  match s with
  | a :: b :: c :: d :: rest =>
      match digit_val a, digit_val b, digit_val c, digit_val d with
      | Some x, Some y, Some z, Some w => [(((x * 10 + y) * 10 + z) * 10 + w, rest)]
      | _, _, _, _ => []
      end
  | _ => []
  end.

(** What a directive can match at the head of [s], in the order the
    alternatives of its pattern are tried. *)
Definition directive_matches (d : char) (s : str) : list (Z * str) :=
  if (d =? 89)%N then four_digits s                                    (* %Y *)
  else if (d =? 109)%N then two_digits 1 12 s ++ one_digit 1 s          (* %m *)
  else if (d =? 100)%N then                                             (* %d *)
    two_digits 1 31 s ++ one_digit 1 s ++
    match s with
    | sp :: rest => if (sp =? 32)%N then one_digit 1 rest else []
    | [] => []
    end
  else if (d =? 72)%N then two_digits 0 23 s ++ one_digit 0 s           (* %H *)
  else if (d =? 77)%N then two_digits 0 59 s ++ one_digit 0 s           (* %M *)
  else if (d =? 83)%N then two_digits 0 61 s ++ one_digit 0 s           (* %S *)
  else [].

(** the suffixes left by a non-empty whitespace run, longest run first *)
Fixpoint space_matches (s : str) : list str :=
  match s with
  | c :: rest => if py_isspace c then space_matches rest ++ [rest] else []
  | [] => []
  end.

Section FirstMatch.
Context {A B : Type} (f : A -> option B).
Fixpoint first_match (l : list A) : option B :=
  match l with
  | [] => None
  | x :: rest => match f x with Some y => Some y | None => first_match rest end
  end.
End FirstMatch.

Fixpoint match_tokens (toks : list fmt_token) (s : str) (fields : list (char * Z))
  : option (list (char * Z) * str) :=
  match toks with
  | [] => Some (fields, s)
  | TDirective d :: toks' =>
      first_match (fun '(v, r) => match_tokens toks' r ((d, v) :: fields))
        (directive_matches d s)
  | TSpace :: toks' =>
      first_match (fun r => match_tokens toks' r fields) (space_matches s)
  | TLiteral c :: toks' =>
      match s with
      | x :: r => if (x =? c)%N then match_tokens toks' r fields else None
      | [] => None
      end
  end.

Fixpoint field (d : char) (dflt : Z) (fields : list (char * Z)) : Z :=
  match fields with
  | [] => dflt
  | (d', v) :: rest => if (d' =? d)%N then v else field d dflt rest
  end.

Definition is_leap (y : Z) : bool :=
  ((y mod 4 =? 0) && negb (y mod 100 =? 0)) || (y mod 400 =? 0).

Definition days_in_month (y m : Z) : Z :=
  if m =? 2 then (if is_leap y then 29 else 28)
  else if (m =? 4) || (m =? 6) || (m =? 9) || (m =? 11) then 30
  else 31.

(** [datetime.strptime(s, fmt)]: the pattern must match a prefix of [s],
    nothing may remain, and the fields must form a date and time. *)
Definition strptime (s fmt : str) : option datetime :=
  match match_tokens (fmt_tokens (length fmt) fmt) s [] with
  | Some (fields, []) =>
      let y := field 89 1900 fields in
      let m := field 109 1 fields in
      let d := field 100 1 fields in
      let hh := field 72 0 fields in
      let mi := field 77 0 fields in
      let ss := field 83 0 fields in
      if (1 <=? y) && (d <=? days_in_month y m) && (ss <=? 59)
      then Some (Datetime y m d hh mi ss) else None
  | _ => None
  end.

(** *** The summary pattern of [_fallback_parsing] *)

(** case folding as the pattern needs it: the ASCII capitals, and the
    long s, which matches [s] *)
Definition fold_case (c : char) : char :=
  if ((65 <=? c) && (c <=? 90))%N then (c + 32)%N
  else if (c =? 383)%N then 115%N else c.

(** [s] starts with [word], letters compared without case *)
Fixpoint starts_with_nocase (s word : str) : option str :=
  match word, s with
  | [], _ => Some s
  | w :: word', c :: s' =>
      if (fold_case c =? w)%N then starts_with_nocase s' word' else None
  | _ :: _, [] => None
  end.

Definition is_separator (c : char) : bool := (c =? 58)%N || py_isspace c.

(** the run of characters before the next newline *)
Fixpoint line_prefix (s : str) : str :=
  match s with
  | c :: rest => if (c =? 10)%N then [] else c :: line_prefix rest
  | [] => []
  end.

(** After the separator run has taken at least one character: it takes
    more while it can, and gives characters back one by one until the
    capture, the run of characters before the next newline, is not empty. *)
Fixpoint capture_or_continue (s : str) : option str :=
  match s with
  | c :: rest =>
      match (if is_separator c then capture_or_continue rest else None) with
      | Some g => Some g
      | None => match line_prefix s with [] => None | g => Some g end
      end
  | [] => None
  end.

(** what follows [summary]: one separator at least, then the capture *)
Definition capture_after_separators (s : str) : option str :=
  match s with
  | c :: rest => if is_separator c then capture_or_continue rest else None
  | [] => None
  end.

Fixpoint re_search_summary (s : str) : option str :=
  match
    match starts_with_nocase s (lit "summary") with
    | Some after => capture_after_separators after
    | None => None
    end
  with
  | Some g => Some g
  | None => match s with _ :: rest => re_search_summary rest | [] => None end
  end.

(** [s.lower()] on the letters of Latin-1 *)
Definition str_lower (s : str) : str :=
  (fun c => if ((65 <=? c) && (c <=? 90) || (192 <=? c) && (c <=? 222) && negb (c =? 215))%N
            then (c + 32)%N else c) <$> s.

End PyLib.

(** A world with the reference library, pydantic in its strict mode, a
    calendar that accepts every event, and a clock that ticks once per
    recorded event. *)
Definition world (llm : str -> str -> result str)
    (audio : str -> str -> result MeetingTranscript) : World :=
  mkWorld
    (fun s => match PyLib.json_loads s with
              | Some v => Ok v
              | None => Raise json_decode_error
              end)
    PyLib.strptime PyLib.re_search_summary PyLib.str_lower
    (fun _ => None) llm audio
    (fun _ => Ok (lit "https://calendar.example/event"))
    (fun tr => Z.of_nat (length tr))
    (lit "00000000-0000-4000-8000-000000000000")
    (lit "Monday, January 01, 2024") (lit "09:00 AM").

(** ** The first balanced block, as the specification describes it *)

(** what a character adds to the brace depth: quotes are not looked at *)
Definition brace_delta (c : char) : Z :=
  if N.eqb c lbrace then 1 else if N.eqb c rbrace then -1 else 0.

(** opening braces minus closing braces *)
Fixpoint brace_depth (s : str) : Z :=
  match s with
  | [] => 0
  | c :: rest => brace_delta c + brace_depth rest
  end.

(** [b] starts at the first opening brace of [text] and ends where the
    brace depth returns to zero for the first time. *)
Definition first_balanced_block (text b : str) : Prop :=
  exists pre post,
    text = pre ++ b ++ post /\ (lbrace ∉ pre) /\ head b = Some lbrace /\
    brace_depth b = 0 /\
    forall k, (0 < k < length b)%nat -> 0 < brace_depth (take k b).

(** [text] has an opening brace, and from the first one on the brace
    depth never returns to zero. *)
Definition never_balanced (text : str) : Prop :=
  exists pre rest,
    text = pre ++ lbrace :: rest /\ (lbrace ∉ pre) /\
    forall k, (0 < k <= length (lbrace :: rest))%nat ->
              0 < brace_depth (take k (lbrace :: rest)).

(** every proper prefix of [b] of positive length has positive depth, decided *)
Definition prefixes_positive (b : str) : bool :=
  forallb (fun k => 0 <? brace_depth (take k b)) (seq 1 (length b - 1)).

(** the outcome of the one parse attempt on block [b]: only a
    [JSONDecodeError] is turned into [MalformedJson] *)
Definition attempt (W : World) (b : str) (tr : list event) : list event * result json :=
  (tr ++ [EvJsonLoads b],
   match json_loads W b with
   | Ok v => Ok v
   | Raise e => if is_JSONDecodeError e then Raise MalformedJson else Raise e
   end).

(** the [json.loads] calls recorded in a trace *)
Definition parse_attempts (tr : list event) : list str :=
  omap (fun e => match e with EvJsonLoads s => Some s | _ => None end) tr.

(** ** Running a computation on its own *)

(** the result of [m] started with an empty trace *)
Definition outcome {A} (m : M A) : result A := (m []).2.

(** [m] records nothing and does not look at the trace *)
Definition silent {A} (m : M A) : Prop := forall tr, m tr = (tr, outcome m).

(** [m] only appends to the trace and does not look at it *)
Definition uniform {A} (m : M A) : Prop :=
  forall tr, m tr = (tr ++ (m []).1, outcome m).

(** the completion calls recorded in a trace: prompt and system prompt *)
Definition llm_calls (tr : list event) : list (str * str) :=
  omap (fun e => match e with EvOllama p s => Some (p, s) | _ => None end) tr.

(** ** The shape the minutes prompt asks for *)

Definition str_or_absent (v : option json) : bool :=
  match v with
  | None | Some (JStr _) => true
  | _ => false
  end.

Definition str_null_or_absent (v : option json) : bool :=
  match v with
  | None | Some JNull | Some (JStr _) => true
  | _ => false
  end.

Definition is_JStr (v : json) : bool :=
  match v with JStr _ => true | _ => false end.

Definition str_list_null_or_absent (v : option json) : bool :=
  match v with
  | None | Some JNull => true
  | Some (JArr l) => forallb is_JStr l
  | _ => false
  end.

Definition list_of_or_absent (shaped : json -> bool) (v : option json) : bool :=
  match v with
  | None => true
  | Some (JArr l) => forallb shaped l
  | _ => false
  end.

Definition action_item_shaped (item : json) : bool :=
  match item with
  | JObj kv =>
      str_or_absent (assoc (lit "description") kv)
      && str_null_or_absent (assoc (lit "assignee") kv)
      && str_null_or_absent (assoc (lit "due_date") kv)
      && str_or_absent (assoc (lit "priority") kv)
  | _ => false
  end.

Definition decision_shaped (d : json) : bool :=
  match d with
  | JObj kv =>
      str_or_absent (assoc (lit "topic") kv)
      && str_or_absent (assoc (lit "decision") kv)
      && str_null_or_absent (assoc (lit "rationale") kv)
  | _ => false
  end.

Definition minutes_shaped (parsed_data : json) : bool :=
  match parsed_data with
  | JObj kv =>
      list_of_or_absent action_item_shaped (assoc (lit "action_items") kv)
      && list_of_or_absent decision_shaped (assoc (lit "decisions") kv)
      && str_list_null_or_absent (assoc (lit "key_points") kv)
      && str_list_null_or_absent (assoc (lit "next_steps") kv)
      && str_or_absent (assoc (lit "summary") kv)
  | _ => false
  end.

Definition duration_in_range (t : MeetingTranscript) : Prop :=
  -999999999 <= duration t / 86400000 <= 999999999.

(** what the minutes are made of when [_fallback_parsing] supplied the data *)
Definition fallback_minutes (W : World) (t : MeetingTranscript) (response : str)
  : MeetingMinutes :=
  mkMinutes (meeting_id t) (created_at t) (Timedelta (duration t))
    (remove_dups (speaker <$> segments t))
    (fallback_key_points response) [] [] [] (fallback_summary W response).

(** ** Worlds and inputs used in the examples *)

Definition connection_refused : exn := Exn ConnectionError (lit "Connection refused").

(** Ollama is not running. *)
Definition llm_down : str -> str -> result str := fun _ _ => Raise connection_refused.

(** The model answers every prompt with the same text. *)
Definition llm_says (response : str) : str -> str -> result str := fun _ _ => Ok response.

Definition audio_fails : str -> str -> result MeetingTranscript :=
  fun _ _ => Raise (Exn PlainException (lit "Transcription failed: no audio")).

Definition full_confidence : pyfloat := FDec 1 0.

(** the two-segment transcript of the end-to-end scenario *)
Definition demo_transcript : MeetingTranscript :=
  mkTranscript (lit "demo-meeting-001") (lit "demo_meeting.wav") 9000
    [mkSpeaker (lit "A") PARTICIPANT None full_confidence; mkSpeaker (lit "B") PARTICIPANT None full_confidence]
    [mkSegment 0 5000 (lit "A") (lit "Hi I'm John") full_confidence;
     mkSegment 5000 9000 (lit "B") (lit "Thanks John, let's meet Thursday at 2pm")
       full_confidence]
    (Datetime 2024 1 1 9 0 0).

Definition audio_demo : str -> str -> result MeetingTranscript :=
  fun _ _ => Ok demo_transcript.

(** texts for [extract_first_json_block] *)
Definition unbalanced_text : str := py "{`a`: 1".
Definition brace_in_string_text : str := py "{`a`: `}`}".
Definition prose_with_braces : str := py "see {x}, then {`a`: 1}".
Definition reply_prefix : str := lit "Here you go: ".
Definition reply_block : str := py "{`a`: {`b`: 1}}".
Definition reply_suffix : str := lit " } hope {that helps".

Definition quiet_world : World := world llm_down audio_fails.

(** ** The relabeling rule, as the specification states it *)

(** [M[label]] if [label] is a key of [M], the label itself otherwise *)
Definition relabeled (speaker_map : gmap str str) (label : str) : str :=
  default label (speaker_map !! label).

(** a map whose values collide with its keys *)
Definition chained_map : gmap str str :=
  <[lit "A" := lit "B"]> (<[lit "B" := lit "C"]> ∅).

(** responses to the minutes prompt *)
Definition minutes_with_string_items : str :=
  py "{`key_points`: [`Budget`], `action_items`: [`Send the report`], `summary`: `ok`}".

Definition minutes_with_urgent_item : str :=
  py "{`action_items`: [{`description`: `Ship it`, `priority`: `urgent`}], `summary`: `ok`}".

Definition minutes_as_prose : str :=
  lit "Here are the notes.
- Budget was approved
* Hiring is paused
Summary: a short sync".

(** ** Timestamps, as the specification states them *)

(** the value of a timestamp string: the first of the two formats of
    [parse_datetime] that accepts it *)
Definition parsed_timestamp (W : World) (s : str) : option datetime :=
  match strptime W s (lit "%Y-%m-%d %H:%M") with
  | Some d => Some d
  | None => strptime W s (lit "%Y-%m-%d %H:%M:%S")
  end.

Definition attendees_shaped (v : option json) : bool :=
  match v with
  | None => true
  | Some (JArr l) => forallb is_JStr l
  | _ => false
  end.

(** a candidate event with string timestamps and the other fields as
    the prompt asks for them *)
Definition event_shaped (kv : list (str * json)) : bool :=
  str_or_absent (assoc (lit "summary") kv)
  && str_or_absent (assoc (lit "description") kv)
  && attendees_shaped (assoc (lit "attendees") kv)
  && str_null_or_absent (assoc (lit "location") kv).

(** responses to the events prompt *)
Definition events_valid_then_null : str :=
  py "{`events`: [
   {`summary`: `Planning`, `description`: `Q3 planning`,
    `start_time`: `2024-03-01 10:00`, `end_time`: `2024-03-01 11:00`},
   {`summary`: `Follow-up`, `description`: `to be scheduled`,
    `start_time`: null, `end_time`: null}]}".

Definition events_valid_then_malformed : str :=
  py "{`events`: [
   {`summary`: `Planning`, `description`: `Q3 planning`,
    `start_time`: `2024-03-01 10:00`, `end_time`: `2024-03-01 11:00`},
   {`summary`: `Follow-up`, `description`: `to be scheduled`,
    `start_time`: `next Thursday`, `end_time`: `2024-03-07 15:00`}]}".

Definition events_reversed : str :=
  py "{`events`: [
   {`summary`: `Retro`, `description`: `ends before it starts`,
    `start_time`: `2024-03-02 10:00`, `end_time`: `2024-03-01 09:00`}]}".

Definition planning_event : CalendarEvent :=
  mkCalendarEvent (lit "Planning") (lit "Q3 planning")
    (Datetime 2024 3 1 10 0 0) (Datetime 2024 3 1 11 0 0) [] None.

(** the event a candidate object stands for, if its timestamps are
    strings that parse and its other fields validate *)
Definition event_of_candidate (W : World) (c : json) : option CalendarEvent :=
  match c with
  | JObj kv =>
      match assoc (lit "start_time") kv, assoc (lit "end_time") kv with
      | Some (JStr s), Some (JStr e) =>
          match parsed_timestamp W s, parsed_timestamp W e,
                pydantic_str W (default (JStr []) (assoc (lit "summary") kv)),
                pydantic_str W (default (JStr []) (assoc (lit "description") kv)),
                pydantic_list_str W (default (JArr []) (assoc (lit "attendees") kv)),
                pydantic_optional_str W (default JNull (assoc (lit "location") kv))
          with
          | Some ds, Some de, Some sm, Some d, Some a, Some l =>
              Some (mkCalendarEvent sm d ds de a l)
          | _, _, _, _, _, _ => None
          end
      | _, _ => None
      end
  | _ => None
  end.

(** a candidate object whose timestamps, where present, are strings *)
Definition string_timestamps (c : json) : bool :=
  match c with
  | JObj kv =>
      str_or_absent (assoc (lit "start_time") kv)
      && str_or_absent (assoc (lit "end_time") kv)
  | _ => false
  end.

Definition reversed_candidate : list (str * json) :=
  [(lit "summary", JStr (lit "Retro"));
   (lit "start_time", JStr (lit "2024-03-02 10:00"));
   (lit "end_time", JStr (lit "2024-03-01 09:00"))].

(** ** The result contract of an entry point *)

(** [run] is an entry point applied to its arguments and [audio] what the
    transcription stage answers for them. *)
Definition entry_point_contract (run : M ProcessingResult)
    (audio : result MeetingTranscript) (tr : list event) : Prop :=
  exists r tr',
    run tr = (tr', Ok r) /\
    (pr_status r = COMPLETED \/ pr_status r = FAILED) /\
    is_Some (processing_time r) /\
    (pr_status r = FAILED -> is_Some (error_message r)) /\
    (forall t, audio = Ok t ->
       exists sm, transcript r = Some (apply_speaker_map sm t)) /\
    (forall e, audio = Raise e ->
       pr_status r = FAILED /\ error_message r = Some (exn_msg e) /\
       transcript r = None /\ minutes r = None /\ calendar_events r = []).

(** the transcript reads as transcribed, but the model's answer to the
    minutes prompt has string action items *)
Definition world_failing_minutes : World :=
  world (llm_says minutes_with_string_items) audio_demo.

(** The model answers by kind of request, told apart by the system
    prompt: speaker names, minutes, events. *)
Definition llm_scripted (names minutes_text events : str) : str -> str -> result str :=
  fun _ system_prompt =>
    if bool_decide (system_prompt = names_system_prompt) then Ok names
    else if bool_decide (system_prompt = minutes_system_prompt) then Ok minutes_text
    else Ok events.

Definition names_reply : str := py "Sure! {`A`: `John`, `C`: 3}".

Definition scenario_world : World :=
  world (llm_scripted names_reply minutes_as_prose events_valid_then_malformed) audio_demo.

(** the string-valued entries of a parsed mapping *)
Definition string_entry (kv : list (str * json)) (label : str) : option str :=
  match assoc label kv with
  | Some (JStr inferred_name) => Some inferred_name
  | _ => None
  end.


(** ** Further observations on traces and results *)

(** the events handed to the calendar, as recorded in a trace *)
Definition calendar_submissions (tr : list event) : list CalendarEvent :=
  omap (fun e => match e with EvCreateEvent ev => Some ev | _ => None end) tr.

(** the link of an event the calendar accepted *)
Definition created_link (W : World) (ev : CalendarEvent) : option str :=
  match create_event W ev with
  | Ok link => Some link
  | Raise _ => None
  end.

(** an event of the language-model side: a completion request or a parse *)
Definition model_event (e : event) : bool :=
  match e with EvOllama _ _ | EvJsonLoads _ => true | _ => false end.

(** [m] only appends events of kind [P] to the trace *)
Definition only_emits (P : event -> bool) {A} (m : M A) : Prop :=
  forall tr, exists ext, (m tr).1 = tr ++ ext /\ forallb P ext = true.

(** the due date an action item takes from its candidate: the value of a
    non-empty [due_date] string in the format [%Y-%m-%d] *)
Definition due_date_of_candidate (W : World) (item : json) : option datetime :=
  match item with
  | JObj kv =>
      match assoc (lit "due_date") kv with
      | Some (JStr s) =>
          if bool_decide (s = []) then None else strptime W s (lit "%Y-%m-%d")
      | _ => None
      end
  | _ => None
  end.

(** a [str] field of a candidate object, given its default *)
Definition str_field (W : World) (item : json) (k : str) (dflt : json) : option str :=
  match item with
  | JObj kv => pydantic_str W (default dflt (assoc k kv))
  | _ => None
  end.

Definition minutes_with_due_dates : str :=
  py "{`action_items`: [
   {`description`: `Ship it`, `due_date`: `2024-03-15`},
   {`description`: `Plan the offsite`, `due_date`: `next week`},
   {`description`: `Hire`, `due_date`: null}],
  `decisions`: [{`topic`: `Budget`, `decision`: `approved`}],
  `summary`: `ok`}".

(** a run whose transcription raises [e]: the transcriber is asked once,
    nothing else is, and the result is failed with the message of [e] *)
Definition stopped_at_transcription (run : M ProcessingResult) (audio_path mid : str)
    (e : exn) (tr : list event) : Prop :=
  exists r,
    run tr = (tr ++ [EvTime; EvTranscribe audio_path mid; EvTime], Ok r) /\
    pr_status r = FAILED /\ error_message r = Some (exn_msg e) /\
    transcript r = None /\ minutes r = None /\ calendar_events r = [].

(** ** [AudioProcessor] ([src/audio_processor.py]) *)

(** What [transcribe_audio] reads of the transcript object AssemblyAI
    returns. An utterance has its bounds in milliseconds, its speaker
    label if diarization gave one, its text, and its confidence if the
    attribute exists. *)
Record Utterance := mkUtterance {
  utt_start : Z;
  utt_end : Z;
  utt_speaker : option str;
  utt_text : str;
  utt_confidence : option pyfloat
}.

Record AaiTranscript := mkAaiTranscript {
  (** [transcript.status == aai.TranscriptStatus.error] *)
  status_is_error : bool;
  (** [transcript.error], as the f-string formats it *)
  aai_error : str;
  (** [transcript.utterances] *)
  utterances : option (list Utterance);
  (** [transcript.audio_duration], in seconds *)
  audio_duration : option Z
}.

Definition transcription_failed (error : str) : exn :=
  Exn PlainException (lit "Transcription failed: " ++ error).
Definition type_error_none_iter : exn :=
  Exn TypeError (lit "'NoneType' object is not iterable").
Definition type_error_none_mul : exn :=
  Exn TypeError (lit "unsupported operand type(s) for *: 'NoneType' and 'int'").

(** [Field(ge=0.0, le=1.0)] on the value [m * 10^e]; a NaN or an infinity
    fails one of the two comparisons *)
Definition in_unit_interval (f : pyfloat) : bool :=
  match f with
  | FDec m e => (0 <=? m) && (if 0 <=? e then m * 10 ^ e <=? 1 else m <=? 10 ^ (- e))
  | _ => false
  end.

(** a comprehension or loop whose body can raise: the first exception
    ends it *)
Fixpoint collect {A B} (f : A -> result B) (l : list A) : result (list B) :=
  match l with
  | [] => Ok []
  | x :: rest =>
      match f x with
      | Ok y =>
          match collect f rest with
          | Ok ys => Ok (y :: ys)
          | Raise e => Raise e
          end
      | Raise e => Raise e
      end
  end.

Module AudioProcessor.
Section AudioProcessor.
(** [aai.Transcriber().transcribe(audio_path, config=self.config)] and
    [datetime.now()], the default of [created_at] *)
Context (transcribe : str -> result AaiTranscript) (now : datetime).

(** [Speaker(speaker_id=speaker_id, role=SpeakerRole.PARTICIPANT,
    confidence=1.0)]: [speaker_id] is a [str] field *)
Definition speaker_of (speaker_id : option str) : result Speaker :=
  match speaker_id with
  | Some label => Ok (mkSpeaker label PARTICIPANT None full_confidence)
  | None => Raise validation_error
  end.

(** [TranscriptionSegment(start=int(utterance.start), ...,
    confidence=getattr(utterance, 'confidence', 1.0))] *)
Definition segment_of (utterance : Utterance) : result TranscriptionSegment :=
  let c := default full_confidence (utt_confidence utterance) in
  match utt_speaker utterance with
  | Some label =>
      if in_unit_interval c
      then Ok (mkSegment (utt_start utterance) (utt_end utterance) label
                 (utt_text utterance) c)
      else Raise validation_error
  | None => Raise validation_error
  end.

(** The [except Exception] block prints and raises again. *)
Definition transcribe_audio (audio_path meeting_id : str) : result MeetingTranscript :=
  match transcribe audio_path with
  | Raise e => Raise e
  | Ok transcript =>
      if status_is_error transcript then Raise (transcription_failed (aai_error transcript))
      else
        match utterances transcript with
        | None => Raise type_error_none_iter
        | Some utts =>
            (* [set(utt.speaker for utt in transcript.utterances)]: the
               distinct labels, in an order the set chooses *)
            let speaker_ids := remove_dups (utt_speaker <$> utts) in
            match collect speaker_of speaker_ids with
            | Raise e => Raise e
            | Ok speakers =>
                match collect segment_of utts with
                | Raise e => Raise e
                | Ok segments =>
                    match audio_duration transcript with
                    | None => Raise type_error_none_mul
                    | Some seconds =>
                        Ok (mkTranscript meeting_id audio_path (seconds * 1000)
                              speakers segments now)
                    end
                end
            end
        end
  end.

Definition process_audio_file (audio_path meeting_id : str) : result MeetingTranscript :=
  transcribe_audio audio_path meeting_id.

End AudioProcessor.
End AudioProcessor.

(** a transcript whose segments are all spoken by one of its speakers *)
Definition speakers_cover_segments (t : MeetingTranscript) : Prop :=
  forall seg, seg ∈ segments t -> speaker seg ∈ speaker_id <$> speakers t.

(** an utterance [transcribe_audio] can turn into a segment *)
Definition usable_utterance (u : Utterance) : bool :=
  match utt_speaker u with
  | Some _ => in_unit_interval (default full_confidence (utt_confidence u))
  | None => false
  end.

(** the recording behind [demo_transcript] *)
Definition demo_recording : AaiTranscript :=
  mkAaiTranscript false (lit "None")
    (Some [mkUtterance 0 5000 (Some (lit "A")) (lit "Hi I'm John") None;
           mkUtterance 5000 9000 (Some (lit "B"))
             (lit "Thanks John, let's meet Thursday at 2pm") (Some (FDec 1 0))])
    (Some 9).

(** a recording with an utterance diarization did not label *)
Definition unlabeled_recording : AaiTranscript :=
  mkAaiTranscript false (lit "None")
    (Some [mkUtterance 0 5000 (Some (lit "A")) (lit "Hi I'm John") None;
           mkUtterance 5000 9000 None (lit "Thanks John") None])
    (Some 9).

(** ** Analysing a saved transcript ([src/llm_processor.py], [src/ai_agent.py]) *)

(** [system_prompt] of [analyze_speaker_names_from_text] *)
Definition analysis_system_prompt : str :=
  unlines [
    "You are an expert meeting assistant specializing in speaker identification. Given a meeting transcript, analyze the content to infer the most likely real names for each speaker label based on context clues, introductions, self-identifications, or references by other speakers. Look for patterns like: 'Hi, I'm John', 'This is Sarah speaking', 'John mentioned...', etc. If a name cannot be determined with reasonable confidence, keep the original label. Output only a JSON mapping of speaker labels to names."]%string.

(** [prompt] of [analyze_speaker_names_from_text] *)
Definition analysis_prompt (transcript_text : str) : str :=
  unlines [
    EmptyString;
    "Please analyze this meeting transcript and infer the real names for each speaker:";
    EmptyString;
    EmptyString]%string
  ++
  transcript_text
  ++
  unlines [
    EmptyString;
    EmptyString;
    "Provide a JSON mapping of speaker labels to inferred names. For example:";
    "{";
    "  `Speaker A`: `John Smith`,";
    "  `Speaker B`: `Sarah Johnson`,";
    "  `Speaker C`: `Speaker C`";
    "}";
    EmptyString;
    "Only change labels where you can confidently infer a name from the context.";
    EmptyString]%string.

Section TranscriptAnalysis.
(** [open(transcript_file, 'r', encoding='utf-8').read()]: the text of
    the file, or the exception of [open] or of the decoder *)
Context (W : World) (read_text : str -> result str).

(** As in [infer_speaker_names], the handler prints [response]. *)
Definition analyze_speaker_names_from_text (transcript_text : str) : M (gmap str str) :=
  try_except
    (response <- _call_ollama W (analysis_prompt transcript_text) analysis_system_prompt ;;
     try_except
       (mapping <- extract_first_json_block W response ;;
        match mapping with
        | JObj kv => ret (validate_mapping kv)
        | _ => raise not_a_dictionary
        end)
       is_Exception (fun _ => names_handler (Some response)))
    is_Exception (fun _ => names_handler None).

(** The [except Exception] block prints and raises again. *)
Definition analyze_speaker_names_from_file (transcript_file : str) : M (gmap str str) :=
  transcript_content <- lift (read_text transcript_file) ;;
  analyze_speaker_names_from_text transcript_content.

(** The [except Exception] block prints and raises again. *)
Definition analyze_transcript_file (transcript_file : str) : M (gmap str str) :=
  analyze_speaker_names_from_file transcript_file.

End TranscriptAnalysis.

(** a file system with one saved transcript; the class of the exception
    for a missing file plays no part, [except Exception] being the only
    handler in its way *)
Definition file_not_found : exn :=
  Exn PlainException (lit "[Errno 2] No such file or directory").
Definition one_file (path content : str) : str -> result str :=
  fun p => if bool_decide (p = path) then Ok content else Raise file_not_found.

(** ** [get_processing_summary] ([src/ai_agent.py]) *)

(** [status.value] *)
Definition status_value (s : ProcessingStatus) : str :=
  match s with
  | PENDING => lit "pending"
  | PROCESSING => lit "processing"
  | COMPLETED => lit "completed"
  | FAILED => lit "failed"
  end.

Definition type_error_format_none : exn :=
  Exn TypeError (lit "unsupported format string passed to NoneType.__format__").

(** [len(l)] in an f-string *)
Definition str_of_len {A} (l : list A) : str := str_of_Z (Z.of_nat (length l)).

Section Summary.
(** [f"{x:.2f}"] of a processing time and [f"{d / 1000 / 60:.1f}"] of a
    duration in milliseconds *)
Context (format_2f : Z -> str) (format_minutes_1f : Z -> str).

Definition get_processing_summary (r : ProcessingResult) : result str :=
  match processing_time r with
  | None => Raise type_error_format_none
  | Some seconds =>
      let summary :=
        lit "
=== Meeting Processing Summary ===
Meeting ID: " ++ pr_meeting_id r ++ lit "
Status: " ++ status_value (pr_status r) ++ lit "
Processing Time: " ++ format_2f seconds ++ lit " seconds

" in
      let summary :=
        match error_message r with
        | Some (c :: msg) => summary ++ lit "Error: " ++ (c :: msg) ++ [newline]
        | _ => summary
        end in
      let summary :=
        match transcript r with
        | Some t =>
            summary ++ lit "
Transcript:
- Duration: " ++ format_minutes_1f (duration t) ++ lit " minutes
- Speakers: " ++ str_of_len (speakers t) ++ lit "
- Segments: " ++ str_of_len (segments t) ++ [newline]
        | None => summary
        end in
      let summary :=
        match minutes r with
        | Some m =>
            summary ++ lit "
Meeting Minutes:
- Key Points: " ++ str_of_len (key_points m) ++ lit "
- Action Items: " ++ str_of_len (action_items m) ++ lit "
- Decisions: " ++ str_of_len (decisions m) ++ lit "
- Next Steps: " ++ str_of_len (next_steps m) ++ [newline]
        | None => summary
        end in
      let summary :=
        match calendar_events r with
        | [] => summary
        | evs => summary ++ lit "
Calendar Events:
- Events Created: " ++ str_of_len evs ++ [newline]
        end in
      Ok summary
  end.

End Summary.

(** ** [CalendarManager] ([src/calendar_manager.py]) *)

(** The requests [CalendarManager] sends through [self.service], each
    with the arguments that vary; [execute()] returns the decoded answer
    or raises. *)
Record CalendarService := mkCalendarService {
  (** [events().insert(calendarId='primary', body=..., sendUpdates='all')] *)
  events_insert : json -> result json;
  (** [events().update(calendarId='primary', eventId=..., body=...,
      sendUpdates='all')] *)
  events_update : str -> json -> result json;
  (** [events().list(calendarId='primary', timeMin=..., timeMax=...,
      maxResults=..., singleEvents=True, orderBy='startTime')] *)
  events_list : str -> str -> Z -> result json
}.

Definition service_not_initialized : exn :=
  Exn PlainException (lit "Calendar service not initialized").
Definition type_error_len : exn := Exn TypeError (lit "object has no len()").

(** the default of [CalendarEvent.reminders] *)
Definition default_reminders : json :=
  JObj [(lit "useDefault", JBool false);
        (lit "overrides",
         JArr [JObj [(lit "method", JStr (lit "email")); (lit "minutes", JInt (24 * 60))];
               JObj [(lit "method", JStr (lit "popup")); (lit "minutes", JInt 30)]])].

(** [len(v)] *)
Definition py_len (v : json) : result Z :=
  match v with
  | JStr s => Ok (Z.of_nat (length s))
  | JArr l => Ok (Z.of_nat (length l))
  | JObj kv => Ok (Z.of_nat (length kv))
  | _ => Raise type_error_len
  end.

Module CalendarManager.
Section CalendarManager.
(** [self.service], [Config.GOOGLE_CALENDAR_TIMEZONE], [datetime.isoformat],
    [datetime.utcnow()] and [time_min + timedelta(days=7)] *)
Context (service : option CalendarService) (timezone : str)
        (isoformat : datetime -> str) (utcnow : datetime)
        (plus_seven_days : datetime -> result datetime).

(** the part of [event_data] that [create_event] and [update_event]
    build in the same way *)
Definition base_event_data (event : CalendarEvent) : list (str * json) :=
  [(lit "summary", JStr (summary event));
   (lit "description", JStr (ev_description event));
   (lit "start", JObj [(lit "dateTime", JStr (isoformat (start_time event)));
                       (lit "timeZone", JStr timezone)]);
   (lit "end", JObj [(lit "dateTime", JStr (isoformat (end_time event)));
                     (lit "timeZone", JStr timezone)]);
   (lit "reminders", default_reminders)].

Definition email_entry (email : str) : json := JObj [(lit "email", JStr email)].

(** [if event.location: event_data['location'] = event.location] *)
Definition with_location (event : CalendarEvent) (event_data : list (str * json))
  : list (str * json) :=
  match location event with
  | Some (c :: l) => dict_set (lit "location") (JStr (c :: l)) event_data
  | _ => event_data
  end.

Definition create_event_data (event : CalendarEvent) : json :=
  let event_data := base_event_data event in
  let event_data :=
    match attendees event with
    | [] => event_data
    | _ =>
        let valid_attendees :=
          filter (fun email => (chr "@" ∈ email)) (attendees event) in
        match valid_attendees with
        | [] => event_data
        | _ => dict_set (lit "attendees") (JArr (email_entry <$> valid_attendees))
                 event_data
        end
    end in
  JObj (with_location event event_data).

Definition update_event_data (event : CalendarEvent) : json :=
  let event_data := base_event_data event in
  let event_data :=
    match attendees event with
    | [] => event_data
    | _ => dict_set (lit "attendees") (JArr (email_entry <$> attendees event)) event_data
    end in
  JObj (with_location event event_data).

(** Both handlers print and raise again. *)
Definition create_event (event : CalendarEvent) : result json :=
  match service with
  | None => Raise service_not_initialized
  | Some svc => events_insert svc (create_event_data event)
  end.

Definition update_event (event_id : str) (event : CalendarEvent) : result json :=
  match service with
  | None => Raise service_not_initialized
  | Some svc => events_update svc event_id (update_event_data event)
  end.

Definition list_events (time_min time_max : option datetime) (max_results : Z)
  : result json :=
  match service with
  | None => Raise service_not_initialized
  | Some svc =>
      let time_min := default utcnow time_min in
      match (match time_max with
             | Some t => Ok t
             | None => plus_seven_days time_min
             end) with
      | Raise e => Raise e
      | Ok time_max =>
          match events_list svc (isoformat time_min ++ lit "Z")
                  (isoformat time_max ++ lit "Z") max_results with
          | Raise e => Raise e
          | Ok events_result => py_get events_result (lit "items") (JArr [])
          end
      end
  end.

(** The handler prints and returns [False]. *)
Definition check_availability (start_time end_time : datetime) : bool :=
  match list_events (Some start_time) (Some end_time) 1 with
  | Raise _ => false
  | Ok events =>
      match py_len events with
      | Ok n => n =? 0
      | Raise _ => false
      end
  end.

End CalendarManager.
End CalendarManager.

(** an event with one attendee that is no address *)
Definition event_with_a_name : CalendarEvent :=
  mkCalendarEvent (lit "Planning") (lit "Q3 planning")
    (Datetime 2024 3 1 10 0 0) (Datetime 2024 3 1 11 0 0)
    [lit "ana@example.com"; lit "Bob"] None.

(** responses to the minutes prompt with a null list *)
Definition minutes_with_null_action_items : str :=
  py "{`key_points`: [`Budget`], `action_items`: null, `summary`: `ok`}".

Definition minutes_with_null_key_points : str :=
  py "{`key_points`: null, `action_items`: [], `summary`: `ok`}".

(** a map that gives two labels the same name *)
Definition merging_map : gmap str str :=
  <[lit "A" := lit "John"]> (<[lit "B" := lit "John"]> ∅).
(** * Properties *)

(** ** The trace monad *)

Lemma bind_ok {A B} (m : M A) (k : A -> M B) tr tr' a :
  m tr = (tr', Ok a) -> bind m k tr = k a tr'.
Proof. intros H. unfold bind. by rewrite H. Qed.

Lemma bind_raise {A B} (m : M A) (k : A -> M B) tr tr' e :
  m tr = (tr', Raise e) -> bind m k tr = (tr', Raise e).
Proof. intros H. unfold bind. by rewrite H. Qed.

(** ** [extract_first_json_block] *)

Lemma brace_depth_app (a b : str) :
  brace_depth (a ++ b) = brace_depth a + brace_depth b.
Proof. induction a as [|c a IH]; simpl; lia. Qed.

Lemma brace_delta_bounds c : -1 <= brace_delta c <= 1.
Proof. unfold brace_delta. repeat case_match; lia. Qed.

Lemma find_from_absent (text : str) c i :
  c ∉ text -> find_from text c i = -1.
Proof.
  revert i. induction text as [|x text IH]; intros i Hc; simpl; [done|].
  apply not_elem_of_cons in Hc as [Hx Ht].
  destruct (N.eqb_spec x c) as [->|_]; [done|]. by apply IH.
Qed.

Lemma find_from_first (pre rest : str) c i :
  c ∉ pre -> find_from (pre ++ c :: rest) c i = i + Z.of_nat (length pre).
Proof.
  revert i. induction pre as [|x pre IH]; intros i Hc; simpl.
  - rewrite N.eqb_refl. lia.
  - apply not_elem_of_cons in Hc as [Hx Ht].
    destruct (N.eqb_spec x c) as [->|_]; [done|]. rewrite IH by done. lia.
Qed.

Lemma elem_of_first_split (text : str) c :
  c ∈ text -> exists pre rest, text = pre ++ c :: rest /\ c ∉ pre.
Proof.
  induction text as [|x text IH]; intros Hc; [by apply elem_of_nil in Hc|].
  destruct (decide (x = c)) as [->|Hne].
  - exists [], text. split; [done|]. apply not_elem_of_nil.
  - apply elem_of_cons in Hc as [->|Hc]; [done|].
    destruct (IH Hc) as (pre & rest & -> & Hpre).
    exists (x :: pre), rest. split; [done|].
    apply not_elem_of_cons. split; [congruence|done].
Qed.

Section Extract.
Context (W : World).

Lemma try_loads (b : str) tr :
  try_except (call_json_loads W b) is_JSONDecodeError
    (fun _ => raise MalformedJson) tr = attempt W b tr.
Proof.
  unfold try_except, call_json_loads, bind, emit, lift, attempt.
  destruct (json_loads W b) as [v|e]; [reflexivity|].
  by destruct (is_JSONDecodeError e).
Qed.

(** Inside the block: [b1] has been read, [b2] is still to come. *)
Lemma scan_braces_block (text : str) (start : Z) (b2 : str) :
  forall (b1 post : str) tr,
    b2 <> [] ->
    (b1 = [] -> head b2 = Some lbrace) ->
    brace_depth (b1 ++ b2) = 0 ->
    (forall k, (0 < k < length (b1 ++ b2))%nat -> 0 < brace_depth (take k (b1 ++ b2))) ->
    slice text start (start + Z.of_nat (length (b1 ++ b2))) = b1 ++ b2 ->
    scan_braces W text start (b2 ++ post) (start + Z.of_nat (length b1))
      (brace_depth b1) tr = attempt W (b1 ++ b2) tr.
Proof.
  induction b2 as [|c b2 IH]; intros b1 post tr Hne Hhd Hbal Hpos Hsl; [done|].
  assert (Hb1 : b1 <> [] -> 0 < brace_depth b1).
  { intros Hb. specialize (Hpos (length b1)).
    rewrite take_app_length in Hpos. apply Hpos.
    rewrite length_app. simpl. destruct b1; [done|]. simpl. lia. }
  assert (Hstep : brace_depth (b1 ++ [c]) = brace_depth b1 + brace_delta c).
  { rewrite brace_depth_app. simpl. lia. }
  assert (Hnext : b2 <> [] -> 0 < brace_depth (b1 ++ [c])).
  { intros Hb. specialize (Hpos (length (b1 ++ [c]))).
    replace (b1 ++ c :: b2) with ((b1 ++ [c]) ++ b2) in Hpos by by rewrite <- app_assoc.
    rewrite take_app_length in Hpos. apply Hpos.
    rewrite !length_app. simpl. destruct b2; [done|]. simpl. lia. }
  assert (Hlast : b2 = [] -> brace_depth (b1 ++ [c]) = 0).
  { intros ->. done. }
  assert (Hrec : b2 <> [] ->
            scan_braces W text start (b2 ++ post) (start + Z.of_nat (length b1) + 1)
              (brace_depth (b1 ++ [c])) tr = attempt W (b1 ++ c :: b2) tr).
  { intros Hb.
    replace (start + Z.of_nat (length b1) + 1)
      with (start + Z.of_nat (length (b1 ++ [c]))) by (rewrite length_app; simpl; lia).
    replace (b1 ++ c :: b2) with ((b1 ++ [c]) ++ b2) in * by by rewrite <- app_assoc.
    apply IH; try done. intros Hnil. by destruct b1. }
  assert (Hb0 : 0 <= brace_depth b1).
  { destruct (decide (b1 = [])) as [->|Hb]; [done|]. specialize (Hb1 Hb). lia. }
  simpl. unfold brace_delta in Hstep.
  destruct (N.eqb c lbrace) eqn:Hl.
  - (* an opening brace *)
    replace (brace_depth b1 + 1) with (brace_depth (b1 ++ [c])) by lia.
    apply Hrec. intros ->. specialize (Hlast eq_refl). lia.
  - destruct (N.eqb c rbrace) eqn:Hr.
    + (* a closing brace *)
      replace (brace_depth b1 - 1) with (brace_depth (b1 ++ [c])) by lia.
      destruct (decide (b2 = [])) as [->|Hb].
      * rewrite (Hlast eq_refl). simpl.
        replace (start + Z.of_nat (length b1) + 1)
          with (start + Z.of_nat (length (b1 ++ [c]))) by (rewrite length_app; simpl; lia).
        rewrite Hsl. apply try_loads.
      * specialize (Hnext Hb).
        destruct (Z.eqb_spec (brace_depth (b1 ++ [c])) 0) as [Hz|_]; [lia|].
        by apply Hrec.
    + (* any other character *)
      replace (brace_depth b1) with (brace_depth (b1 ++ [c])) by lia.
      apply Hrec. intros ->.
      destruct (decide (b1 = [])) as [->|Hb].
      * specialize (Hhd eq_refl). simpl in Hhd. injection Hhd as ->.
        unfold lbrace in Hl. by rewrite N.eqb_refl in Hl.
      * specialize (Hb1 Hb). specialize (Hlast eq_refl). lia.
Qed.

End Extract.

Section ExtractOutcomes.
Context (W : World).

Lemma scan_braces_never (text : str) (start : Z) (rest : str) :
  forall i d tr,
    (forall k, (0 < k <= length rest)%nat -> 0 < d + brace_depth (take k rest)) ->
    scan_braces W text start rest i d tr = (tr, Raise MalformedJson).
Proof.
  induction rest as [|c rest IH]; intros i d tr Hpos; [done|].
  assert (H1 : 0 < d + brace_delta c).
  { specialize (Hpos 1%nat). simpl in Hpos.
    lia. }
  assert (Hrest : forall k, (0 < k <= length rest)%nat ->
                            0 < (d + brace_delta c) + brace_depth (take k rest)).
  { intros k Hk. specialize (Hpos (S k)). simpl in Hpos. lia. }
  simpl. unfold brace_delta in *.
  destruct (N.eqb c lbrace).
  - by apply IH.
  - destruct (N.eqb c rbrace).
    + destruct (Z.eqb_spec (d - 1) 0) as [Hz|_]; [lia|].
      apply IH. intros k Hk. specialize (Hrest k Hk). lia.
    + apply IH. intros k Hk. specialize (Hrest k Hk). lia.
Qed.

Lemma extract_block (text b : str) tr :
  first_balanced_block text b ->
  extract_first_json_block W text tr = attempt W b tr.
Proof.
  intros (pre & post & -> & Hpre & Hhd & Hbal & Hpos).
  destruct b as [|c b]; [done|]. injection Hhd as ->.
  change (pre ++ (lbrace :: b) ++ post) with (pre ++ lbrace :: (b ++ post)).
  unfold extract_first_json_block, str_find.
  rewrite find_from_first by done.
  destruct (Z.eqb_spec (0 + Z.of_nat (length pre)) (-1)) as [Hz|_]; [lia|].
  replace (Z.to_nat (0 + Z.of_nat (length pre))) with (length pre) by lia.
  rewrite drop_app_length.
  pose proof (scan_braces_block W (pre ++ lbrace :: (b ++ post))
                (0 + Z.of_nat (length pre)) (lbrace :: b) [] post tr) as H.
  simpl in H. rewrite Z.add_0_r in H. apply H; try done.
  unfold slice.
  replace (Z.to_nat (0 + Z.of_nat (length pre))) with (length pre) by lia.
  rewrite drop_app_length.
  replace (Z.to_nat _) with (length (lbrace :: b)) by (simpl; lia).
  change (lbrace :: (b ++ post)) with ((lbrace :: b) ++ post).
  by rewrite take_app_length.
Qed.

Lemma extract_never (text : str) tr :
  never_balanced text ->
  extract_first_json_block W text tr = (tr, Raise MalformedJson).
Proof.
  intros (pre & rest & -> & Hpre & Hpos).
  unfold extract_first_json_block, str_find.
  rewrite find_from_first by done.
  destruct (Z.eqb_spec (0 + Z.of_nat (length pre)) (-1)) as [Hz|_]; [lia|].
  replace (Z.to_nat (0 + Z.of_nat (length pre))) with (length pre) by lia.
  rewrite drop_app_length.
  apply scan_braces_never. intros k Hk. specialize (Hpos k Hk). lia.
Qed.

Lemma extract_absent (text : str) tr :
  lbrace ∉ text -> extract_first_json_block W text tr = (tr, Raise NoJsonFound).
Proof.
  intros H. unfold extract_first_json_block, str_find.
  by rewrite find_from_absent.
Qed.

End ExtractOutcomes.

Lemma depth_dichotomy (rest : str) :
  forall d, 0 < d ->
    (forall k, (0 < k <= length rest)%nat -> 0 < d + brace_depth (take k rest)) \/
    (exists k, (0 < k <= length rest)%nat /\ d + brace_depth (take k rest) = 0 /\
               forall j, (0 < j < k)%nat -> 0 < d + brace_depth (take j rest)).
Proof.
  induction rest as [|c rest IH]; intros d Hd.
  - left. intros k Hk. simpl in Hk. lia.
  - pose proof (brace_delta_bounds c) as Hc.
    destruct (decide (d + brace_delta c = 0)) as [Hz|Hnz].
    + right. exists 1%nat. simpl.
      split; [lia|]. split; [lia|]. intros j Hj. lia.
    + destruct (IH (d + brace_delta c)) as [Hall|(k & Hk & Hzero & Hbefore)]; [lia| |].
      * left. intros k Hk. destruct k as [|k]; [lia|]. simpl.
        destruct k as [|k]; [simpl; lia|].
        specialize (Hall (S k)). simpl in Hk. lia.
      * right. exists (S k). simpl. split; [lia|]. split; [lia|].
        intros j Hj. destruct j as [|j]; [lia|]. simpl.
        destruct j as [|j]; [simpl; lia|].
        specialize (Hbefore (S j)). lia.
Qed.

Lemma brace_cases (text : str) :
  lbrace ∉ text \/ (exists b, first_balanced_block text b) \/ never_balanced text.
Proof.
  destruct (decide (lbrace ∈ text)) as [Hin|Hnot]; [right|by left].
  destruct (elem_of_first_split _ _ Hin) as (pre & rest & -> & Hpre).
  assert (Hl : brace_delta lbrace = 1) by reflexivity.
  destruct (depth_dichotomy rest 1) as [Hall|(k & Hk & Hzero & Hbefore)]; [lia| |].
  - right. exists pre, rest. split; [done|]. split; [done|].
    intros k Hk. destruct k as [|k]; [lia|]. simpl. rewrite Hl.
    destruct k as [|k]; [simpl; lia|].
    specialize (Hall (S k)). simpl in Hk. lia.
  - left. exists (lbrace :: take k rest), pre, (drop k rest).
    split; [by simpl; rewrite take_drop|]. split; [done|]. split; [done|].
    split; [simpl; lia|].
    intros j Hj. simpl in Hj. rewrite length_take in Hj.
    destruct j as [|j]; [lia|]. simpl. rewrite Hl.
    rewrite take_take. replace (j `min` k)%nat with j by lia.
    destruct j as [|j]; [simpl; lia|].
    specialize (Hbefore (S j)). lia.
Qed.

Lemma snoc_ne {A} (l : list A) x : l ++ [x] <> l.
Proof.
  intros H. apply (f_equal length) in H. rewrite length_app in H. simpl in H. lia.
Qed.

Lemma NoJsonFound_ne_MalformedJson : NoJsonFound <> MalformedJson.
Proof. intros H. apply (f_equal (fun e => length (exn_msg e))) in H. vm_compute in H. lia. Qed.

(** C4 (amended). [extract_first_json_block] fails with [NoJsonFound]
    exactly when the text has no opening brace. When the brace depth,
    counted from the first opening brace, returns to zero, it makes
    exactly one [json.loads] call, on the first balanced block, and its
    outcome is that value or, if the call fails with [JSONDecodeError],
    [MalformedJson] (another exception of the call is passed on);
    nothing after the block is looked at. When the depth never returns to zero it
    makes no [json.loads] call and fails with [MalformedJson]. A text
    falls in exactly these three cases. *)
Theorem extract_first_json_block_outcomes (W : World) (text : str) (tr : list event) :
  (lbrace ∉ text <-> extract_first_json_block W text tr = (tr, Raise NoJsonFound)) /\
  (forall b, first_balanced_block text b ->
     extract_first_json_block W text tr =
       (tr ++ [EvJsonLoads b],
        match json_loads W b with
        | Ok v => Ok v
        | Raise e => if is_JSONDecodeError e then Raise MalformedJson else Raise e
        end)) /\
  (never_balanced text ->
     extract_first_json_block W text tr = (tr, Raise MalformedJson)) /\
  (lbrace ∉ text \/ (exists b, first_balanced_block text b) \/ never_balanced text).
Proof.
  split; [split|split; [|split]].
  - apply extract_absent.
  - intros Hres.
    destruct (brace_cases text) as [H|[[b Hb]|Hn]]; [done| |].
    + rewrite (extract_block W text b tr Hb) in Hres. unfold attempt in Hres.
      apply (f_equal fst) in Hres. simpl in Hres. by apply snoc_ne in Hres.
    + rewrite (extract_never W text tr Hn) in Hres.
      exfalso. apply NoJsonFound_ne_MalformedJson.
      apply (f_equal snd) in Hres. simpl in Hres. congruence.
  - intros b Hb. apply (extract_block W text b tr Hb).
  - apply extract_never.
  - apply brace_cases.
Qed.

(** C4, as stated, fails on a text whose braces never balance: it has an
    opening brace, yet no parse attempt is made. *)
Lemma extract_unbalanced_makes_no_attempt :
  lbrace ∈ unbalanced_text /\
  extract_first_json_block quiet_world unbalanced_text [] = ([], Raise MalformedJson) /\
  parse_attempts (extract_first_json_block quiet_world unbalanced_text []).1 = [].
Proof.
  split; [apply list_elem_of_here|]. split; reflexivity.
Qed.

Lemma prefixes_positive_spec (b : str) :
  prefixes_positive b = true ->
  forall k, (0 < k < length b)%nat -> 0 < brace_depth (take k b).
Proof.
  unfold prefixes_positive. rewrite forallb_forall. intros H k Hk.
  apply Z.ltb_lt, H, in_seq. lia.
Qed.

Lemma reply_block_is_first_balanced :
  first_balanced_block (reply_prefix ++ reply_block ++ reply_suffix) reply_block.
Proof.
  exists reply_prefix, reply_suffix. split; [done|]. split.
  - vm_compute. intros H. repeat (apply elem_of_cons in H as [H|H]; [discriminate H|]).
    by apply elem_of_nil in H.
  - split; [done|]. split; [done|]. apply prefixes_positive_spec. by vm_compute.
Qed.

Lemma extract_first_json_block_outcomes_witness :
  extract_first_json_block quiet_world (reply_prefix ++ reply_block ++ reply_suffix) []
  = ([EvJsonLoads reply_block], Ok (JObj [(lit "a", JObj [(lit "b", JInt 1)])])).
Proof.
  destruct (extract_first_json_block_outcomes quiet_world
              (reply_prefix ++ reply_block ++ reply_suffix) []) as (_ & H & _).
  rewrite (H reply_block reply_block_is_first_balanced). by vm_compute.
Defined.

(** C5 (amended). Let [b] be a serialization of [J], that is a text that
    [json.loads] maps to [J], which starts with an opening brace and
    whose brace depth, counted without regard to string literals, first
    returns to zero at its last character. For every prefix without an
    opening brace and every suffix, extraction from prefix + [b] + suffix
    returns [J]. *)
Theorem extract_round_trip (W : World) (pre b post : str) (J : json) (tr : list event) :
  lbrace ∉ pre ->
  head b = Some lbrace ->
  brace_depth b = 0 ->
  (forall k, (0 < k < length b)%nat -> 0 < brace_depth (take k b)) ->
  json_loads W b = Ok J ->
  extract_first_json_block W (pre ++ b ++ post) tr = (tr ++ [EvJsonLoads b], Ok J).
Proof.
  intros Hpre Hhd Hbal Hpos HJ.
  rewrite (extract_block W (pre ++ b ++ post) b tr).
  - unfold attempt. by rewrite HJ.
  - by exists pre, post.
Qed.

Lemma extract_round_trip_witness :
  extract_first_json_block quiet_world (reply_prefix ++ reply_block ++ reply_suffix) []
  = ([EvJsonLoads reply_block],
     Ok (JObj [(lit "a", JObj [(lit "b", JInt 1)])])).
Proof.
  apply (extract_round_trip quiet_world reply_prefix reply_block reply_suffix _ []).
  - vm_compute. intros H. repeat (apply elem_of_cons in H as [H|H]; [discriminate H|]).
    by apply elem_of_nil in H.
  - reflexivity.
  - reflexivity.
  - apply prefixes_positive_spec. vm_compute. reflexivity.
  - vm_compute. reflexivity.
Defined.

(** C5, as stated, fails in two ways: a valid object with a closing brace
    inside a string is not returned, and neither is an object that
    follows prose with balanced braces. *)
Lemma extract_round_trip_fails :
  (json_loads quiet_world brace_in_string_text = Ok (JObj [(lit "a", JStr (lit "}"))]) /\
   extract_first_json_block quiet_world brace_in_string_text []
   = ([EvJsonLoads (py "{`a`: `}")], Raise MalformedJson)) /\
  (extract_first_json_block quiet_world prose_with_braces []
   = ([EvJsonLoads (lit "{x}")], Raise MalformedJson)).
Proof. repeat split; vm_compute; reflexivity. Qed.

(** ** Relabeling *)

Lemma relabel_segment_speaker (sm : gmap str str) (seg : TranscriptionSegment) :
  speaker (relabel_segment sm seg) = relabeled sm (speaker seg).
Proof. unfold relabel_segment, relabeled. by destruct (sm !! speaker seg). Qed.

Lemma relabel_speaker_id (sm : gmap str str) (s : Speaker) :
  speaker_id (relabel_speaker sm s) = relabeled sm (speaker_id s).
Proof. unfold relabel_speaker, relabeled. by destruct (sm !! speaker_id s). Qed.

Lemma relabel_segment_frame (sm : gmap str str) (seg : TranscriptionSegment) :
  seg_start (relabel_segment sm seg) = seg_start seg /\
  seg_end (relabel_segment sm seg) = seg_end seg /\
  text (relabel_segment sm seg) = text seg /\
  confidence (relabel_segment sm seg) = confidence seg /\
  (sm !! speaker seg = None -> relabel_segment sm seg = seg).
Proof. unfold relabel_segment. by destruct (sm !! speaker seg). Qed.

Lemma relabel_speaker_frame (sm : gmap str str) (s : Speaker) :
  role (relabel_speaker sm s) = role s /\
  name (relabel_speaker sm s) = name s /\
  speaker_confidence (relabel_speaker sm s) = speaker_confidence s /\
  (sm !! speaker_id s = None -> relabel_speaker sm s = s).
Proof. unfold relabel_speaker. by destruct (sm !! speaker_id s). Qed.

Lemma relabel_empty (t : MeetingTranscript) : relabel ∅ t = t.
Proof.
  destruct t as [mid url dur sps segs created]. unfold relabel. simpl. f_equal.
  - induction sps as [|s sps IH]; [done|]. rewrite fmap_cons, IH.
    f_equal; unfold relabel_speaker; by rewrite ?lookup_empty.
  - induction segs as [|s segs IH]; [done|]. rewrite fmap_cons, IH.
    f_equal; unfold relabel_segment; by rewrite ?lookup_empty.
Qed.

Lemma apply_speaker_map_relabel (sm : gmap str str) (t : MeetingTranscript) :
  apply_speaker_map sm t = relabel sm t.
Proof.
  unfold apply_speaker_map. case_bool_decide as H; [|done].
  subst sm. by rewrite relabel_empty.
Qed.

(** C3. After the orchestrator has applied a speaker map [sm] to a
    transcript whose segment labels all occur among its speakers: the
    segments and the speakers are the same in number and order; the
    label of each is [sm[original]] if the original label is a key of
    [sm] and the original label otherwise, by one lookup in terms of the
    label before relabeling, also when values of [sm] are keys of [sm];
    everything else in a segment or speaker is unchanged, and an entry
    whose label is not a key is unchanged as a whole; every segment
    label occurs among the speakers after relabeling. *)
Theorem relabeling_consistent (sm : gmap str str) (t : MeetingTranscript) :
  (forall seg, seg ∈ segments t -> speaker seg ∈ speaker_id <$> speakers t) ->
  let t' := apply_speaker_map sm t in
  length (segments t') = length (segments t) /\
  length (speakers t') = length (speakers t) /\
  (forall i seg, segments t !! i = Some seg ->
     exists seg', segments t' !! i = Some seg' /\
       speaker seg' = relabeled sm (speaker seg) /\
       seg_start seg' = seg_start seg /\ seg_end seg' = seg_end seg /\
       text seg' = text seg /\ confidence seg' = confidence seg /\
       (sm !! speaker seg = None -> seg' = seg)) /\
  (forall i s, speakers t !! i = Some s ->
     exists s', speakers t' !! i = Some s' /\
       speaker_id s' = relabeled sm (speaker_id s) /\
       role s' = role s /\ name s' = name s /\
       speaker_confidence s' = speaker_confidence s /\
       (sm !! speaker_id s = None -> s' = s)) /\
  (forall seg', seg' ∈ segments t' -> speaker seg' ∈ speaker_id <$> speakers t') /\
  meeting_id t' = meeting_id t /\ audio_url t' = audio_url t /\
  duration t' = duration t /\ created_at t' = created_at t.
Proof.
  intros Hinv t'. subst t'. rewrite apply_speaker_map_relabel. unfold relabel. simpl.
  split; [by rewrite length_fmap|]. split; [by rewrite length_fmap|].
  split; [|split; [|split; [|done]]].
  - intros i seg Hi. exists (relabel_segment sm seg).
    split; [by rewrite list_lookup_fmap, Hi|].
    split; [apply relabel_segment_speaker|]. apply relabel_segment_frame.
  - intros i s Hi. exists (relabel_speaker sm s).
    split; [by rewrite list_lookup_fmap, Hi|].
    split; [apply relabel_speaker_id|]. apply relabel_speaker_frame.
  - intros seg' Hseg'. apply list_elem_of_fmap in Hseg' as (seg & -> & Hseg).
    rewrite relabel_segment_speaker.
    specialize (Hinv seg Hseg). apply list_elem_of_fmap in Hinv as (s & Hs & Hin).
    apply list_elem_of_fmap. exists (relabel_speaker sm s).
    split; [|by apply list_elem_of_fmap_2].
    by rewrite relabel_speaker_id, Hs.
Qed.

Lemma relabeling_consistent_witness :
  (segments (apply_speaker_map chained_map demo_transcript)
   = [mkSegment 0 5000 (lit "B") (lit "Hi I'm John") full_confidence;
      mkSegment 5000 9000 (lit "C") (lit "Thanks John, let's meet Thursday at 2pm")
        full_confidence]) /\
  (forall seg', seg' ∈ segments (apply_speaker_map chained_map demo_transcript) ->
     speaker seg' ∈ speaker_id <$> speakers (apply_speaker_map chained_map demo_transcript)).
Proof.
  split; [by vm_compute|].
  apply (relabeling_consistent chained_map demo_transcript).
  intros seg Hseg.
  repeat (apply elem_of_cons in Hseg as [->|Hseg]; [vm_compute; set_solver|]).
  by apply elem_of_nil in Hseg.
Defined.

(** ** Computations that leave the trace alone *)

Lemma silent_ret {A} (a : A) : silent (ret a).
Proof. by intros tr. Qed.

Lemma silent_raise {A} (e : exn) : silent (@raise A e).
Proof. by intros tr. Qed.

Lemma silent_lift {A} (r : result A) : silent (lift r).
Proof. by intros tr. Qed.

Lemma silent_bind {A B} (m : M A) (k : A -> M B) :
  silent m -> (forall a, silent (k a)) -> silent (bind m k).
Proof.
  intros Hm Hk tr. unfold outcome, bind. rewrite (Hm tr), (Hm []).
  destruct (outcome m) as [a|e]; [|done]. by rewrite (Hk a tr), (Hk a []).
Qed.

Lemma silent_try_except {A} (m : M A) (c : exn -> bool) (h : exn -> M A) :
  silent m -> (forall e, silent (h e)) -> silent (try_except m c h).
Proof.
  intros Hm Hh tr. unfold outcome, try_except. rewrite (Hm tr), (Hm []).
  destruct (outcome m) as [a|e]; [done|].
  destruct (c e); [|done]. by rewrite (Hh e tr), (Hh e []).
Qed.

Lemma silent_for_in {A S} (l : list A) (body : A -> S -> M S) :
  (forall x acc, silent (body x acc)) -> forall acc, silent (for_in l body acc).
Proof.
  intros Hb. induction l as [|x l IH]; intros acc; simpl.
  - apply silent_ret.
  - apply silent_bind; [apply Hb|apply IH].
Qed.

Lemma outcome_bind {A B} (m : M A) (k : A -> M B) :
  silent m ->
  outcome (bind m k) = match outcome m with Ok a => outcome (k a) | Raise e => Raise e end.
Proof. intros Hm. unfold outcome at 1, bind. rewrite (Hm []). by destruct (outcome m). Qed.

Lemma uniform_of_silent {A} (m : M A) : silent m -> uniform m.
Proof. intros Hm tr. rewrite (Hm tr), (Hm []). simpl. by rewrite app_nil_r. Qed.

Lemma uniform_bind {A B} (m : M A) (k : A -> M B) :
  uniform m -> (forall a, uniform (k a)) -> uniform (bind m k).
Proof.
  intros Hm Hk tr. unfold outcome, bind. rewrite (Hm tr), (Hm []).
  change ([] ++ (m []).1) with (m []).1.
  destruct (outcome m) as [a|e]; simpl; [|done].
  rewrite (Hk a (tr ++ _)), (Hk a (m []).1). simpl. by rewrite app_assoc.
Qed.

Lemma uniform_try_except {A} (m : M A) (c : exn -> bool) (h : exn -> M A) :
  uniform m -> (forall e, uniform (h e)) -> uniform (try_except m c h).
Proof.
  intros Hm Hh tr. unfold outcome, try_except. rewrite (Hm tr), (Hm []).
  change ([] ++ (m []).1) with (m []).1.
  destruct (outcome m) as [a|e]; simpl; [done|].
  destruct (c e); [|done].
  rewrite (Hh e (tr ++ _)), (Hh e (m []).1). simpl. by rewrite app_assoc.
Qed.

Lemma uniform_emit (e : event) : uniform (emit e).
Proof. by intros tr. Qed.

Section Uniform.
Context (W : World).

Lemma silent_validated {A} (o : option A) : silent (validated o).
Proof. destruct o; [apply silent_ret|apply silent_raise]. Qed.

Lemma silent_call_strptime v fmt : silent (call_strptime W v fmt).
Proof.
  destruct v; simpl; try apply silent_raise.
  destruct (strptime W s fmt); [apply silent_ret|apply silent_raise].
Qed.

Lemma uniform_call_json_loads s : uniform (call_json_loads W s).
Proof.
  apply uniform_bind; [apply uniform_emit|]. intros _.
  apply uniform_of_silent, silent_lift.
Qed.

Lemma uniform_scan_braces text start rest :
  forall i d, uniform (scan_braces W text start rest i d).
Proof.
  induction rest as [|c rest IH]; intros i d; simpl.
  - apply uniform_of_silent, silent_raise.
  - destruct (N.eqb c lbrace); [apply IH|].
    destruct (N.eqb c rbrace); [|apply IH].
    destruct (d - 1 =? 0); [|apply IH].
    apply uniform_try_except; [apply uniform_call_json_loads|].
    intros _. apply uniform_of_silent, silent_raise.
Qed.

Lemma uniform_extract text : uniform (extract_first_json_block W text).
Proof.
  unfold extract_first_json_block.
  destruct (str_find text lbrace =? -1).
  - apply uniform_of_silent, silent_raise.
  - apply uniform_scan_braces.
Qed.

Lemma uniform_call_ollama p s : uniform (_call_ollama W p s).
Proof.
  apply uniform_bind; [apply uniform_emit|]. intros _.
  apply uniform_of_silent, silent_lift.
Qed.

End Uniform.

(** ** The loops of [generate_meeting_minutes] *)

Section Minutes.
Context (W : World).

Lemma action_item_of_shaped (kv : list (str * json)) :
  action_item_shaped (JObj kv) = true ->
  forall acc tr, exists a,
    action_item_of W (JObj kv) acc tr = (tr, Ok (acc ++ [a])) /\
    priority a = match assoc (lit "priority") kv with
                 | Some (JStr p) => p
                 | _ => lit "medium"
                 end.
Proof.
  intros Hs acc tr. unfold action_item_shaped in Hs.
  apply andb_prop in Hs as [Hs Hprio]. apply andb_prop in Hs as [Hs Hdue].
  apply andb_prop in Hs as [Hdesc Hasg].
  unfold action_item_of, bind, lift, py_get, py_getitem, try_except, validated, ret.
  destruct (assoc (lit "description") kv) as [[]|]; try discriminate Hdesc;
  destruct (assoc (lit "assignee") kv) as [[]|]; try discriminate Hasg;
  destruct (assoc (lit "priority") kv) as [[]|]; try discriminate Hprio;
  destruct (assoc (lit "due_date") kv) as [[| | | |d| |]|]; try discriminate Hdue;
  simpl;
  try (destruct d as [|c d]; simpl; [|destruct (strptime W (c :: d) (lit "%Y-%m-%d")); simpl]);
  eexists; split; reflexivity.
Qed.

Lemma decision_of_shaped (kv : list (str * json)) :
  decision_shaped (JObj kv) = true ->
  forall acc tr, exists d, decision_of W (JObj kv) acc tr = (tr, Ok (acc ++ [d])).
Proof.
  intros Hs acc tr. unfold decision_shaped in Hs.
  apply andb_prop in Hs as [Hs Hrat]. apply andb_prop in Hs as [Htop Hdec].
  unfold decision_of, bind, lift, py_get, validated, ret.
  destruct (assoc (lit "topic") kv) as [[]|]; try discriminate Htop;
  destruct (assoc (lit "decision") kv) as [[]|]; try discriminate Hdec;
  destruct (assoc (lit "rationale") kv) as [[]|]; try discriminate Hrat;
  simpl; eexists; reflexivity.
Qed.

Lemma for_in_action_items (items : list json) :
  forallb action_item_shaped items = true ->
  forall acc tr, exists l,
    for_in items (action_item_of W) acc tr = (tr, Ok (acc ++ l)) /\
    Forall2 (fun item a =>
               forall kv, item = JObj kv ->
                 priority a = match assoc (lit "priority") kv with
                              | Some (JStr p) => p
                              | _ => lit "medium"
                              end) items l.
Proof.
  induction items as [|item items IH]; intros Hs acc tr; simpl.
  - exists []. by rewrite app_nil_r.
  - simpl in Hs. apply andb_prop in Hs as [Hi Hs].
    destruct item; try discriminate Hi.
    destruct (action_item_of_shaped kv Hi acc tr) as (a & Ha & Hp).
    destruct (IH Hs (acc ++ [a]) tr) as (l & Hl & Hall).
    exists (a :: l). unfold bind. rewrite Ha, Hl.
    split; [by rewrite <- app_assoc|].
    constructor; [|done]. by intros kv' [= <-].
Qed.

Lemma for_in_decisions (ds : list json) :
  forallb decision_shaped ds = true ->
  forall acc tr, exists l,
    for_in ds (decision_of W) acc tr = (tr, Ok (acc ++ l)) /\ length l = length ds.
Proof.
  induction ds as [|d ds IH]; intros Hs acc tr; simpl.
  - exists []. by rewrite app_nil_r.
  - simpl in Hs. apply andb_prop in Hs as [Hi Hs].
    destruct d; try discriminate Hi.
    destruct (decision_of_shaped kv Hi acc tr) as (a & Ha).
    destruct (IH Hs (acc ++ [a]) tr) as (l & Hl & Hlen).
    exists (a :: l). unfold bind. rewrite Ha, Hl.
    split; [by rewrite <- app_assoc|]. simpl. by rewrite Hlen.
Qed.

Lemma pydantic_all_str_strings (l : list json) :
  forallb is_JStr l = true -> exists ss, pydantic_all_str W l = Some ss /\ l = JStr <$> ss.
Proof.
  induction l as [|v l IH]; intros Hs; simpl.
  - by exists [].
  - simpl in Hs. apply andb_prop in Hs as [Hv Hs].
    destruct v; try discriminate Hv. destruct (IH Hs) as (ss & -> & ->).
    by exists (s :: ss).
Qed.

(** a list field that is absent, null or a list of strings passes
    [x or []] and the [List[str]] validation *)
Lemma list_field_validates (kv : list (str * json)) (k : str) :
  str_list_null_or_absent (assoc k kv) = true ->
  exists ss, pydantic_list_str W (py_or (default JNull (assoc k kv)) (JArr [])) = Some ss.
Proof.
  intros Hs. destruct (assoc k kv) as [[]|]; try discriminate Hs; simpl.
  - by exists [].
  - destruct (pydantic_all_str_strings l Hs) as (ss & Hss & ->).
    unfold py_or. destruct ss as [|s0 ss]; [by exists []|].
    exists (s0 :: ss). exact Hss.
  - by exists [].
Qed.

End Minutes.

Section MinutesOfParsedData.
Context (W : World).

Lemma timedelta_in_range (t : MeetingTranscript) :
  duration_in_range t ->
  timedelta_of_milliseconds (duration t) = Ok (Timedelta (duration t)).
Proof.
  intros [Hlo Hhi]. unfold timedelta_of_milliseconds.
  apply Z.leb_le in Hlo, Hhi. by rewrite Hlo, Hhi.
Qed.

Lemma list_field_get (shaped : json -> bool) (kv : list (str * json)) (k : str) :
  list_of_or_absent shaped (assoc k kv) = true ->
  exists l, py_get (JObj kv) k (JArr []) = Ok (JArr l) /\ forallb shaped l = true.
Proof.
  intros Hs. simpl. destruct (assoc k kv) as [[]|]; try discriminate Hs.
  - by exists l.
  - by exists [].
Qed.

Lemma summary_validates (kv : list (str * json)) :
  str_or_absent (assoc (lit "summary") kv) = true ->
  exists s, pydantic_str W (default (JStr []) (assoc (lit "summary") kv)) = Some s.
Proof.
  intros Hs. destruct (assoc (lit "summary") kv) as [[]|]; try discriminate Hs; simpl; eauto.
Qed.

(** A response of the requested shape goes through the loops and the
    validation of [MeetingMinutes]. *)
Lemma minutes_of_shaped (t : MeetingTranscript) (parsed_data : json) (tr : list event) :
  minutes_shaped parsed_data = true ->
  duration_in_range t ->
  exists m, minutes_of_parsed_data W t parsed_data tr = (tr, Ok m).
Proof.
  intros Hs Hd. destruct parsed_data as [| | | | | |kv]; try discriminate Hs.
  unfold minutes_shaped in Hs.
  apply andb_prop in Hs as [Hs Hsum]. apply andb_prop in Hs as [Hs Hns].
  apply andb_prop in Hs as [Hs Hkp]. apply andb_prop in Hs as [Hai Hds].
  destruct (list_field_get _ _ _ Hai) as (ai & Hgai & Hfai).
  destruct (list_field_get _ _ _ Hds) as (ds & Hgds & Hfds).
  destruct (for_in_action_items W ai Hfai [] tr) as (ais & Hais & _).
  destruct (for_in_decisions W ds Hfds [] tr) as (dss & Hdss & _).
  destruct (list_field_validates W kv _ Hkp) as (kps & Hkps).
  destruct (list_field_validates W kv _ Hns) as (nss & Hnss).
  destruct (summary_validates kv Hsum) as (sm & Hsm).
  unfold minutes_of_parsed_data.
  erewrite bind_ok; [|unfold lift; by rewrite Hgai].
  erewrite bind_ok; [|reflexivity].
  erewrite bind_ok; [|exact Hais].
  erewrite bind_ok; [|unfold lift; by rewrite Hgds].
  erewrite bind_ok; [|reflexivity].
  erewrite bind_ok; [|exact Hdss].
  erewrite bind_ok; [|reflexivity].
  erewrite bind_ok; [|reflexivity].
  erewrite bind_ok; [|unfold lift; by rewrite (timedelta_in_range t Hd)].
  erewrite bind_ok; [|reflexivity].
  erewrite bind_ok; [|by rewrite Hkps].
  erewrite bind_ok; [|by rewrite Hnss].
  erewrite bind_ok; [|by rewrite Hsm].
  eexists. reflexivity.
Qed.

Lemma fallback_is_shaped (response : str) :
  minutes_shaped (_fallback_parsing W response) = true.
Proof.
  unfold _fallback_parsing, minutes_shaped.
  change (assoc (lit "action_items") _) with (Some (JArr [])).
  change (assoc (lit "decisions") _) with (Some (JArr [])).
  change (assoc (lit "next_steps") _) with (Some (JArr [])).
  change (assoc (lit "key_points") _)
    with (Some (JArr (JStr <$> fallback_key_points response))).
  change (assoc (lit "summary") _) with (Some (JStr (fallback_summary W response))).
  simpl. rewrite !andb_true_r.
  induction (fallback_key_points response) as [|k l IH]; [done|]. simpl. exact IH.
Qed.

End MinutesOfParsedData.

Section GenerateMinutes.
Context (W : World).

Lemma pydantic_all_str_fmap (ss : list str) :
  pydantic_all_str W (JStr <$> ss) = Some ss.
Proof. induction ss as [|s ss IH]; [done|]. rewrite fmap_cons. simpl. by rewrite IH. Qed.

Lemma py_or_str_list (ss : list str) :
  pydantic_list_str W (py_or (JArr (JStr <$> ss)) (JArr [])) = Some ss.
Proof. destruct ss as [|s ss]; [done|]. apply (pydantic_all_str_fmap (s :: ss)). Qed.

Lemma minutes_of_fallback (t : MeetingTranscript) (response : str) (tr : list event) :
  duration_in_range t ->
  minutes_of_parsed_data W t (_fallback_parsing W response) tr
  = (tr, Ok (fallback_minutes W t response)).
Proof.
  intros Hd. unfold minutes_of_parsed_data, _fallback_parsing, py_get.
  change (assoc (lit "action_items") _) with (Some (JArr [])).
  change (assoc (lit "decisions") _) with (Some (JArr [])).
  change (assoc (lit "next_steps") _) with (Some (JArr [])).
  change (assoc (lit "key_points") _)
    with (Some (JArr (JStr <$> fallback_key_points response))).
  change (assoc (lit "summary") _) with (Some (JStr (fallback_summary W response))).
  simpl default.
  erewrite bind_ok; [|reflexivity].
  erewrite bind_ok; [|reflexivity].
  erewrite bind_ok; [|reflexivity].
  erewrite bind_ok; [|reflexivity].
  erewrite bind_ok; [|reflexivity].
  erewrite bind_ok; [|reflexivity].
  erewrite bind_ok; [|reflexivity].
  erewrite bind_ok; [|reflexivity].
  erewrite bind_ok; [|unfold lift; by rewrite (timedelta_in_range t Hd)].
  erewrite bind_ok; [|reflexivity].
  erewrite bind_ok; [|by rewrite py_or_str_list].
  erewrite bind_ok; [|reflexivity].
  erewrite bind_ok; [|reflexivity].
  reflexivity.
Qed.

Lemma generate_after_completion (t : MeetingTranscript) (response : str) (tr : list event) :
  ollama W (minutes_prompt (_prepare_transcript_text t)) minutes_system_prompt = Ok response ->
  generate_meeting_minutes W t tr
  = let tr1 := tr ++ [EvOllama (minutes_prompt (_prepare_transcript_text t))
                        minutes_system_prompt] in
    let tr2 := tr1 ++ (extract_first_json_block W response []).1 in
    minutes_of_parsed_data W t
      (match outcome (extract_first_json_block W response) with
       | Ok v => v
       | Raise _ => _fallback_parsing W response
       end) tr2.
Proof.
  intros Hllm. unfold generate_meeting_minutes.
  erewrite bind_ok; [|unfold _call_ollama, bind, emit, lift; by rewrite Hllm].
  unfold bind at 1, try_except.
  rewrite (uniform_extract W response _).
  by destruct (outcome (extract_first_json_block W response)).
Qed.

Lemma generate_completion_fails (t : MeetingTranscript) (e : exn) (tr : list event) :
  ollama W (minutes_prompt (_prepare_transcript_text t)) minutes_system_prompt = Raise e ->
  generate_meeting_minutes W t tr
  = (tr ++ [EvOllama (minutes_prompt (_prepare_transcript_text t)) minutes_system_prompt],
     Raise e).
Proof.
  intros Hllm. unfold generate_meeting_minutes.
  erewrite bind_raise; [done|]. unfold _call_ollama, bind, emit, lift. by rewrite Hllm.
Qed.

End GenerateMinutes.

(** C1 (amended). [generate_meeting_minutes] raises the exception of the
    completion call when that call fails. When the call returns a text
    and the transcript's duration fits a [timedelta], it does not raise
    if no JSON block can be extracted from the text, whatever the text:
    the minutes then come from [_fallback_parsing], with the bullet
    lines as key points and empty action items, decisions and next
    steps. It does not raise either if the extracted object has the
    shape the prompt asks for. The four list fields of the returned
    minutes are lists in every case. *)
Theorem generate_meeting_minutes_availability (W : World) (t : MeetingTranscript)
    (tr : list event) :
  (forall e,
     ollama W (minutes_prompt (_prepare_transcript_text t)) minutes_system_prompt = Raise e ->
     (generate_meeting_minutes W t tr).2 = Raise e) /\
  (forall response,
     ollama W (minutes_prompt (_prepare_transcript_text t)) minutes_system_prompt
       = Ok response ->
     duration_in_range t ->
     (forall e, outcome (extract_first_json_block W response) = Raise e ->
        (generate_meeting_minutes W t tr).2
        = Ok (mkMinutes (meeting_id t) (created_at t) (Timedelta (duration t))
                (remove_dups (speaker <$> segments t))
                (fallback_key_points response) [] [] [] (fallback_summary W response))) /\
     (forall parsed_data,
        outcome (extract_first_json_block W response) = Ok parsed_data ->
        minutes_shaped parsed_data = true ->
        exists m, (generate_meeting_minutes W t tr).2 = Ok m)).
Proof.
  split.
  - intros e Hllm. by rewrite (generate_completion_fails W t e tr Hllm).
  - intros response Hllm Hd. rewrite (generate_after_completion W t response tr Hllm).
    split.
    + intros e He. simpl. rewrite He. by rewrite (minutes_of_fallback W t response _ Hd).
    + intros parsed_data Hp Hs. simpl. rewrite Hp.
      destruct (minutes_of_shaped W t parsed_data
                  ((tr ++ [EvOllama (minutes_prompt (_prepare_transcript_text t))
                             minutes_system_prompt])
                   ++ (extract_first_json_block W response []).1) Hs Hd) as (m & Hm).
      exists m. by rewrite Hm.
Qed.

Lemma generate_meeting_minutes_availability_witness :
  exists m,
    outcome (generate_meeting_minutes (world (llm_says minutes_as_prose) audio_demo)
               demo_transcript) = Ok m /\
    key_points m = [lit "Budget was approved"; lit "Hiring is paused"] /\
    action_items m = [] /\ decisions m = [] /\ next_steps m = [] /\
    mm_summary m = lit "a short sync".
Proof.
  destruct (generate_meeting_minutes_availability
              (world (llm_says minutes_as_prose) audio_demo) demo_transcript [])
    as [_ H].
  destruct (H minutes_as_prose eq_refl) as [Hfallback _];
    [unfold duration_in_range; by vm_compute|].
  eexists. split; [apply (Hfallback NoJsonFound); by vm_compute|].
  by vm_compute.
Defined.

(** C1, as stated, fails on a well-formed JSON response whose action
    items are strings: the completion call succeeded, no fallback is
    tried, and the [AttributeError] of [item.get] reaches the caller. *)
Lemma generate_meeting_minutes_raises_on_string_items :
  ollama (world (llm_says minutes_with_string_items) audio_demo)
    (minutes_prompt (_prepare_transcript_text demo_transcript)) minutes_system_prompt
  = Ok minutes_with_string_items /\
  outcome (generate_meeting_minutes (world (llm_says minutes_with_string_items) audio_demo)
             demo_transcript)
  = Raise attribute_error.
Proof. split; by vm_compute. Qed.

(** C9 (amended). For action-item candidates of the requested shape the
    loop of [generate_meeting_minutes] builds one [ActionItem] per
    candidate, in order, and the priority of each is the candidate's
    [priority] string, whatever that string is, and ["medium"] when the
    candidate has no [priority] key: a value outside low, medium and
    high is kept, not replaced. *)
Theorem action_item_priority (W : World) (items : list json) (tr : list event) :
  forallb action_item_shaped items = true ->
  exists action_items,
    for_in items (action_item_of W) [] tr = (tr, Ok action_items) /\
    length action_items = length items /\
    forall i kv a,
      items !! i = Some (JObj kv) -> action_items !! i = Some a ->
      (forall p, assoc (lit "priority") kv = Some (JStr p) -> priority a = p) /\
      (assoc (lit "priority") kv = None -> priority a = lit "medium").
Proof.
  intros Hs. destruct (for_in_action_items W items Hs [] tr) as (l & Hl & Hall).
  exists l. split; [exact Hl|]. split; [symmetry; by eapply Forall2_length|].
  intros i kv a Hi Ha.
  pose proof (Forall2_lookup_lr _ _ _ _ _ _ Hall Hi Ha kv eq_refl) as Hp.
  split.
  - intros p Hk. by rewrite Hk in Hp.
  - intros Hk. by rewrite Hk in Hp.
Qed.

Lemma action_item_priority_witness :
  exists a,
    for_in [JObj [(lit "description", JStr (lit "Ship it"));
                  (lit "priority", JStr (lit "high"))]]
      (action_item_of quiet_world) [] []
    = ([], Ok [a]) /\ priority a = lit "high".
Proof.
  destruct (action_item_priority quiet_world
              [JObj [(lit "description", JStr (lit "Ship it"));
                     (lit "priority", JStr (lit "high"))]]
              [] eq_refl) as (l & Hl & Hlen & Hp).
  destruct l as [|a [|b l]]; try discriminate Hlen.
  exists a. split; [exact Hl|].
  by apply (Hp 0%nat _ a eq_refl eq_refl).
Defined.

(** C9, as stated, fails on a priority outside the three recognized
    values: ["urgent"] is kept. *)
Lemma unrecognized_priority_is_kept :
  exists m,
    outcome (generate_meeting_minutes (world (llm_says minutes_with_urgent_item) audio_demo)
               demo_transcript) = Ok m /\
    priority <$> action_items m = [lit "urgent"] /\
    lit "urgent" <> lit "medium".
Proof. eexists. split; [by vm_compute|]. split; [by vm_compute|]. by vm_compute. Qed.

Lemma try_except_ok {A} (m : M A) (c : exn -> bool) (h : exn -> M A) tr tr' a :
  m tr = (tr', Ok a) -> try_except m c h tr = (tr', Ok a).
Proof. intros H. unfold try_except. by rewrite H. Qed.

Lemma try_except_caught {A} (m : M A) (c : exn -> bool) (h : exn -> M A) tr tr' e r :
  m tr = (tr', Raise e) -> c e = true -> h e tr' = r -> try_except m c h tr = r.
Proof. intros H Hc <-. unfold try_except. by rewrite H, Hc. Qed.

Lemma try_except_uncaught {A} (m : M A) (c : exn -> bool) (h : exn -> M A) tr tr' e :
  m tr = (tr', Raise e) -> c e = false -> try_except m c h tr = (tr', Raise e).
Proof. intros H Hc. unfold try_except. by rewrite H, Hc. Qed.

(** ** [parse_datetime] and the candidate loop *)

Section CalendarEvents.
Context (W : World).

Lemma parse_datetime_str (s : str) (tr : list event) :
  parse_datetime W (JStr s) tr
  = (tr, match parsed_timestamp W s with
         | Some d => Ok d
         | None => Raise no_format_matches
         end).
Proof.
  unfold parse_datetime, parsed_timestamp, try_except, call_strptime, ret, raise.
  destruct (strptime W s (lit "%Y-%m-%d %H:%M")); [done|]. simpl.
  by destruct (strptime W s (lit "%Y-%m-%d %H:%M:%S")).
Qed.

Lemma parse_datetime_not_str (v : json) (tr : list event) :
  is_JStr v = false -> parse_datetime W v tr = (tr, Raise strptime_type_error).
Proof. by destruct v. Qed.

Lemma attendees_validate (kv : list (str * json)) :
  attendees_shaped (assoc (lit "attendees") kv) = true ->
  exists l, pydantic_list_str W (default (JArr []) (assoc (lit "attendees") kv)) = Some l.
Proof.
  intros Hs. destruct (assoc (lit "attendees") kv) as [[]|]; try discriminate Hs; simpl.
  - destruct (pydantic_all_str_strings W l Hs) as (ss & Hss & _). by exists ss.
  - by exists [].
Qed.

(** A candidate with string timestamps that parse is appended, with the
    parsed values, whatever their order. *)
Lemma calendar_event_of_parsed (kv : list (str * json)) (s e : str) (ds de : datetime)
    (events : list CalendarEvent) (tr : list event) :
  assoc (lit "start_time") kv = Some (JStr s) ->
  assoc (lit "end_time") kv = Some (JStr e) ->
  parsed_timestamp W s = Some ds ->
  parsed_timestamp W e = Some de ->
  event_shaped kv = true ->
  exists ev,
    calendar_event_of W (JObj kv) events tr = (tr, Ok (events ++ [ev])) /\
    start_time ev = ds /\ end_time ev = de.
Proof.
  intros Hs He Hds Hde Hshape. unfold event_shaped in Hshape.
  apply andb_prop in Hshape as [Hshape Hloc]. apply andb_prop in Hshape as [Hshape Hatt].
  apply andb_prop in Hshape as [Hsum Hdesc].
  destruct (attendees_validate kv Hatt) as (att & Hatt').
  assert (exists sm, pydantic_str W (default (JStr []) (assoc (lit "summary") kv)) = Some sm)
    as (sm & Hsm)
    by (destruct (assoc (lit "summary") kv) as [[]|]; try discriminate Hsum; simpl; eauto).
  assert (exists d, pydantic_str W (default (JStr []) (assoc (lit "description") kv)) = Some d)
    as (d & Hd)
    by (destruct (assoc (lit "description") kv) as [[]|]; try discriminate Hdesc;
        simpl; eauto).
  assert (exists l, pydantic_optional_str W (default JNull (assoc (lit "location") kv)) = Some l)
    as (l & Hl)
    by (destruct (assoc (lit "location") kv) as [[]|]; try discriminate Hloc; simpl; eauto).
  eexists. split.
  - unfold calendar_event_of. eapply try_except_ok.
    erewrite bind_ok; [|unfold lift, py_getitem; by rewrite Hs].
    erewrite bind_ok; [|by rewrite parse_datetime_str, Hds].
    erewrite bind_ok; [|unfold lift, py_getitem; by rewrite He].
    erewrite bind_ok; [|by rewrite parse_datetime_str, Hde].
    erewrite bind_ok; [|reflexivity].
    erewrite bind_ok; [|reflexivity].
    erewrite bind_ok; [|reflexivity].
    erewrite bind_ok; [|reflexivity].
    erewrite bind_ok; [|by rewrite Hsm].
    erewrite bind_ok; [|by rewrite Hd].
    erewrite bind_ok; [|by rewrite Hatt'].
    erewrite bind_ok; [|by rewrite Hl].
    reflexivity.
  - done.
Qed.

(** A candidate without a [start_time] key, or whose [start_time] is a
    string that neither format accepts, is dropped and the loop goes on. *)
Lemma calendar_event_of_dropped (kv : list (str * json)) (events : list CalendarEvent)
    (tr : list event) :
  match assoc (lit "start_time") kv with
  | None => True
  | Some (JStr s) => parsed_timestamp W s = None
  | Some _ => False
  end ->
  calendar_event_of W (JObj kv) events tr = (tr, Ok events).
Proof.
  intros Hs. unfold calendar_event_of.
  destruct (assoc (lit "start_time") kv) as [[| | | |s| |]|] eqn:Hk; try done.
  - eapply (try_except_caught _ _ _ _ _ no_format_matches); [|done|done].
    erewrite bind_ok; [|unfold lift, py_getitem; by rewrite Hk].
    erewrite bind_raise; [done|]. by rewrite parse_datetime_str, Hs.
  - eapply (try_except_caught _ _ _ _ _ (Exn KeyError (lit "start_time"))); [|done|done].
    erewrite bind_raise; [done|]. unfold lift, py_getitem. by rewrite Hk.
Qed.

(** A candidate whose [start_time] is not a string raises a [TypeError],
    which the loop does not catch. *)
Lemma calendar_event_of_type_error (kv : list (str * json)) (v : json)
    (events : list CalendarEvent) (tr : list event) :
  assoc (lit "start_time") kv = Some v ->
  is_JStr v = false ->
  calendar_event_of W (JObj kv) events tr = (tr, Raise strptime_type_error).
Proof.
  intros Hk Hv. unfold calendar_event_of.
  eapply try_except_uncaught; [|done].
  erewrite bind_ok; [|unfold lift, py_getitem; by rewrite Hk].
  erewrite bind_raise; [done|]. by rewrite parse_datetime_not_str.
Qed.

(** What one turn of the candidate loop can do. *)
Lemma calendar_event_of_cases (event_data : json) (events : list CalendarEvent)
    (tr : list event) :
  calendar_event_of W event_data events tr = (tr, Ok events) \/
  (exists ev kv s e,
     event_data = JObj kv /\
     assoc (lit "start_time") kv = Some (JStr s) /\
     assoc (lit "end_time") kv = Some (JStr e) /\
     parsed_timestamp W s = Some (start_time ev) /\
     parsed_timestamp W e = Some (end_time ev) /\
     calendar_event_of W event_data events tr = (tr, Ok (events ++ [ev]))) \/
  (exists ex, calendar_event_of W event_data events tr = (tr, Raise ex)).
Proof.
  destruct event_data as [| | | | | |kv];
    try (right; right; eexists; reflexivity).
  destruct (assoc (lit "start_time") kv) as [vs|] eqn:Hs;
    [|left; apply calendar_event_of_dropped; by rewrite Hs].
  destruct (is_JStr vs) eqn:Hvs;
    [|right; right; eexists; by apply (calendar_event_of_type_error kv vs)].
  destruct vs as [| | | |s| |]; try discriminate Hvs.
  destruct (parsed_timestamp W s) as [ds|] eqn:Hds;
    [|left; apply calendar_event_of_dropped; by rewrite Hs].
  assert (Hstart : forall (k : datetime -> M (list CalendarEvent)),
            bind (lift (py_getitem (JObj kv) (lit "start_time")))
              (fun s => bind (parse_datetime W s) k) tr = k ds tr).
  { intros k. erewrite bind_ok; [|unfold lift, py_getitem; by rewrite Hs].
    erewrite bind_ok; [done|]. by rewrite parse_datetime_str, Hds. }
  unfold calendar_event_of, try_except. rewrite Hstart.
  destruct (assoc (lit "end_time") kv) as [ve|] eqn:He;
    [|erewrite bind_raise; [|unfold lift, py_getitem; by rewrite He]; by left].
  erewrite bind_ok; [|unfold lift, py_getitem; by rewrite He].
  destruct (is_JStr ve) eqn:Hve.
  - destruct ve as [| | | |e| |]; try discriminate Hve.
    destruct (parsed_timestamp W e) as [de|] eqn:Hde;
      [|erewrite bind_raise; [|by rewrite parse_datetime_str, Hde]; by left].
    erewrite bind_ok; [|by rewrite parse_datetime_str, Hde].
    unfold bind, lift, py_get, validated, ret, raise.
    destruct (pydantic_str W (default (JStr []) (assoc (lit "summary") kv))); [|by left].
    destruct (pydantic_str W (default (JStr []) (assoc (lit "description") kv)));
      [|by left].
    destruct (pydantic_list_str W (default (JArr []) (assoc (lit "attendees") kv)));
      [|by left].
    destruct (pydantic_optional_str W (default JNull (assoc (lit "location") kv)));
      [|by left].
    right; left. eexists (mkCalendarEvent _ _ ds de _ _), kv, s, e.
    repeat split; done.
  - erewrite bind_raise; [|by rewrite (parse_datetime_not_str ve tr Hve)].
    right; right. eexists; reflexivity.
Qed.

End CalendarEvents.

Section CandidateLoop.
Context (W : World).

Lemma calendar_event_of_string_timestamps (c : json) (events : list CalendarEvent)
    (tr : list event) :
  string_timestamps c = true ->
  calendar_event_of W c events tr
  = (tr, Ok (events ++ option_list (event_of_candidate W c))).
Proof.
  intros Hc. destruct c as [| | | | | |kv]; try discriminate Hc.
  simpl in Hc. apply andb_prop in Hc as [Hstart Hend].
  unfold event_of_candidate.
  destruct (assoc (lit "start_time") kv) as [[| | | |s| |]|] eqn:Hs;
    try discriminate Hstart;
    [|rewrite app_nil_r; apply calendar_event_of_dropped; by rewrite Hs].
  destruct (parsed_timestamp W s) as [ds|] eqn:Hds.
  2:{ replace (option_list _) with (@nil CalendarEvent)
        by (by destruct (assoc (lit "end_time") kv) as [[]|]).
      rewrite app_nil_r. apply calendar_event_of_dropped. by rewrite Hs. }
  unfold calendar_event_of.
  destruct (assoc (lit "end_time") kv) as [[| | | |e| |]|] eqn:He;
    try discriminate Hend.
  - destruct (parsed_timestamp W e) as [de|] eqn:Hde.
    + destruct (pydantic_str W (default (JStr []) (assoc (lit "summary") kv)))
        as [sm|] eqn:Hsm;
      [destruct (pydantic_str W (default (JStr []) (assoc (lit "description") kv)))
         as [d|] eqn:Hd;
       [destruct (pydantic_list_str W (default (JArr []) (assoc (lit "attendees") kv)))
          as [a|] eqn:Ha;
        [destruct (pydantic_optional_str W (default JNull (assoc (lit "location") kv)))
           as [l|] eqn:Hl|]|]|].
      * eapply try_except_ok.
        erewrite bind_ok; [|unfold lift, py_getitem; by rewrite Hs].
        erewrite bind_ok; [|by rewrite parse_datetime_str, Hds].
        erewrite bind_ok; [|unfold lift, py_getitem; by rewrite He].
        erewrite bind_ok; [|by rewrite parse_datetime_str, Hde].
        do 4 (erewrite bind_ok; [|reflexivity]).
        erewrite bind_ok; [|by rewrite Hsm].
        erewrite bind_ok; [|by rewrite Hd].
        erewrite bind_ok; [|by rewrite Ha].
        erewrite bind_ok; [|by rewrite Hl].
        reflexivity.
      * eapply (try_except_caught _ _ _ _ _ validation_error);
          [|done|by rewrite app_nil_r].
        erewrite bind_ok; [|unfold lift, py_getitem; by rewrite Hs].
        erewrite bind_ok; [|by rewrite parse_datetime_str, Hds].
        erewrite bind_ok; [|unfold lift, py_getitem; by rewrite He].
        erewrite bind_ok; [|by rewrite parse_datetime_str, Hde].
        do 4 (erewrite bind_ok; [|reflexivity]).
        erewrite bind_ok; [|by rewrite Hsm].
        erewrite bind_ok; [|by rewrite Hd].
        erewrite bind_ok; [|by rewrite Ha].
        erewrite bind_raise; [done|]. by rewrite Hl.
      * eapply (try_except_caught _ _ _ _ _ validation_error);
          [|done|by rewrite app_nil_r].
        erewrite bind_ok; [|unfold lift, py_getitem; by rewrite Hs].
        erewrite bind_ok; [|by rewrite parse_datetime_str, Hds].
        erewrite bind_ok; [|unfold lift, py_getitem; by rewrite He].
        erewrite bind_ok; [|by rewrite parse_datetime_str, Hde].
        do 4 (erewrite bind_ok; [|reflexivity]).
        erewrite bind_ok; [|by rewrite Hsm].
        erewrite bind_ok; [|by rewrite Hd].
        erewrite bind_raise; [done|]. by rewrite Ha.
      * eapply (try_except_caught _ _ _ _ _ validation_error);
          [|done|by rewrite app_nil_r].
        erewrite bind_ok; [|unfold lift, py_getitem; by rewrite Hs].
        erewrite bind_ok; [|by rewrite parse_datetime_str, Hds].
        erewrite bind_ok; [|unfold lift, py_getitem; by rewrite He].
        erewrite bind_ok; [|by rewrite parse_datetime_str, Hde].
        do 4 (erewrite bind_ok; [|reflexivity]).
        erewrite bind_ok; [|by rewrite Hsm].
        erewrite bind_raise; [done|]. by rewrite Hd.
      * eapply (try_except_caught _ _ _ _ _ validation_error);
          [|done|by rewrite app_nil_r].
        erewrite bind_ok; [|unfold lift, py_getitem; by rewrite Hs].
        erewrite bind_ok; [|by rewrite parse_datetime_str, Hds].
        erewrite bind_ok; [|unfold lift, py_getitem; by rewrite He].
        erewrite bind_ok; [|by rewrite parse_datetime_str, Hde].
        do 4 (erewrite bind_ok; [|reflexivity]).
        erewrite bind_raise; [done|]. by rewrite Hsm.
    + eapply (try_except_caught _ _ _ _ _ no_format_matches);
        [|done|by rewrite app_nil_r].
      erewrite bind_ok; [|unfold lift, py_getitem; by rewrite Hs].
      erewrite bind_ok; [|by rewrite parse_datetime_str, Hds].
      erewrite bind_ok; [|unfold lift, py_getitem; by rewrite He].
      erewrite bind_raise; [done|]. by rewrite parse_datetime_str, Hde.
  - eapply (try_except_caught _ _ _ _ _ (Exn KeyError (lit "end_time")));
      [|done|by rewrite app_nil_r].
    erewrite bind_ok; [|unfold lift, py_getitem; by rewrite Hs].
    erewrite bind_ok; [|by rewrite parse_datetime_str, Hds].
    erewrite bind_raise; [done|]. unfold lift, py_getitem. by rewrite He.
Qed.

(** Candidates with string timestamps are handled one by one: each is
    appended or dropped, in input order, and the loop goes on. *)
Lemma candidate_loop_string_timestamps (cands : list json) :
  forallb string_timestamps cands = true ->
  forall events tr,
    for_in cands (calendar_event_of W) events tr
    = (tr, Ok (events ++ omap (event_of_candidate W) cands)).
Proof.
  induction cands as [|c cands IH]; intros Hs events tr; simpl.
  - by rewrite app_nil_r.
  - simpl in Hs. apply andb_prop in Hs as [Hc Hs].
    erewrite bind_ok; [|by apply calendar_event_of_string_timestamps].
    rewrite (IH Hs). destruct (event_of_candidate W c); simpl.
    + by rewrite <- app_assoc.
    + by rewrite app_nil_r.
Qed.

Lemma candidate_loop_provenance (cands : list json) :
  forall events tr tr' evs ev,
    for_in cands (calendar_event_of W) events tr = (tr', Ok evs) ->
    ev ∈ evs ->
    ev ∈ events \/
    exists kv s e,
      JObj kv ∈ cands /\
      assoc (lit "start_time") kv = Some (JStr s) /\
      assoc (lit "end_time") kv = Some (JStr e) /\
      parsed_timestamp W s = Some (start_time ev) /\
      parsed_timestamp W e = Some (end_time ev).
Proof.
  induction cands as [|c cands IH]; intros events tr tr' evs ev Hrun Hev; simpl in Hrun.
  - injection Hrun as _ <-. by left.
  - destruct (calendar_event_of_cases W c events tr)
      as [Hc|[(ev0 & kv & s & e & -> & Hs & He & Hds & Hde & Hc)|(ex & Hc)]].
    + erewrite bind_ok in Hrun; [|exact Hc].
      destruct (IH _ _ _ _ _ Hrun Hev) as [Hin|(kv & s & e & Hin & H)]; [by left|].
      right. exists kv, s, e. split; [by apply list_elem_of_further|done].
    + erewrite bind_ok in Hrun; [|exact Hc].
      destruct (IH _ _ _ _ _ Hrun Hev) as [Hin|(kv' & s' & e' & Hin & H)].
      * apply elem_of_app in Hin as [Hin|Hin]; [by left|].
        apply list_elem_of_singleton in Hin as ->.
        right. exists kv, s, e. split; [apply list_elem_of_here|done].
      * right. exists kv', s', e'. split; [by apply list_elem_of_further|done].
    + erewrite bind_raise in Hrun; [|exact Hc]. discriminate Hrun.
Qed.

End CandidateLoop.

(** C7: one valid candidate and one whose timestamps are [null]. The
    [TypeError] of [strptime] is not among the exceptions the loop
    catches, so the outer handler returns the empty list and the valid
    event is lost. With a malformed timestamp string in place of [null]
    the second candidate alone is dropped. *)
Theorem null_timestamp_discards_valid_event :
  outcome (extract_calendar_events (world (llm_says events_valid_then_null) audio_demo)
             demo_transcript None) = Ok [] /\
  outcome (extract_calendar_events (world (llm_says events_valid_then_malformed) audio_demo)
             demo_transcript None) = Ok [planning_event].
Proof. split; by vm_compute. Qed.

(** C8 (amended). Every event the candidate loop returns carries the
    parsed [start_time] and [end_time] strings of one of the candidates,
    and a candidate whose two timestamps parse and whose other fields
    validate is appended with those two values: the two are never
    compared, so a start that is not before the end is kept. *)
Theorem events_carry_parsed_timestamps (W : World) :
  (forall cands tr tr' evs ev,
     for_in cands (calendar_event_of W) [] tr = (tr', Ok evs) ->
     ev ∈ evs ->
     exists kv s e,
       JObj kv ∈ cands /\
       assoc (lit "start_time") kv = Some (JStr s) /\
       assoc (lit "end_time") kv = Some (JStr e) /\
       parsed_timestamp W s = Some (start_time ev) /\
       parsed_timestamp W e = Some (end_time ev)) /\
  (forall kv s e ds de events tr,
     assoc (lit "start_time") kv = Some (JStr s) ->
     assoc (lit "end_time") kv = Some (JStr e) ->
     parsed_timestamp W s = Some ds ->
     parsed_timestamp W e = Some de ->
     event_shaped kv = true ->
     exists ev,
       calendar_event_of W (JObj kv) events tr = (tr, Ok (events ++ [ev])) /\
       start_time ev = ds /\ end_time ev = de).
Proof.
  split.
  - intros cands tr tr' evs ev Hrun Hev.
    destruct (candidate_loop_provenance W cands [] tr tr' evs ev Hrun Hev) as [Hin|H];
      [by apply elem_of_nil in Hin|done].
  - intros kv s e ds de events tr. apply calendar_event_of_parsed.
Qed.

Lemma events_carry_parsed_timestamps_witness :
  exists ev,
    calendar_event_of quiet_world (JObj reversed_candidate) [] [] = ([], Ok [ev]) /\
    start_time ev = Datetime 2024 3 2 10 0 0 /\ end_time ev = Datetime 2024 3 1 9 0 0.
Proof.
  destruct (events_carry_parsed_timestamps quiet_world) as [_ H].
  apply (H reversed_candidate (lit "2024-03-02 10:00") (lit "2024-03-01 09:00")
           (Datetime 2024 3 2 10 0 0) (Datetime 2024 3 1 9 0 0) [] []);
    by vm_compute.
Defined.

(** C8, as stated, fails: a candidate that ends the day before it starts
    is returned. *)
Lemma reversed_event_is_returned :
  exists ev,
    outcome (extract_calendar_events (world (llm_says events_reversed) audio_demo)
               demo_transcript None) = Ok [ev] /\
    datetime_ltb (start_time ev) (end_time ev) = false.
Proof. eexists. split; by vm_compute. Qed.

(** ** The entry points *)

Lemma apply_speaker_map_empty (t : MeetingTranscript) : apply_speaker_map ∅ t = t.
Proof. unfold apply_speaker_map. by rewrite bool_decide_eq_true_2. Qed.

Section EntryPoints.
Context (W : World).

(** one step of an entry point: name the trace and the result of a call *)
Ltac run_call m :=
  let tr' := fresh "tr" in
  let r := fresh "r" in
  let H := fresh "Hcall" in
  match goal with
  | |- context [m ?tr] => destruct (m tr) as [tr' [r|r]] eqn:H; simpl
  end.

Ltac unfold_entry :=
  unfold entry_point_contract, return_result, agent_try, agent_bind, call, assign,
    completed, failed, agent_ret, agent_bind, call, assign, bind, call_time,
    call_process_audio_file, emit, lift, new_result; simpl.

Ltac finish_entry :=
  eexists _, _; split; [reflexivity|]; simpl;
  repeat split; eauto; try congruence; try discriminate;
  try (intros ? [=]; subst; eauto).

Lemma generate_transcript_only_contract audio_path meeting_id tr :
  entry_point_contract (generate_transcript_only W audio_path meeting_id)
    (process_audio_file W audio_path (meeting_id_or_fresh W meeting_id)) tr.
Proof.
  unfold generate_transcript_only. unfold_entry.
  destruct (process_audio_file W audio_path (meeting_id_or_fresh W meeting_id))
    as [t|e]; simpl.
  - finish_entry. exists ∅. by rewrite apply_speaker_map_empty.
  - finish_entry.
Qed.

Ltac step :=
  match goal with
  | |- context [infer_speaker_names W ?t ?tr] =>
      destruct (infer_speaker_names W t tr) as [? [?|?]] eqn:?; simpl
  | |- context [generate_meeting_minutes W ?t ?tr] =>
      destruct (generate_meeting_minutes W t tr) as [? [?|?]] eqn:?; simpl
  | |- context [extract_calendar_events W ?t ?m ?tr] =>
      destruct (extract_calendar_events W t m tr) as [? [[|? ?]|?]] eqn:?; simpl
  | |- context [create_events W ?l ?tr] =>
      destruct (create_events W l tr) as [? [?|?]] eqn:?; simpl
  end.

Lemma generate_minutes_only_contract audio_path meeting_id tr :
  entry_point_contract (generate_minutes_only W audio_path meeting_id)
    (process_audio_file W audio_path (meeting_id_or_fresh W meeting_id)) tr.
Proof.
  unfold generate_minutes_only. unfold_entry.
  destruct (process_audio_file W audio_path (meeting_id_or_fresh W meeting_id))
    as [t|e]; simpl; repeat step; finish_entry;
    exists ∅; by rewrite apply_speaker_map_empty.
Qed.

Lemma extract_events_only_contract audio_path meeting_id tr :
  entry_point_contract (extract_events_only W audio_path meeting_id)
    (process_audio_file W audio_path (meeting_id_or_fresh W meeting_id)) tr.
Proof.
  unfold extract_events_only. unfold_entry.
  destruct (process_audio_file W audio_path (meeting_id_or_fresh W meeting_id))
    as [t|e]; simpl; repeat step; finish_entry;
    exists ∅; by rewrite apply_speaker_map_empty.
Qed.

(** The handler shared by the four entry points: whatever the [try]
    block had assigned when it raised is still there afterwards. *)
Lemma failure_keeps_artifacts (body : Agent unit) (start_time : Z)
    (r0 r1 : ProcessingResult) (tr tr1 : list event) (e : exn) :
  body r0 tr = (r1, tr1, Raise e) ->
  exists r2,
    agent_try body is_Exception (failed W start_time) r0 tr = (r2, tr1 ++ [EvTime], Ok tt) /\
    pr_status r2 = FAILED /\ error_message r2 = Some (exn_msg e) /\
    is_Some (processing_time r2) /\
    transcript r2 = transcript r1 /\ minutes r2 = minutes r1 /\
    calendar_events r2 = calendar_events r1 /\ pr_meeting_id r2 = pr_meeting_id r1.
Proof.
  intros Hbody. unfold agent_try. rewrite Hbody. simpl.
  unfold failed, agent_bind, assign, call, call_time. simpl.
  eexists. split; [reflexivity|]. simpl. repeat split; eauto.
Qed.

(** In the full pipeline the attached transcript is the transcription
    output relabeled with the mapping [infer_speaker_names] returned. *)
Lemma process_meeting_transcript audio_path meeting_id tr t :
  process_audio_file W audio_path (meeting_id_or_fresh W meeting_id) = Ok t ->
  exists r tr',
    process_meeting W audio_path meeting_id tr = (tr', Ok r) /\
    transcript r
    = Some match (infer_speaker_names W t
                    ((tr ++ [EvTime]) ++
                     [EvTranscribe audio_path (meeting_id_or_fresh W meeting_id)])).2 with
           | Ok speaker_map => apply_speaker_map speaker_map t
           | Raise _ => t
           end.
Proof.
  intros Haudio. unfold process_meeting. unfold_entry. rewrite Haudio. simpl.
  repeat step; eexists _, _; (split; [reflexivity|]); reflexivity.
Qed.

Lemma process_meeting_contract audio_path meeting_id tr :
  entry_point_contract (process_meeting W audio_path meeting_id)
    (process_audio_file W audio_path (meeting_id_or_fresh W meeting_id)) tr.
Proof.
  unfold process_meeting. unfold_entry.
  destruct (process_audio_file W audio_path (meeting_id_or_fresh W meeting_id))
    as [t|e]; simpl; repeat step; finish_entry;
    try (exists ∅; by rewrite apply_speaker_map_empty).
Qed.

End EntryPoints.

(** C2. Each of the four entry points returns a [ProcessingResult] and
    raises nothing, whatever the transcription, the model and the
    calendar do. The result's status is completed or failed, its
    processing time is set, a failed result has an error message, a
    transcript that was produced is attached to the result also when a
    later stage fails (after relabeling with some speaker map in the
    full pipeline, as transcribed otherwise), and when the transcription
    itself raises the result is failed with that exception's message and
    no transcript, minutes or events. The handler the four share keeps
    the transcript, minutes and events that were assigned before the
    exception. *)
Theorem entry_points_never_raise (W : World) (audio_path : str) (meeting_id : option str)
    (tr : list event) :
  entry_point_contract (process_meeting W audio_path meeting_id)
    (process_audio_file W audio_path (meeting_id_or_fresh W meeting_id)) tr /\
  entry_point_contract (generate_minutes_only W audio_path meeting_id)
    (process_audio_file W audio_path (meeting_id_or_fresh W meeting_id)) tr /\
  entry_point_contract (extract_events_only W audio_path meeting_id)
    (process_audio_file W audio_path (meeting_id_or_fresh W meeting_id)) tr /\
  entry_point_contract (generate_transcript_only W audio_path meeting_id)
    (process_audio_file W audio_path (meeting_id_or_fresh W meeting_id)) tr /\
  (forall (body : Agent unit) start_time r0 r1 tr1 e,
     body r0 tr = (r1, tr1, Raise e) ->
     exists r2 tr2,
       agent_try body is_Exception (failed W start_time) r0 tr = (r2, tr2, Ok tt) /\
       pr_status r2 = FAILED /\ error_message r2 = Some (exn_msg e) /\
       is_Some (processing_time r2) /\
       transcript r2 = transcript r1 /\ minutes r2 = minutes r1 /\
       calendar_events r2 = calendar_events r1).
Proof.
  split; [apply process_meeting_contract|].
  split; [apply generate_minutes_only_contract|].
  split; [apply extract_events_only_contract|].
  split; [apply generate_transcript_only_contract|].
  intros body start_time r0 r1 tr1 e Hbody.
  destruct (failure_keeps_artifacts W body start_time r0 r1 tr tr1 e Hbody)
    as (r2 & Hrun & Hst & Hmsg & Htime & Ht & Hm & Hev & _).
  by exists r2, (tr1 ++ [EvTime]).
Qed.

Lemma entry_points_never_raise_witness :
  entry_point_contract
    (generate_minutes_only world_failing_minutes (lit "demo_meeting.wav") None)
    (Ok demo_transcript) [].
Proof.
  destruct (entry_points_never_raise world_failing_minutes (lit "demo_meeting.wav")
              None []) as (_ & H & _).
  exact H.
Defined.

(** The scenario of the specification: minutes generation raises after
    the transcript was produced. *)
Example transcript_survives_failed_minutes :
  exists r,
    outcome (generate_minutes_only world_failing_minutes (lit "demo_meeting.wav") None)
    = Ok r /\
    pr_status r = FAILED /\ transcript r = Some demo_transcript /\ minutes r = None /\
    error_message r = Some (exn_msg attribute_error) /\ processing_time r = Some 4.
Proof. eexists. split; [by vm_compute|]. repeat split. Qed.

(** ** Which completion requests an entry point sends *)

Lemma llm_calls_app (a b : list event) : llm_calls (a ++ b) = llm_calls a ++ llm_calls b.
Proof. unfold llm_calls. apply omap_app. Qed.

Section Silent.
Context (W : World).

Ltac solve_silent :=
  repeat first
    [ apply silent_ret | apply silent_raise | apply silent_lift
    | apply silent_validated | apply silent_call_strptime
    | apply silent_bind; [|intros ?]
    | apply silent_try_except; [|intros ?]
    | match goal with |- silent (if ?b then _ else _) => destruct b end ].

Lemma silent_action_item_of item acc : silent (action_item_of W item acc).
Proof. unfold action_item_of. solve_silent. Qed.

Lemma silent_decision_of d acc : silent (decision_of W d acc).
Proof. unfold decision_of. solve_silent. Qed.

Lemma silent_parse_datetime v : silent (parse_datetime W v).
Proof. unfold parse_datetime. solve_silent. Qed.

Lemma silent_calendar_event_of c acc : silent (calendar_event_of W c acc).
Proof.
  unfold calendar_event_of.
  repeat first
    [ apply silent_parse_datetime | apply silent_ret | apply silent_lift
    | apply silent_validated
    | apply silent_bind; [|intros ?]
    | apply silent_try_except; [|intros ?] ].
Qed.

Lemma silent_minutes_of_parsed_data t parsed : silent (minutes_of_parsed_data W t parsed).
Proof.
  unfold minutes_of_parsed_data.
  repeat first
    [ apply silent_for_in; intros ? ?; first [apply silent_action_item_of
                                              |apply silent_decision_of]
    | apply silent_ret | apply silent_lift | apply silent_validated
    | apply silent_bind; [|intros ?] ].
Qed.

Lemma silent_events_of_parsed_data parsed : silent (events_of_parsed_data W parsed).
Proof.
  unfold events_of_parsed_data.
  repeat first
    [ apply silent_for_in; intros ? ?; apply silent_calendar_event_of
    | apply silent_lift
    | apply silent_bind; [|intros ?] ].
Qed.

Lemma llm_calls_extract text : llm_calls (extract_first_json_block W text []).1 = [].
Proof.
  destruct (brace_cases text) as [H|[[b Hb]|Hn]].
  - by rewrite (extract_absent W text [] H).
  - by rewrite (extract_block W text b [] Hb).
  - by rewrite (extract_never W text [] Hn).
Qed.

Lemma generate_meeting_minutes_llm_calls t tr :
  llm_calls (generate_meeting_minutes W t tr).1
  = llm_calls tr ++ [(minutes_prompt (_prepare_transcript_text t), minutes_system_prompt)].
Proof.
  unfold generate_meeting_minutes, _call_ollama, bind at 1 2, emit, lift.
  destruct (ollama W _ _) as [response|e]; simpl; [|by rewrite llm_calls_app].
  unfold bind, try_except. rewrite (uniform_extract W response _).
  destruct (outcome (extract_first_json_block W response)) as [v|e]; simpl;
    rewrite silent_minutes_of_parsed_data; simpl;
    by rewrite !llm_calls_app, llm_calls_extract, app_nil_r.
Qed.

Lemma extract_calendar_events_llm_calls t m tr :
  llm_calls (extract_calendar_events W t m tr).1
  = llm_calls tr ++ [(events_prompt (_prepare_transcript_text t),
                      events_system_prompt (today_str W) (time_str W))].
Proof.
  unfold extract_calendar_events, try_except at 1, _call_ollama, bind at 1 2, emit, lift.
  destruct (ollama W _ _) as [response|e]; simpl; [|by rewrite llm_calls_app].
  unfold bind at 1, try_except, bind at 1. rewrite (uniform_extract W response _).
  destruct (outcome (extract_first_json_block W response)) as [v|e]; simpl.
  - rewrite silent_events_of_parsed_data.
    destruct (outcome (events_of_parsed_data W v)); simpl;
      by rewrite !llm_calls_app, llm_calls_extract, app_nil_r.
  - by rewrite !llm_calls_app, llm_calls_extract, app_nil_r.
Qed.

End Silent.

Section SingleStage.
Context (W : World).

Lemma create_events_llm_calls (events : list CalendarEvent) (tr : list event) :
  llm_calls (create_events W events tr).1 = llm_calls tr.
Proof.
  unfold create_events.
  set (body := fun (ev : CalendarEvent) (created_events : list str) => _).
  assert (Hloop : forall created tr0,
            llm_calls (for_in events body created tr0).1 = llm_calls tr0);
    [|apply Hloop].
  induction events as [|ev events IH]; intros created tr0; simpl; [done|].
  unfold bind at 1. unfold body at 1, try_except, bind, emit, lift.
  destruct (create_event W ev) as [link|e]; simpl;
    rewrite IH, llm_calls_app; simpl; by rewrite app_nil_r.
Qed.

Lemma generate_minutes_only_requests audio_path meeting_id tr t :
  process_audio_file W audio_path (meeting_id_or_fresh W meeting_id) = Ok t ->
  exists r tr',
    generate_minutes_only W audio_path meeting_id tr = (tr', Ok r) /\
    transcript r = Some t /\
    llm_calls tr'
    = llm_calls tr ++ [(minutes_prompt (_prepare_transcript_text t), minutes_system_prompt)].
Proof.
  intros Haudio. unfold generate_minutes_only.
  unfold return_result, agent_try, agent_bind, call, assign, completed, failed,
    agent_bind, call, assign, bind, call_time, call_process_audio_file, emit, lift,
    new_result. simpl. rewrite Haudio. simpl.
  pose proof (generate_meeting_minutes_llm_calls W t
                ((tr ++ [EvTime]) ++
                 [EvTranscribe audio_path (meeting_id_or_fresh W meeting_id)])) as Hcalls.
  destruct (generate_meeting_minutes W t _) as [tr1 [m|e]]; simpl in *;
    eexists _, _; (split; [reflexivity|]); simpl; (split; [done|]);
    rewrite llm_calls_app, Hcalls, !llm_calls_app; simpl; by rewrite !app_nil_r.
Qed.

Lemma extract_events_only_requests audio_path meeting_id tr t :
  process_audio_file W audio_path (meeting_id_or_fresh W meeting_id) = Ok t ->
  exists r tr',
    extract_events_only W audio_path meeting_id tr = (tr', Ok r) /\
    transcript r = Some t /\
    llm_calls tr'
    = llm_calls tr ++ [(events_prompt (_prepare_transcript_text t),
                        events_system_prompt (today_str W) (time_str W))].
Proof.
  intros Haudio. unfold extract_events_only.
  unfold return_result, agent_try, agent_bind, call, assign, completed, failed,
    agent_ret, agent_bind, call, assign, bind, call_time, call_process_audio_file,
    emit, lift, new_result. simpl. rewrite Haudio. simpl.
  pose proof (extract_calendar_events_llm_calls W t None
                ((tr ++ [EvTime]) ++
                 [EvTranscribe audio_path (meeting_id_or_fresh W meeting_id)])) as Hcalls.
  destruct (extract_calendar_events W t None _) as [tr1 [[|ev evs]|e]]; simpl in *.
  - eexists _, _; (split; [reflexivity|]); simpl; (split; [done|]).
    rewrite llm_calls_app, Hcalls, !llm_calls_app; simpl; by rewrite !app_nil_r.
  - pose proof (create_events_llm_calls (ev :: evs) tr1) as Hcreate.
    destruct (create_events W (ev :: evs) tr1) as [tr2 [links|e]]; simpl in *;
      eexists _, _; (split; [reflexivity|]); simpl; (split; [done|]);
      rewrite llm_calls_app, Hcreate, Hcalls, !llm_calls_app; simpl;
      by rewrite !app_nil_r.
  - eexists _, _; (split; [reflexivity|]); simpl; (split; [done|]).
    rewrite llm_calls_app, Hcalls, !llm_calls_app; simpl; by rewrite !app_nil_r.
Qed.

End SingleStage.

(** C10. In a run of [generate_minutes_only] or of [extract_events_only]
    whose transcription succeeds, the transcript attached to the result
    is the transcription output itself, and the run sends exactly one
    completion request: the minutes prompt, respectively the events
    prompt, built from that same transcript. No speaker-name request is
    sent and no label is changed. *)
Theorem single_stage_runs_keep_labels (W : World) (audio_path : str)
    (meeting_id : option str) (tr : list event) (t : MeetingTranscript) :
  process_audio_file W audio_path (meeting_id_or_fresh W meeting_id) = Ok t ->
  (exists r tr',
     generate_minutes_only W audio_path meeting_id tr = (tr', Ok r) /\
     transcript r = Some t /\
     llm_calls tr'
     = llm_calls tr ++ [(minutes_prompt (_prepare_transcript_text t),
                         minutes_system_prompt)]) /\
  (exists r tr',
     extract_events_only W audio_path meeting_id tr = (tr', Ok r) /\
     transcript r = Some t /\
     llm_calls tr'
     = llm_calls tr ++ [(events_prompt (_prepare_transcript_text t),
                         events_system_prompt (today_str W) (time_str W))]).
Proof.
  intros Haudio. split.
  - by apply generate_minutes_only_requests.
  - by apply extract_events_only_requests.
Qed.

Lemma single_stage_runs_keep_labels_witness :
  exists r tr',
    generate_minutes_only scenario_world (lit "demo_meeting.wav") None [] = (tr', Ok r) /\
    transcript r = Some demo_transcript /\
    llm_calls tr'
    = [(minutes_prompt (_prepare_transcript_text demo_transcript), minutes_system_prompt)].
Proof.
  destruct (single_stage_runs_keep_labels scenario_world (lit "demo_meeting.wav") None []
              demo_transcript eq_refl) as [(r & tr' & Hrun & Ht & Hcalls) _].
  exists r, tr'. split; [exact Hrun|]. split; [exact Ht|exact Hcalls].
Defined.

(** The full pipeline, by contrast, asks for speaker names first and
    relabels: the end-to-end scenario of the specification. *)
Example process_meeting_relabels :
  exists r tr',
    process_meeting scenario_world (lit "demo_meeting.wav") None [] = (tr', Ok r) /\
    pr_status r = COMPLETED /\
    speaker_id <$> default [] (speakers <$> transcript r) = [lit "John"; lit "B"] /\
    speaker <$> default [] (segments <$> transcript r) = [lit "John"; lit "B"] /\
    calendar_events r = [planning_event] /\
    snd <$> llm_calls tr'
    = [names_system_prompt; minutes_system_prompt;
       events_system_prompt (today_str scenario_world) (time_str scenario_world)].
Proof. eexists _, _. split; [by vm_compute|]. repeat split; by vm_compute. Qed.

(** ** [infer_speaker_names] *)

Section InferSpeakerNames.
Context (W : World).

Lemma validate_mapping_fold (kv : list (str * json)) :
  NoDup kv.*1 ->
  forall (m0 : gmap str str) (label : str),
    foldl (fun validated_mapping p =>
             match snd p with
             | JStr inferred_name => <[fst p := inferred_name]> validated_mapping
             | _ => validated_mapping
             end) m0 kv !! label
    = match string_entry kv label with Some n => Some n | None => m0 !! label end.
Proof.
  unfold string_entry.
  induction kv as [|[k v] kv IH]; intros Hnd m0 label; simpl; [done|].
  apply NoDup_cons in Hnd as [Hk Hnd]. rewrite (IH Hnd).
  case_bool_decide as Hkl.
  - subst k.
    assert (assoc label kv = None) as ->.
    { clear -Hk. induction kv as [|[k' v'] kv IH]; simpl; [done|].
      simpl in Hk. apply not_elem_of_cons in Hk as [Hne Hk].
      rewrite bool_decide_eq_false_2 by congruence. by apply IH. }
    destruct v; simpl; try done. by rewrite lookup_insert_eq.
  - destruct (assoc label kv) as [[]|]; try done;
      destruct v; simpl; try done; by rewrite lookup_insert_ne.
Qed.

(** The validated mapping has exactly the entries of the model's mapping
    whose value is a string. *)
Lemma validate_mapping_lookup (kv : list (str * json)) (label : str) :
  NoDup kv.*1 -> validate_mapping kv !! label = string_entry kv label.
Proof.
  intros Hnd. unfold validate_mapping. rewrite (validate_mapping_fold kv Hnd).
  rewrite lookup_empty. by destruct (string_entry kv label).
Qed.

(** When the completion call returns a text, nothing is raised. *)
Lemma infer_speaker_names_on_text (t : MeetingTranscript) (response : str)
    (tr : list event) :
  ollama W (names_prompt (names_transcript_text t)) names_system_prompt = Ok response ->
  exists tr',
    infer_speaker_names W t tr
    = (tr', Ok match outcome (extract_first_json_block W response) with
               | Ok (JObj kv) => validate_mapping kv
               | _ => ∅
               end).
Proof.
  intros Hllm. unfold infer_speaker_names.
  unfold try_except at 1, bind at 1, _call_ollama, bind at 1, emit, lift.
  rewrite Hllm. simpl. unfold try_except, bind.
  rewrite (uniform_extract W response _).
  destruct (outcome (extract_first_json_block W response)) as [[]|e]; simpl;
    eexists; reflexivity.
Qed.

(** When the completion call raises, the handler reads [response], which
    was never bound, and its [UnboundLocalError] reaches the caller. *)
Lemma infer_speaker_names_on_failure (t : MeetingTranscript) (e : exn) (tr : list event) :
  ollama W (names_prompt (names_transcript_text t)) names_system_prompt = Raise e ->
  infer_speaker_names W t tr
  = (tr ++ [EvOllama (names_prompt (names_transcript_text t)) names_system_prompt],
     Raise unbound_response).
Proof.
  intros Hllm. unfold infer_speaker_names.
  unfold try_except at 1, bind at 1, _call_ollama, bind at 1, emit, lift.
  by rewrite Hllm.
Qed.

End InferSpeakerNames.

(** C6: the completion call raises because Ollama is not running.
    [infer_speaker_names] does not return an empty mapping: it raises
    [UnboundLocalError] from its own handler. In the full pipeline the
    run then ends as failed, with the transcript attached. When the
    model answers, a mapping is returned with the string entries only. *)
Theorem infer_speaker_names_raises_when_ollama_is_down :
  outcome (infer_speaker_names (world llm_down audio_demo) demo_transcript)
  = Raise unbound_response /\
  (exists r,
     outcome (process_meeting (world llm_down audio_demo) (lit "demo_meeting.wav") None)
     = Ok r /\
     pr_status r = FAILED /\ transcript r = Some demo_transcript /\
     error_message r = Some (exn_msg unbound_response)) /\
  outcome (infer_speaker_names scenario_world demo_transcript)
  = Ok (<[lit "A" := lit "John"]> ∅).
Proof.
  split; [by vm_compute|]. split; [|by vm_compute].
  eexists. split; [by vm_compute|]. repeat split.
Qed.

(** * Further properties of the pipeline *)

(** ** Inverting a sequence of steps *)

Lemma bind_ok_inv {A B} (m : M A) (k : A -> M B) tr tr' b :
  bind m k tr = (tr', Ok b) ->
  exists a tr1, m tr = (tr1, Ok a) /\ k a tr1 = (tr', Ok b).
Proof.
  unfold bind. destruct (m tr) as [tr1 [a|e]]; [|discriminate].
  intros H. by exists a, tr1.
Qed.

Lemma lift_ok_inv {A} (r : result A) tr tr' a :
  lift r tr = (tr', Ok a) -> r = Ok a /\ tr' = tr.
Proof. unfold lift. by intros [= <- ->]. Qed.

Lemma validated_ok_inv {A} (o : option A) tr tr' a :
  validated o tr = (tr', Ok a) -> o = Some a /\ tr' = tr.
Proof. destruct o; [|discriminate]. by intros [= <- ->]. Qed.

(** ** [create_events] *)

(** the loop of [create_events], from any list of links created so far *)
Lemma create_events_loop (W : World) (events : list CalendarEvent) :
  forall created tr,
    for_in events
      (fun ev created_events =>
         try_except
           (created_event <- (emit (EvCreateEvent ev) ;;; lift (create_event W ev)) ;;
            ret (created_events ++ [created_event]))
           is_Exception (fun _ => ret created_events))
      created tr
    = (tr ++ (EvCreateEvent <$> events), Ok (created ++ omap (created_link W) events)).
Proof.
  induction events as [|ev events IH]; intros created tr; simpl.
  - by rewrite !app_nil_r.
  - unfold bind at 1. unfold try_except, bind, emit, lift, created_link.
    destruct (create_event W ev) as [link|e]; simpl; rewrite IH;
      by rewrite <- !app_assoc.
Qed.

Lemma create_events_run (W : World) (events : list CalendarEvent) (tr : list event) :
  create_events W events tr
  = (tr ++ (EvCreateEvent <$> events), Ok (omap (created_link W) events)).
Proof. unfold create_events. by rewrite create_events_loop. Qed.

(** X1. Every event is submitted once, in order; the links of the accepted
    ones are returned, in order; a rejected event stops nothing. *)
Theorem create_events_isolates_failures (W : World) (events : list CalendarEvent)
    (tr : list event) :
  create_events W events tr
  = (tr ++ (EvCreateEvent <$> events), Ok (omap (created_link W) events)).
Proof.
  unfold create_events. rewrite create_events_loop. by rewrite app_nil_l.
Qed.

(** ** [extract_calendar_events] *)

Section ExtractCalendarEvents.
Context (W : World).

Lemma uniform_events_of_parsed_data parsed : uniform (events_of_parsed_data W parsed).
Proof. apply uniform_of_silent, silent_events_of_parsed_data. Qed.

Lemma uniform_extract_calendar_events t m : uniform (extract_calendar_events W t m).
Proof.
  unfold extract_calendar_events.
  apply uniform_try_except; [|intros _; apply uniform_of_silent, silent_ret].
  apply uniform_bind; [apply uniform_call_ollama|]. intros response.
  apply uniform_bind.
  - apply uniform_try_except; [|intros _; apply uniform_of_silent, silent_ret].
    apply uniform_bind; [apply uniform_extract|].
    intros v. apply uniform_of_silent, silent_ret.
  - intros [v|]; [apply uniform_events_of_parsed_data|apply uniform_of_silent, silent_ret].
Qed.

(** what [extract_calendar_events] returns, by stage *)
Lemma extract_calendar_events_outcome t m :
  outcome (extract_calendar_events W t m)
  = Ok match ollama W (events_prompt (_prepare_transcript_text t))
               (events_system_prompt (today_str W) (time_str W)) with
       | Raise _ => []
       | Ok response =>
           match outcome (extract_first_json_block W response) with
           | Raise _ => []
           | Ok parsed_data =>
               match outcome (events_of_parsed_data W parsed_data) with
               | Ok evs => evs
               | Raise _ => []
               end
           end
       end.
Proof.
  unfold outcome at 1, extract_calendar_events, try_except at 1, _call_ollama,
    bind at 1 2, emit, lift.
  destruct (ollama W _ _) as [response|e]; simpl; [|done].
  unfold bind at 1, try_except, bind at 1.
  rewrite (uniform_extract W response _).
  destruct (outcome (extract_first_json_block W response)) as [v|e]; simpl; [|done].
  rewrite silent_events_of_parsed_data. simpl.
  by destruct (outcome (events_of_parsed_data W v)).
Qed.

End ExtractCalendarEvents.

(** X2. [extract_calendar_events] never raises, whatever the transcript, the
    model and the libraries do; it returns the empty list when the
    completion call raises, when no JSON block can be extracted from the
    response, and when the candidate loop raises. *)
Theorem extract_calendar_events_never_raises (W : World) (t : MeetingTranscript)
    (m : option MeetingMinutes) (tr : list event) :
  exists evs,
    (extract_calendar_events W t m tr).2 = Ok evs /\
    (forall e,
       ollama W (events_prompt (_prepare_transcript_text t))
         (events_system_prompt (today_str W) (time_str W)) = Raise e -> evs = []) /\
    (forall response e,
       ollama W (events_prompt (_prepare_transcript_text t))
         (events_system_prompt (today_str W) (time_str W)) = Ok response ->
       outcome (extract_first_json_block W response) = Raise e -> evs = []) /\
    (forall response parsed_data e,
       ollama W (events_prompt (_prepare_transcript_text t))
         (events_system_prompt (today_str W) (time_str W)) = Ok response ->
       outcome (extract_first_json_block W response) = Ok parsed_data ->
       outcome (events_of_parsed_data W parsed_data) = Raise e -> evs = []).
Proof.
  rewrite (uniform_extract_calendar_events W t m tr). simpl.
  rewrite extract_calendar_events_outcome. eexists. split; [reflexivity|].
  split; [|split].
  - intros e He. by rewrite He.
  - intros response e Hr He. by rewrite Hr, He.
  - intros response v e Hr Hv He. by rewrite Hr, Hv, He.
Qed.

(** X3. When the response holds an object whose [events] are candidates with
    string timestamps, the events returned are those of the candidates
    that parse and validate, in the order of the response; the others
    are dropped one by one. *)
Theorem extract_calendar_events_keeps_order (W : World) (t : MeetingTranscript)
    (m : option MeetingMinutes) (response : str) (kv : list (str * json))
    (cands : list json) :
  ollama W (events_prompt (_prepare_transcript_text t))
    (events_system_prompt (today_str W) (time_str W)) = Ok response ->
  outcome (extract_first_json_block W response) = Ok (JObj kv) ->
  assoc (lit "events") kv = Some (JArr cands) ->
  forallb string_timestamps cands = true ->
  outcome (extract_calendar_events W t m) = Ok (omap (event_of_candidate W) cands).
Proof.
  intros Hr Hv Hk Hc. rewrite extract_calendar_events_outcome, Hr, Hv.
  unfold outcome, events_of_parsed_data.
  erewrite bind_ok; [|unfold lift, py_get; by rewrite Hk].
  erewrite bind_ok; [|reflexivity].
  by rewrite (candidate_loop_string_timestamps W cands Hc).
Qed.

Lemma extract_calendar_events_keeps_order_witness :
  outcome (extract_calendar_events
             (world (llm_says events_valid_then_malformed) audio_demo)
             demo_transcript None)
  = Ok [planning_event].
Proof.
  etransitivity;
    [eapply (extract_calendar_events_keeps_order
               (world (llm_says events_valid_then_malformed) audio_demo)
               demo_transcript None events_valid_then_malformed)|].
  - reflexivity.
  - cbv. reflexivity.
  - cbv. reflexivity.
  - by vm_compute.
  - by vm_compute.
Defined.

(** ** [infer_speaker_names] on a response *)

(** X4. When the completion call returns a text, [infer_speaker_names]
    returns a mapping and raises nothing: the empty mapping when no JSON
    block can be extracted, and otherwise exactly the entries of the
    extracted object whose value is a string. *)
Theorem infer_speaker_names_keeps_string_entries (W : World) (t : MeetingTranscript)
    (response : str) :
  ollama W (names_prompt (names_transcript_text t)) names_system_prompt = Ok response ->
  exists speaker_map,
    outcome (infer_speaker_names W t) = Ok speaker_map /\
    (forall e, outcome (extract_first_json_block W response) = Raise e ->
               speaker_map = ∅) /\
    (forall kv,
       outcome (extract_first_json_block W response) = Ok (JObj kv) ->
       NoDup kv.*1 ->
       forall label inferred_name,
         speaker_map !! label = Some inferred_name
         <-> assoc label kv = Some (JStr inferred_name)).
Proof.
  intros Hllm.
  destruct (infer_speaker_names_on_text W t response [] Hllm) as (tr' & Hrun).
  eexists. split; [unfold outcome; by rewrite Hrun|]. split.
  - intros e He. by rewrite He.
  - intros kv Hkv Hnd label inferred_name. rewrite Hkv.
    rewrite (validate_mapping_lookup kv label Hnd). unfold string_entry.
    destruct (assoc label kv) as [[]|]; split; congruence.
Qed.

Lemma infer_speaker_names_keeps_string_entries_witness :
  outcome (infer_speaker_names scenario_world demo_transcript)
  = Ok (<[lit "A" := lit "John"]> ∅).
Proof.
  destruct (infer_speaker_names_keeps_string_entries scenario_world demo_transcript
              names_reply eq_refl) as (sm & Hrun & _).
  rewrite Hrun. f_equal.
  assert (Heq : Ok sm = Ok (<[lit "A" := lit "John"]> (∅ : gmap str str)))
    by (rewrite <- Hrun; by vm_compute).
  by injection Heq.
Defined.

(** ** What [generate_meeting_minutes] takes from the transcript *)

Section MinutesFromTranscript.
Context (W : World).

Lemma minutes_of_parsed_data_inv t parsed_data tr tr' m :
  minutes_of_parsed_data W t parsed_data tr = (tr', Ok m) ->
  exists ai ds kps nss sm,
    for_in ai (action_item_of W) [] tr = (tr, Ok (action_items m)) /\
    (exists v, py_get parsed_data (lit "action_items") (JArr []) = Ok v /\ py_iter v = Ok ai) /\
    for_in ds (decision_of W) [] tr = (tr, Ok (decisions m)) /\
    (exists v, py_get parsed_data (lit "decisions") (JArr []) = Ok v /\ py_iter v = Ok ds) /\
    (exists kp, py_get parsed_data (lit "key_points") JNull = Ok kp /\
                pydantic_list_str W (py_or kp (JArr [])) = Some kps) /\
    (exists ns, py_get parsed_data (lit "next_steps") JNull = Ok ns /\
                pydantic_list_str W (py_or ns (JArr [])) = Some nss) /\
    m = mkMinutes (meeting_id t) (created_at t) (Timedelta (duration t))
          (remove_dups (speaker <$> segments t)) kps (action_items m) (decisions m)
          nss sm.
Proof.
  unfold minutes_of_parsed_data. intros H.
  apply bind_ok_inv in H as (v1 & tr1 & H1 & H). apply lift_ok_inv in H1 as [H1 ->].
  apply bind_ok_inv in H as (ai & tr1 & H2 & H). apply lift_ok_inv in H2 as [H2 ->].
  apply bind_ok_inv in H as (ais & tr1 & H3 & H).
  rewrite (silent_for_in ai (action_item_of W) (silent_action_item_of W) [] tr) in H3.
  injection H3 as <- H3.
  apply bind_ok_inv in H as (v2 & tr1 & H4 & H). apply lift_ok_inv in H4 as [H4 ->].
  apply bind_ok_inv in H as (ds & tr1 & H5 & H). apply lift_ok_inv in H5 as [H5 ->].
  apply bind_ok_inv in H as (dss & tr1 & H6 & H).
  rewrite (silent_for_in ds (decision_of W) (silent_decision_of W) [] tr) in H6.
  injection H6 as <- H6.
  apply bind_ok_inv in H as (kp & tr1 & H7 & H). apply lift_ok_inv in H7 as [H7 ->].
  apply bind_ok_inv in H as (ns & tr1 & H8 & H). apply lift_ok_inv in H8 as [H8 ->].
  apply bind_ok_inv in H as (d & tr1 & H9 & H). apply lift_ok_inv in H9 as [H9 ->].
  apply bind_ok_inv in H as (s & tr1 & H10 & H). apply lift_ok_inv in H10 as [H10 ->].
  apply bind_ok_inv in H as (kps & tr1 & H11 & H).
  apply validated_ok_inv in H11 as [H11 ->].
  apply bind_ok_inv in H as (nss & tr1 & H12 & H).
  apply validated_ok_inv in H12 as [H12 ->].
  apply bind_ok_inv in H as (sm & tr1 & H13 & H).
  apply validated_ok_inv in H13 as [H13 ->].
  injection H as <- <-. simpl.
  assert (d = Timedelta (duration t)) as ->.
  { unfold timedelta_of_milliseconds in H9. destruct (_ && _); congruence. }
  exists ai, ds, kps, nss, sm.
  split; [by rewrite (silent_for_in ai (action_item_of W) (silent_action_item_of W) [] tr),
            H3|].
  split; [by exists v1|].
  split; [by rewrite (silent_for_in ds (decision_of W) (silent_decision_of W) [] tr), H6|].
  split; [by exists v2|].
  split; [by exists kp|]. split; [by exists ns|]. done.
Qed.

Lemma generate_meeting_minutes_inv t tr tr' m :
  generate_meeting_minutes W t tr = (tr', Ok m) ->
  exists parsed_data tr1, minutes_of_parsed_data W t parsed_data tr1 = (tr', Ok m).
Proof.
  unfold generate_meeting_minutes. intros H.
  apply bind_ok_inv in H as (response & tr1 & _ & H).
  apply bind_ok_inv in H as (parsed_data & tr2 & _ & H).
  by exists parsed_data, tr2.
Qed.

End MinutesFromTranscript.

(** X5. Whatever the model answers, minutes that are returned carry the
    meeting id, the date and the duration of the transcript, and their
    participants are the distinct speaker labels of its segments: each
    label once, none that no segment has. *)
Theorem minutes_follow_transcript (W : World) (t : MeetingTranscript)
    (tr tr' : list event) (m : MeetingMinutes) :
  generate_meeting_minutes W t tr = (tr', Ok m) ->
  mm_meeting_id m = meeting_id t /\
  mm_date m = created_at t /\
  mm_duration m = Timedelta (duration t) /\
  NoDup (participants m) /\
  (forall p, p ∈ participants m <-> exists seg, seg ∈ segments t /\ speaker seg = p).
Proof.
  intros H. apply generate_meeting_minutes_inv in H as (parsed & tr1 & H).
  apply minutes_of_parsed_data_inv in H
    as (ai & ds & kps & nss & sm & _ & _ & _ & _ & _ & _ & ->).
  simpl. repeat split; try done.
  - apply NoDup_remove_dups.
  - intros Hp. apply elem_of_remove_dups, list_elem_of_fmap in Hp as (seg & -> & Hseg).
    by exists seg.
  - intros (seg & Hseg & <-). apply elem_of_remove_dups, list_elem_of_fmap. by exists seg.
Qed.

Lemma minutes_follow_transcript_witness :
  exists m,
    outcome (generate_meeting_minutes (world (llm_says minutes_as_prose) audio_demo)
               demo_transcript) = Ok m /\
    mm_meeting_id m = lit "demo-meeting-001" /\
    (lit "B" ∈ participants m).
Proof.
  destruct (generate_meeting_minutes (world (llm_says minutes_as_prose) audio_demo)
              demo_transcript []) as [tr' [m|e]] eqn:Hrun;
    [|exfalso; vm_compute in Hrun; discriminate Hrun].
  pose proof (minutes_follow_transcript _ _ _ _ _ Hrun) as (Hid & _ & _ & _ & Hp).
  exists m. split; [unfold outcome; by rewrite Hrun|]. split; [exact Hid|].
  apply Hp.
  exists (mkSegment 5000 9000 (lit "B") (lit "Thanks John, let's meet Thursday at 2pm")
            full_confidence).
  split; [apply list_elem_of_further, list_elem_of_here|reflexivity].
Defined.

(** ** One item per candidate *)

Section ItemsPerCandidate.
Context (W : World).

Lemma action_item_of_inv item acc tr tr' r :
  action_item_of W item acc tr = (tr', Ok r) ->
  exists a, r = acc ++ [a] /\
    status a = lit "pending" /\
    due_date a = due_date_of_candidate W item /\
    str_field W item (lit "description") (JStr []) = Some (description a) /\
    str_field W item (lit "priority") (JStr (lit "medium")) = Some (priority a).
Proof.
  unfold action_item_of. intros H.
  apply bind_ok_inv in H as (d & tr1 & H1 & H). apply lift_ok_inv in H1 as [H1 ->].
  destruct item as [| | | | | |kv]; try discriminate H1.
  simpl in H1. injection H1 as <-.
  apply bind_ok_inv in H as (due & tr1 & Hdue & H).
  apply bind_ok_inv in H as (a_d & tr2 & H2 & H). apply lift_ok_inv in H2 as [H2 ->].
  apply bind_ok_inv in H as (a_a & tr2 & H3 & H). apply lift_ok_inv in H3 as [H3 ->].
  apply bind_ok_inv in H as (a_p & tr2 & H4 & H). apply lift_ok_inv in H4 as [H4 ->].
  apply bind_ok_inv in H as (v_d & tr2 & H5 & H). apply validated_ok_inv in H5 as [H5 ->].
  apply bind_ok_inv in H as (v_a & tr2 & H6 & H). apply validated_ok_inv in H6 as [H6 ->].
  apply bind_ok_inv in H as (v_p & tr2 & H7 & H). apply validated_ok_inv in H7 as [H7 ->].
  injection H as <- <-. simpl in H2, H4. injection H2 as <-. injection H4 as <-.
  eexists. split; [reflexivity|]. simpl. repeat split; try done.
  unfold try_except, bind, lift, py_getitem, call_strptime, ret, raise in Hdue.
  destruct (assoc (lit "due_date") kv) as [[| | | |s| |]|] eqn:Hk; simpl in Hdue;
    try (injection Hdue as _ <-; done);
    repeat case_match; simplify_eq; done.
Qed.

Lemma decision_of_inv d acc tr tr' r :
  decision_of W d acc tr = (tr', Ok r) ->
  exists x, r = acc ++ [x] /\
    impact x = None /\
    str_field W d (lit "topic") (JStr []) = Some (topic x) /\
    str_field W d (lit "decision") (JStr []) = Some (decision x).
Proof.
  unfold decision_of. intros H.
  apply bind_ok_inv in H as (a_t & tr1 & H1 & H). apply lift_ok_inv in H1 as [H1 ->].
  destruct d as [| | | | | |kv]; try discriminate H1.
  simpl in H1. injection H1 as <-.
  apply bind_ok_inv in H as (a_d & tr2 & H2 & H). apply lift_ok_inv in H2 as [H2 ->].
  apply bind_ok_inv in H as (a_r & tr2 & H3 & H). apply lift_ok_inv in H3 as [H3 ->].
  apply bind_ok_inv in H as (v_t & tr2 & H5 & H). apply validated_ok_inv in H5 as [H5 ->].
  apply bind_ok_inv in H as (v_d & tr2 & H6 & H). apply validated_ok_inv in H6 as [H6 ->].
  apply bind_ok_inv in H as (v_r & tr2 & H7 & H). apply validated_ok_inv in H7 as [H7 ->].
  injection H as <- <-. simpl in H2. injection H2 as <-.
  eexists. split; [reflexivity|]. by simpl.
Qed.

Lemma for_in_inv {A S} (R : A -> S -> Prop) (body : A -> list S -> M (list S)) :
  (forall x acc tr tr' r, body x acc tr = (tr', Ok r) ->
     exists s, r = acc ++ [s] /\ R x s) ->
  forall l acc tr tr' r,
    for_in l body acc tr = (tr', Ok r) ->
    exists l', r = acc ++ l' /\ Forall2 R l l'.
Proof.
  intros Hb. induction l as [|x l IH]; intros acc tr tr' r H; simpl in H.
  - injection H as _ <-. exists []. by rewrite app_nil_r.
  - apply bind_ok_inv in H as (acc' & tr1 & H1 & H).
    apply Hb in H1 as (s & -> & Hs).
    apply IH in H as (l' & -> & Hl').
    exists (s :: l'). split; [by rewrite <- app_assoc|by constructor].
Qed.

End ItemsPerCandidate.

(** X6. When the model's answer holds a JSON object whose [action_items] and
    [decisions] are lists and minutes are returned, the minutes have one
    action item per candidate and one decision per candidate, in the
    candidates' order. Every action item is pending, has the candidate's
    description, and its due date is the candidate's non-empty
    [due_date] string read as [%Y-%m-%d], or none when the string is empty
    or is not such a date; every decision has the candidate's topic and no
    impact. *)
Theorem minutes_items_follow_candidates (W : World) (t : MeetingTranscript)
    (response : str) (kv : list (str * json)) (items ds : list json)
    (m : MeetingMinutes) :
  ollama W (minutes_prompt (_prepare_transcript_text t)) minutes_system_prompt = Ok response ->
  outcome (extract_first_json_block W response) = Ok (JObj kv) ->
  assoc (lit "action_items") kv = Some (JArr items) ->
  assoc (lit "decisions") kv = Some (JArr ds) ->
  outcome (generate_meeting_minutes W t) = Ok m ->
  Forall2 (fun item a =>
             status a = lit "pending" /\
             due_date a = due_date_of_candidate W item /\
             str_field W item (lit "description") (JStr []) = Some (description a))
          items (action_items m) /\
  Forall2 (fun d x =>
             impact x = None /\
             str_field W d (lit "topic") (JStr []) = Some (topic x))
          ds (decisions m).
Proof.
  intros Hllm Hex Hai Hds Hrun. unfold outcome in Hrun.
  rewrite (generate_after_completion W t response [] Hllm) in Hrun. simpl in Hrun.
  rewrite Hex in Hrun.
  destruct (minutes_of_parsed_data W t (JObj kv) _) as [tr' r] eqn:Hm.
  simpl in Hrun. subst r.
  apply minutes_of_parsed_data_inv in Hm
    as (ai & dl & kps & nss & sm & Hfa & (v1 & Hg1 & Hi1) & Hfd & (v2 & Hg2 & Hi2) & _).
  simpl in Hg1, Hg2. rewrite Hai in Hg1. rewrite Hds in Hg2.
  injection Hg1 as <-. injection Hg2 as <-. simpl in Hi1, Hi2.
  injection Hi1 as <-. injection Hi2 as <-.
  split.
  - eapply (for_in_inv (fun item a =>
             status a = lit "pending" /\
             due_date a = due_date_of_candidate W item /\
             str_field W item (lit "description") (JStr []) = Some (description a)))
      in Hfa as (l' & -> & HF); [exact HF|].
    intros x acc tr0 tr1 r H. apply action_item_of_inv in H as (a & -> & ? & ? & ? & _).
    by exists a.
  - eapply (for_in_inv (fun d x =>
             impact x = None /\
             str_field W d (lit "topic") (JStr []) = Some (topic x)))
      in Hfd as (l' & -> & HF); [exact HF|].
    intros x acc tr0 tr1 r H. apply decision_of_inv in H as (a & -> & ? & ? & _).
    by exists a.
Qed.

Lemma due_dates_of_candidates (W : World) (items : list json) (l : list ActionItem) :
  Forall2 (fun item a => due_date a = due_date_of_candidate W item) items l ->
  due_date <$> l = due_date_of_candidate W <$> items.
Proof. induction 1 as [|item a items l Hdue _ IH]; [done|]. simpl. by f_equal. Qed.

Lemma minutes_items_follow_candidates_witness :
  exists m,
    outcome (generate_meeting_minutes (world (llm_says minutes_with_due_dates) audio_demo)
               demo_transcript) = Ok m /\
    due_date <$> action_items m = [Some (Datetime 2024 3 15 0 0 0); None; None] /\
    length (decisions m) = 1%nat.
Proof.
  destruct (outcome (generate_meeting_minutes
                       (world (llm_says minutes_with_due_dates) audio_demo)
                       demo_transcript)) as [m|e] eqn:Hrun;
    [|exfalso; vm_compute in Hrun; discriminate Hrun].
  exists m. split; [done|].
  edestruct (minutes_items_follow_candidates
               (world (llm_says minutes_with_due_dates) audio_demo) demo_transcript
               minutes_with_due_dates) as [Ha Hd];
    [reflexivity|cbv; reflexivity|cbv; reflexivity|cbv; reflexivity|exact Hrun|].
  split.
  - transitivity (due_date_of_candidate (world (llm_says minutes_with_due_dates) audio_demo)
                    <$> [JObj [(lit "description", JStr (lit "Ship it"));
                               (lit "due_date", JStr (lit "2024-03-15"))];
                         JObj [(lit "description", JStr (lit "Plan the offsite"));
                               (lit "due_date", JStr (lit "next week"))];
                         JObj [(lit "description", JStr (lit "Hire"));
                               (lit "due_date", JNull)]]); [|by vm_compute].
    eapply due_dates_of_candidates, Forall2_impl; [exact Ha|].
    by intros item a (_ & Hdue & _).
  - by rewrite <- (Forall2_length _ _ _ Hd).
Defined.

(** ** The key points of [_fallback_parsing] *)

Lemma lstrip_head (s : str) (c : char) (r : str) :
  lstrip s = c :: r -> py_isspace c = false.
Proof.
  induction s as [|x s IH]; simpl; [done|].
  destruct (py_isspace x) eqn:Hx; [exact IH|]. intros H. by injection H as <- _.
Qed.

Lemma lstrip_suffix (s : str) : exists pre, s = pre ++ lstrip s.
Proof.
  induction s as [|x s [pre IH]]; simpl; [by exists []|].
  destruct (py_isspace x); [|by exists []]. exists (x :: pre). simpl. by f_equal.
Qed.

Lemma lstrip_last (s : str) (c : char) : last (lstrip s) = Some c -> last s = Some c.
Proof.
  intros H. destruct (lstrip_suffix s) as [pre Hs]. rewrite Hs, last_app. by rewrite H.
Qed.

Lemma lstrip_keeps (s : str) (c : char) :
  c ∈ s -> py_isspace c = false -> c ∈ lstrip s.
Proof.
  intros Hin Hc. induction s as [|x s IH]; simpl; [done|].
  destruct (py_isspace x) eqn:Hx; [|done].
  apply elem_of_cons in Hin as [->|Hin]; [congruence|by apply IH].
Qed.

Lemma str_strip_head (s : str) (c : char) :
  head (str_strip s) = Some c -> py_isspace c = false.
Proof.
  unfold str_strip. rewrite head_reverse. intros H.
  apply lstrip_last in H. rewrite last_reverse in H.
  destruct (lstrip s) as [|x r] eqn:Hs; [done|]. injection H as ->.
  by apply (lstrip_head s c r).
Qed.

Lemma str_strip_last (s : str) (c : char) :
  last (str_strip s) = Some c -> py_isspace c = false.
Proof.
  unfold str_strip. rewrite last_reverse. intros H.
  destruct (lstrip (reverse (lstrip s))) as [|x r] eqn:Hs; [done|]. injection H as ->.
  by apply (lstrip_head _ c r Hs).
Qed.

Lemma str_strip_keeps (s : str) (c : char) :
  c ∈ s -> py_isspace c = false -> c ∈ str_strip s.
Proof.
  intros Hin Hc. unfold str_strip.
  apply elem_of_reverse, lstrip_keeps; [|done].
  apply elem_of_reverse, lstrip_keeps; done.
Qed.

Lemma lstrip_app_nonspace (a b : str) (c : char) :
  py_isspace c = false -> lstrip (a ++ c :: b) = lstrip a ++ c :: b.
Proof.
  intros Hc. induction a as [|x a IH]; simpl; [by rewrite Hc|].
  by destruct (py_isspace x).
Qed.

(** X7. Every key point [_fallback_parsing] returns is a non-empty text with
    no white space at either end. It comes from a line of the response
    that, stripped, has more than two characters and starts with [-],
    [*] or the three-character bullet marker: the key point is that line
    without its first character, stripped. So a key point from a line
    with the three-character marker begins with the marker's other two
    characters. *)
Theorem fallback_key_points_are_stripped_bullets (response kp : str) :
  kp ∈ fallback_key_points response ->
  (exists c, head kp = Some c /\ py_isspace c = false) /\
  (exists c, last kp = Some c /\ py_isspace c = false) /\
  exists line marker rest,
    line ∈ str_split newline response /\
    str_strip line = marker :: rest /\
    (2 < length (str_strip line))%nat /\
    (startswith (str_strip line) (lit "-") || startswith (str_strip line) bullet_glyph
     || startswith (str_strip line) (lit "*")) = true /\
    kp = str_strip rest /\
    (startswith (str_strip line) bullet_glyph = true ->
     exists kp', kp = [8364; 162]%N ++ kp').
Proof.
  unfold fallback_key_points. intros H.
  apply list_elem_of_fmap in H as (tail & -> & H).
  apply list_elem_of_fmap in H as (stripped & -> & H).
  apply list_elem_of_filter in H as [HP H].
  apply list_elem_of_fmap in H as (line & -> & Hline).
  apply andb_prop in HP as [Hstart Hlen]. apply Nat.ltb_lt in Hlen.
  destruct (str_strip line) as [|marker rest] eqn:Hs; [simpl in Hlen; lia|].
  assert (Hglyph : startswith (marker :: rest) bullet_glyph = true ->
                   exists kp', str_strip rest = [8364; 162]%N ++ kp').
  { unfold bullet_glyph. intros Hg.
    destruct rest as [|c1 [|c2 rest']]; cbn [startswith] in Hg;
      try (rewrite ?andb_false_r in Hg; discriminate Hg).
    apply andb_prop in Hg as [_ Hg]. apply andb_prop in Hg as [H1 Hg].
    apply andb_prop in Hg as [H2 _].
    apply N.eqb_eq in H1 as <-. apply N.eqb_eq in H2 as <-.
    unfold str_strip. change (lstrip (8364 :: 162 :: rest')%N) with (8364 :: 162 :: rest')%N.
    rewrite !reverse_cons, <- app_assoc. simpl.
    rewrite (lstrip_app_nonspace (reverse rest') [8364%N] 162%N eq_refl).
    rewrite reverse_app. simpl. by eexists. }
  assert (Hne : str_strip (drop 1 (marker :: rest)) <> []).
  { simpl. rewrite drop_0.
    destruct (last rest) as [z|] eqn:Hz;
      [|apply last_None in Hz; subst rest; simpl in Hlen; lia].
    assert (Hsp : py_isspace z = false).
    { apply (str_strip_last line). rewrite Hs, last_cons. by rewrite Hz. }
    assert (Hin : z ∈ rest) by (by apply last_Some_elem_of).
    intros Hnil. pose proof (str_strip_keeps rest z Hin Hsp) as Hk.
    rewrite Hnil in Hk. by apply not_elem_of_nil in Hk. }
  simpl in *. rewrite drop_0 in *.
  repeat split.
  - destruct (str_strip rest) as [|c r] eqn:Hr; [done|]. exists c. split; [done|].
    apply (str_strip_head rest). by rewrite Hr.
  - destruct (last (str_strip rest)) as [c|] eqn:Hr;
      [|by apply last_None in Hr]. exists c. split; [done|].
    by apply (str_strip_last rest).
  - exists line, marker, rest. by rewrite Hs.
Qed.

Lemma fallback_key_points_are_stripped_bullets_witness :
  (lit "Budget was approved" ∈ fallback_key_points minutes_as_prose) /\
  exists c, head (lit "Budget was approved") = Some c /\ py_isspace c = false.
Proof.
  assert (Hin : lit "Budget was approved" ∈ fallback_key_points minutes_as_prose).
  { vm_compute. apply list_elem_of_here. }
  split; [exact Hin|].
  exact (proj1 (fallback_key_points_are_stripped_bullets _ _ Hin)).
Defined.

(** ** What the stages add to the trace *)

Lemma only_emits_silent (P : event -> bool) {A} (m : M A) : silent m -> only_emits P m.
Proof. intros Hm tr. exists []. rewrite (Hm tr). simpl. by rewrite app_nil_r. Qed.

Lemma only_emits_emit (P : event -> bool) (e : event) : P e = true -> only_emits P (emit e).
Proof. intros He tr. exists [e]. simpl. by rewrite He. Qed.

Lemma only_emits_bind (P : event -> bool) {A B} (m : M A) (k : A -> M B) :
  only_emits P m -> (forall a, only_emits P (k a)) -> only_emits P (bind m k).
Proof.
  intros Hm Hk tr. unfold bind. destruct (Hm tr) as (ext & Hext & HP).
  destruct (m tr) as [tr1 [a|e]]; simpl in *; subst tr1; [|by exists ext].
  destruct (Hk a (tr ++ ext)) as (ext' & -> & HP').
  exists (ext ++ ext'). by rewrite app_assoc, forallb_app, HP, HP'.
Qed.

Lemma only_emits_try_except (P : event -> bool) {A} (m : M A) (c : exn -> bool)
    (h : exn -> M A) :
  only_emits P m -> (forall e, only_emits P (h e)) -> only_emits P (try_except m c h).
Proof.
  intros Hm Hh tr. unfold try_except. destruct (Hm tr) as (ext & Hext & HP).
  destruct (m tr) as [tr1 [a|e]]; simpl in *; subst tr1; [by exists ext|].
  destruct (c e); [|by exists ext].
  destruct (Hh e (tr ++ ext)) as (ext' & -> & HP').
  exists (ext ++ ext'). by rewrite app_assoc, forallb_app, HP, HP'.
Qed.

Lemma calendar_submissions_app (a b : list event) :
  calendar_submissions (a ++ b) = calendar_submissions a ++ calendar_submissions b.
Proof. apply omap_app. Qed.

Lemma calendar_submissions_model (ext : list event) :
  forallb model_event ext = true -> calendar_submissions ext = [].
Proof.
  induction ext as [|e ext IH]; [done|]. simpl. intros H.
  apply andb_prop in H as [He Hext]. unfold calendar_submissions in *. simpl.
  destruct e; try discriminate He; by apply IH.
Qed.

Lemma calendar_submissions_created (events : list CalendarEvent) :
  calendar_submissions (EvCreateEvent <$> events) = events.
Proof.
  induction events as [|ev events IH]; [done|].
  change (calendar_submissions (EvCreateEvent <$> ev :: events))
    with (ev :: calendar_submissions (EvCreateEvent <$> events)).
  by rewrite IH.
Qed.

Lemma llm_calls_created (events : list CalendarEvent) :
  llm_calls (EvCreateEvent <$> events) = [].
Proof. by induction events. Qed.

Section Stages.
Context (W : World).

Ltac solve_uniform :=
  repeat first
    [ apply uniform_call_ollama | apply uniform_extract
    | apply uniform_of_silent; first [apply silent_ret | apply silent_raise
                                     | apply silent_lift
                                     | apply silent_minutes_of_parsed_data]
    | apply uniform_bind; [|intros ?]
    | apply uniform_try_except; [|intros ?]
    | match goal with |- uniform (match ?x with _ => _ end) => destruct x end ].

Lemma uniform_infer_speaker_names t : uniform (infer_speaker_names W t).
Proof. unfold infer_speaker_names, names_handler. solve_uniform. Qed.

Lemma uniform_generate_meeting_minutes t : uniform (generate_meeting_minutes W t).
Proof. unfold generate_meeting_minutes. solve_uniform. Qed.

Lemma only_emits_model_call_ollama p s : only_emits model_event (_call_ollama W p s).
Proof.
  apply only_emits_bind; [by apply only_emits_emit|].
  intros _. apply only_emits_silent, silent_lift.
Qed.

Lemma only_emits_model_extract text :
  only_emits model_event (extract_first_json_block W text).
Proof.
  intros tr. destruct (brace_cases text) as [H|[[b Hb]|Hn]].
  - exists []. rewrite (extract_absent W text tr H). simpl. by rewrite app_nil_r.
  - exists [EvJsonLoads b]. by rewrite (extract_block W text b tr Hb).
  - exists []. rewrite (extract_never W text tr Hn). simpl. by rewrite app_nil_r.
Qed.

Ltac solve_emits :=
  repeat first
    [ apply only_emits_model_call_ollama | apply only_emits_model_extract
    | apply only_emits_silent; first [apply silent_ret | apply silent_raise
                                     | apply silent_lift
                                     | apply silent_minutes_of_parsed_data
                                     | apply silent_events_of_parsed_data]
    | apply only_emits_bind; [|intros ?]
    | apply only_emits_try_except; [|intros ?]
    | match goal with |- only_emits _ (match ?x with _ => _ end) => destruct x end ].

Lemma only_emits_model_infer t : only_emits model_event (infer_speaker_names W t).
Proof. unfold infer_speaker_names, names_handler. solve_emits. Qed.

Lemma only_emits_model_minutes t : only_emits model_event (generate_meeting_minutes W t).
Proof. unfold generate_meeting_minutes. solve_emits. Qed.

Lemma only_emits_model_events t m : only_emits model_event (extract_calendar_events W t m).
Proof. unfold extract_calendar_events. solve_emits. Qed.

Lemma stage_submits_nothing {A} (m : M A) :
  only_emits model_event m -> calendar_submissions (m []).1 = [].
Proof.
  intros Hm. destruct (Hm []) as (ext & -> & HP). by apply calendar_submissions_model.
Qed.

Lemma infer_speaker_names_llm_calls t tr :
  llm_calls (infer_speaker_names W t tr).1
  = llm_calls tr ++ [(names_prompt (names_transcript_text t), names_system_prompt)].
Proof.
  unfold infer_speaker_names, try_except at 1, _call_ollama, bind at 1 2, emit, lift.
  destruct (ollama W _ _) as [response|e]; simpl; [|by rewrite llm_calls_app].
  unfold try_except, bind. rewrite (uniform_extract W response _).
  destruct (outcome (extract_first_json_block W response)) as [[| | | | | |kv]|e]; simpl;
    by rewrite !llm_calls_app, llm_calls_extract, app_nil_r.
Qed.

End Stages.

(** ** The full pipeline, stage by stage *)

Section FullPipeline.
Context (W : World).

Ltac unfold_run :=
  unfold return_result, agent_try, agent_bind, call, assign, completed, failed,
    agent_ret, agent_bind, call, assign, bind, call_time, call_process_audio_file,
    emit, lift, new_result; simpl.

Ltac trace_facts :=
  rewrite ?llm_calls_app, ?calendar_submissions_app,
    ?infer_speaker_names_llm_calls, ?(generate_meeting_minutes_llm_calls W),
    ?(extract_calendar_events_llm_calls W), ?llm_calls_created,
    ?calendar_submissions_created,
    ?(stage_submits_nothing _ (only_emits_model_infer W _)),
    ?(stage_submits_nothing _ (only_emits_model_minutes W _)),
    ?(stage_submits_nothing _ (only_emits_model_events W _ _));
  simpl; rewrite ?app_nil_r, <- ?app_assoc; simpl.

Lemma process_meeting_run audio_path meeting_id tr t :
  process_audio_file W audio_path (meeting_id_or_fresh W meeting_id) = Ok t ->
  exists r tr',
    process_meeting W audio_path meeting_id tr = (tr', Ok r) /\
    pr_meeting_id r = meeting_id_or_fresh W meeting_id /\
    match outcome (infer_speaker_names W t) with
    | Raise e =>
        pr_status r = FAILED /\ error_message r = Some (exn_msg e) /\
        transcript r = Some t /\ minutes r = None /\ calendar_events r = [] /\
        llm_calls tr'
        = llm_calls tr ++ [(names_prompt (names_transcript_text t), names_system_prompt)]
    | Ok speaker_map =>
        let t' := apply_speaker_map speaker_map t in
        transcript r = Some t' /\
        match outcome (generate_meeting_minutes W t') with
        | Raise e =>
            pr_status r = FAILED /\ error_message r = Some (exn_msg e) /\
            minutes r = None /\ calendar_events r = [] /\
            llm_calls tr'
            = llm_calls tr ++
              [(names_prompt (names_transcript_text t), names_system_prompt);
               (minutes_prompt (_prepare_transcript_text t'), minutes_system_prompt)]
        | Ok m =>
            pr_status r = COMPLETED /\ error_message r = None /\
            minutes r = Some m /\
            outcome (extract_calendar_events W t' (Some m)) = Ok (calendar_events r) /\
            llm_calls tr'
            = llm_calls tr ++
              [(names_prompt (names_transcript_text t), names_system_prompt);
               (minutes_prompt (_prepare_transcript_text t'), minutes_system_prompt);
               (events_prompt (_prepare_transcript_text t'),
                events_system_prompt (today_str W) (time_str W))]
        end
    end /\
    calendar_submissions tr' = calendar_submissions tr ++ calendar_events r.
Proof.
  intros Haudio. unfold process_meeting. unfold_run. rewrite Haudio. simpl.
  rewrite (uniform_infer_speaker_names W t _).
  destruct (outcome (infer_speaker_names W t)) as [sm|e]; simpl.
  - rewrite (uniform_generate_meeting_minutes W (apply_speaker_map sm t) _).
    destruct (outcome (generate_meeting_minutes W (apply_speaker_map sm t)))
      as [m|e]; simpl.
    + rewrite (uniform_extract_calendar_events W (apply_speaker_map sm t) (Some m) _).
      rewrite (extract_calendar_events_outcome W (apply_speaker_map sm t) (Some m)).
      match goal with |- context [Ok ?x] =>
        match x with context [ollama] => generalize x end end.
      intros [|ev evs]; simpl.
      * eexists _, _. split; [reflexivity|]. simpl.
        repeat split; trace_facts; reflexivity.
      * rewrite create_events_run.
        pose proof (llm_calls_created (ev :: evs)) as Hl.
        pose proof (calendar_submissions_created (ev :: evs)) as Hc.
        set (sub := EvCreateEvent <$> ev :: evs) in *. clearbody sub. simpl.
        eexists _, _. split; [reflexivity|]. simpl.
        repeat split; trace_facts; rewrite ?Hl, ?Hc, ?app_nil_r; reflexivity.
    + eexists _, _. split; [reflexivity|]. simpl.
      repeat split; trace_facts; reflexivity.
  - eexists _, _. split; [reflexivity|]. simpl.
    repeat split; trace_facts; reflexivity.
Qed.

Lemma generate_minutes_only_run audio_path meeting_id tr t :
  process_audio_file W audio_path (meeting_id_or_fresh W meeting_id) = Ok t ->
  exists r tr',
    generate_minutes_only W audio_path meeting_id tr = (tr', Ok r) /\
    transcript r = Some t /\ calendar_events r = [] /\
    match outcome (generate_meeting_minutes W t) with
    | Ok m => pr_status r = COMPLETED /\ error_message r = None /\ minutes r = Some m
    | Raise e => pr_status r = FAILED /\ error_message r = Some (exn_msg e) /\
                 minutes r = None
    end /\
    calendar_submissions tr' = calendar_submissions tr.
Proof.
  intros Haudio. unfold generate_minutes_only. unfold_run. rewrite Haudio. simpl.
  rewrite (uniform_generate_meeting_minutes W t _).
  destruct (outcome (generate_meeting_minutes W t)) as [m|e]; simpl;
    eexists _, _; (split; [reflexivity|]); simpl;
    repeat split; trace_facts; reflexivity.
Qed.

Lemma extract_events_only_run audio_path meeting_id tr t :
  process_audio_file W audio_path (meeting_id_or_fresh W meeting_id) = Ok t ->
  exists r tr',
    extract_events_only W audio_path meeting_id tr = (tr', Ok r) /\
    pr_status r = COMPLETED /\ error_message r = None /\
    transcript r = Some t /\ minutes r = None /\
    outcome (extract_calendar_events W t None) = Ok (calendar_events r) /\
    calendar_submissions tr' = calendar_submissions tr ++ calendar_events r.
Proof.
  intros Haudio. unfold extract_events_only. unfold_run. rewrite Haudio. simpl.
  rewrite (uniform_extract_calendar_events W t None _).
  rewrite (extract_calendar_events_outcome W t None).
  match goal with |- context [Ok ?x] =>
    match x with context [ollama] => generalize x end end.
  intros [|ev evs]; simpl.
  - eexists _, _. split; [reflexivity|]. simpl.
    repeat split; trace_facts; reflexivity.
  - rewrite create_events_run.
    pose proof (calendar_submissions_created (ev :: evs)) as Hc.
    set (sub := EvCreateEvent <$> ev :: evs) in *. clearbody sub. simpl.
    eexists _, _. split; [reflexivity|]. simpl.
    repeat split; trace_facts; rewrite ?Hc, ?app_nil_r; reflexivity.
Qed.

End FullPipeline.

(** X8. In the full pipeline a transcript that was produced decides the rest
    stage by stage. If speaker inference raises, the run fails with that
    message and keeps the transcript as transcribed. Otherwise the
    transcript is relabeled with the inferred names; if generating the
    minutes from it raises, the run fails with that message and has no
    minutes and no events. Otherwise the run completes with those minutes
    and with the events extracted from the relabeled transcript, and no
    error message: neither event extraction nor the calendar can make it
    fail. *)
Theorem process_meeting_by_stage (W : World) (audio_path : str)
    (meeting_id : option str) (tr : list event) (t : MeetingTranscript) :
  process_audio_file W audio_path (meeting_id_or_fresh W meeting_id) = Ok t ->
  exists r tr',
    process_meeting W audio_path meeting_id tr = (tr', Ok r) /\
    pr_meeting_id r = meeting_id_or_fresh W meeting_id /\
    match outcome (infer_speaker_names W t) with
    | Raise e =>
        pr_status r = FAILED /\ error_message r = Some (exn_msg e) /\
        transcript r = Some t /\ minutes r = None /\ calendar_events r = []
    | Ok speaker_map =>
        let t' := apply_speaker_map speaker_map t in
        transcript r = Some t' /\
        match outcome (generate_meeting_minutes W t') with
        | Raise e =>
            pr_status r = FAILED /\ error_message r = Some (exn_msg e) /\
            minutes r = None /\ calendar_events r = []
        | Ok m =>
            pr_status r = COMPLETED /\ error_message r = None /\
            minutes r = Some m /\
            outcome (extract_calendar_events W t' (Some m)) = Ok (calendar_events r)
        end
    end.
Proof.
  intros Haudio.
  destruct (process_meeting_run W audio_path meeting_id tr t Haudio)
    as (r & tr' & Hrun & Hid & Hstages & _).
  exists r, tr'. split; [done|]. split; [done|].
  destruct (outcome (infer_speaker_names W t)) as [sm|e].
  - simpl in *. destruct Hstages as [Ht Hstages]. split; [done|].
    destruct (outcome (generate_meeting_minutes W (apply_speaker_map sm t))) as [m|e];
      destruct Hstages as (? & ? & ? & ? & _); by repeat split.
  - destruct Hstages as (? & ? & ? & ? & ? & _). by repeat split.
Qed.

Lemma process_meeting_by_stage_witness :
  exists r tr',
    process_meeting scenario_world (lit "demo_meeting.wav") None [] = (tr', Ok r) /\
    pr_status r = COMPLETED /\
    calendar_events r = [planning_event] /\
    (speaker <$> default [] (segments <$> transcript r)) = [lit "John"; lit "B"].
Proof.
  destruct (process_meeting_by_stage scenario_world (lit "demo_meeting.wav") None []
              demo_transcript eq_refl) as (r & tr' & Hrun & _ & Hstages).
  exists r, tr'. split; [exact Hrun|].
  assert (Hinfer : outcome (infer_speaker_names scenario_world demo_transcript)
                   = Ok (<[lit "A" := lit "John"]> ∅)) by (by vm_compute).
  rewrite Hinfer in Hstages. simpl in Hstages. destruct Hstages as [Ht Hstages].
  destruct (outcome (generate_meeting_minutes scenario_world
                       (apply_speaker_map (<[lit "A" := lit "John"]> ∅) demo_transcript)))
    as [m|e] eqn:Hm; [|exfalso; vm_compute in Hm; discriminate Hm].
  destruct Hstages as (Hst & _ & _ & Hev).
  split; [exact Hst|]. split.
  - assert (Hevs : outcome (extract_calendar_events scenario_world
                      (apply_speaker_map (<[lit "A" := lit "John"]> ∅) demo_transcript)
                      (Some m)) = Ok [planning_event]) by (by vm_compute).
    rewrite Hevs in Hev. by injection Hev.
  - rewrite Ht. by vm_compute.
Defined.

(** X9. The requests of the full pipeline, in order: the speaker-names prompt
    built from the transcript as transcribed; then, if inference
    returned, the minutes prompt built from the relabeled transcript;
    then, if the minutes were generated, the events prompt built from the
    relabeled transcript. Nothing else is asked of the model. *)
Theorem process_meeting_requests (W : World) (audio_path : str)
    (meeting_id : option str) (tr : list event) (t : MeetingTranscript) :
  process_audio_file W audio_path (meeting_id_or_fresh W meeting_id) = Ok t ->
  exists r tr',
    process_meeting W audio_path meeting_id tr = (tr', Ok r) /\
    llm_calls tr'
    = llm_calls tr ++
      (names_prompt (names_transcript_text t), names_system_prompt) ::
      match outcome (infer_speaker_names W t) with
      | Raise _ => []
      | Ok speaker_map =>
          let t' := apply_speaker_map speaker_map t in
          (minutes_prompt (_prepare_transcript_text t'), minutes_system_prompt) ::
          match outcome (generate_meeting_minutes W t') with
          | Raise _ => []
          | Ok _ => [(events_prompt (_prepare_transcript_text t'),
                      events_system_prompt (today_str W) (time_str W))]
          end
      end.
Proof.
  intros Haudio.
  destruct (process_meeting_run W audio_path meeting_id tr t Haudio)
    as (r & tr' & Hrun & Hid & Hstages & _).
  exists r, tr'. split; [done|].
  destruct (outcome (infer_speaker_names W t)) as [sm|e].
  - simpl in *. destruct Hstages as [Ht Hstages].
    by destruct (outcome (generate_meeting_minutes W (apply_speaker_map sm t))) as [m|e];
      destruct Hstages as (_ & _ & _ & _ & ->).
  - by destruct Hstages as (_ & _ & _ & _ & _ & ->).
Qed.

Lemma process_meeting_requests_witness :
  exists r tr',
    process_meeting scenario_world (lit "demo_meeting.wav") None [] = (tr', Ok r) /\
    length (llm_calls tr') = 3%nat /\
    (llm_calls tr').*2 !! 0%nat = Some names_system_prompt.
Proof.
  destruct (process_meeting_requests scenario_world (lit "demo_meeting.wav") None []
              demo_transcript eq_refl) as (r & tr' & Hrun & Hcalls).
  exists r, tr'. split; [exact Hrun|].
  assert (Hinfer : outcome (infer_speaker_names scenario_world demo_transcript)
                   = Ok (<[lit "A" := lit "John"]> ∅)) by (by vm_compute).
  rewrite Hinfer in Hcalls. simpl in Hcalls.
  destruct (outcome (generate_meeting_minutes scenario_world
                       (apply_speaker_map (<[lit "A" := lit "John"]> ∅) demo_transcript)))
    as [m|e] eqn:Hm; [|exfalso; vm_compute in Hm; discriminate Hm].
  rewrite Hcalls. by split.
Defined.

(** ** The single-stage runs and the calendar *)

Section Runs.
Context (W : World).

Ltac unfold_run :=
  unfold return_result, agent_try, agent_bind, call, assign, completed, failed,
    agent_ret, agent_bind, call, assign, bind, call_time, call_process_audio_file,
    emit, lift, new_result; simpl.

Ltac stopped Haudio :=
  unfold stopped_at_transcription; unfold_run; rewrite Haudio; simpl;
  eexists; split; [by rewrite <- !app_assoc|]; by repeat split.

Lemma process_meeting_no_audio audio_path meeting_id tr e :
  process_audio_file W audio_path (meeting_id_or_fresh W meeting_id) = Raise e ->
  stopped_at_transcription (process_meeting W audio_path meeting_id)
    audio_path (meeting_id_or_fresh W meeting_id) e tr.
Proof. intros Haudio. unfold process_meeting. stopped Haudio. Qed.

Lemma generate_minutes_only_no_audio audio_path meeting_id tr e :
  process_audio_file W audio_path (meeting_id_or_fresh W meeting_id) = Raise e ->
  stopped_at_transcription (generate_minutes_only W audio_path meeting_id)
    audio_path (meeting_id_or_fresh W meeting_id) e tr.
Proof. intros Haudio. unfold generate_minutes_only. stopped Haudio. Qed.

Lemma extract_events_only_no_audio audio_path meeting_id tr e :
  process_audio_file W audio_path (meeting_id_or_fresh W meeting_id) = Raise e ->
  stopped_at_transcription (extract_events_only W audio_path meeting_id)
    audio_path (meeting_id_or_fresh W meeting_id) e tr.
Proof. intros Haudio. unfold extract_events_only. stopped Haudio. Qed.

Lemma generate_transcript_only_no_audio audio_path meeting_id tr e :
  process_audio_file W audio_path (meeting_id_or_fresh W meeting_id) = Raise e ->
  stopped_at_transcription (generate_transcript_only W audio_path meeting_id)
    audio_path (meeting_id_or_fresh W meeting_id) e tr.
Proof. intros Haudio. unfold generate_transcript_only. stopped Haudio. Qed.

Lemma generate_transcript_only_run audio_path meeting_id tr t :
  process_audio_file W audio_path (meeting_id_or_fresh W meeting_id) = Ok t ->
  exists r,
    generate_transcript_only W audio_path meeting_id tr
    = (tr ++ [EvTime; EvTranscribe audio_path (meeting_id_or_fresh W meeting_id); EvTime],
       Ok r) /\
    pr_status r = COMPLETED /\ error_message r = None /\
    transcript r = Some t /\ minutes r = None /\ calendar_events r = [].
Proof.
  intros Haudio. unfold generate_transcript_only. unfold_run. rewrite Haudio. simpl.
  eexists. split; [by rewrite <- !app_assoc|]. by repeat split.
Qed.

Lemma stopped_submits_nothing run audio_path mid e tr :
  stopped_at_transcription run audio_path mid e tr ->
  exists r tr',
    run tr = (tr', Ok r) /\ calendar_events r = [] /\
    calendar_submissions tr' = calendar_submissions tr /\
    llm_calls tr' = llm_calls tr.
Proof.
  intros (r & Hrun & _ & _ & _ & _ & Hev). eexists _, _. split; [exact Hrun|].
  split; [done|]. rewrite calendar_submissions_app, llm_calls_app. simpl.
  by rewrite !app_nil_r.
Qed.

End Runs.

(** X10. In the full pipeline and in the events-only run the events handed to
    the calendar are exactly the events of the result: each once, in the
    order extracted, whatever the calendar answers. A run that fails
    hands over nothing. *)
Theorem runs_submit_the_extracted_events (W : World) (audio_path : str)
    (meeting_id : option str) (tr : list event) :
  (exists r tr',
     process_meeting W audio_path meeting_id tr = (tr', Ok r) /\
     calendar_submissions tr' = calendar_submissions tr ++ calendar_events r /\
     (pr_status r = FAILED -> calendar_submissions tr' = calendar_submissions tr)) /\
  (exists r tr',
     extract_events_only W audio_path meeting_id tr = (tr', Ok r) /\
     calendar_submissions tr' = calendar_submissions tr ++ calendar_events r /\
     (pr_status r = FAILED -> calendar_submissions tr' = calendar_submissions tr)).
Proof.
  destruct (process_audio_file W audio_path (meeting_id_or_fresh W meeting_id))
    as [t|e] eqn:Haudio; split.
  - destruct (process_meeting_run W audio_path meeting_id tr t Haudio)
      as (r & tr' & Hrun & _ & Hstages & Hsub).
    exists r, tr'. split; [done|]. split; [done|]. intros Hfailed. rewrite Hsub.
    destruct (outcome (infer_speaker_names W t)) as [sm|e].
    + simpl in Hstages. destruct Hstages as [_ Hstages].
      destruct (outcome (generate_meeting_minutes W (apply_speaker_map sm t)))
        as [m|e].
      * destruct Hstages as (Hst & _). congruence.
      * destruct Hstages as (_ & _ & _ & -> & _). by rewrite app_nil_r.
    + destruct Hstages as (_ & _ & _ & _ & -> & _). by rewrite app_nil_r.
  - destruct (extract_events_only_run W audio_path meeting_id tr t Haudio)
      as (r & tr' & Hrun & Hst & _ & _ & _ & _ & Hsub).
    exists r, tr'. split; [done|]. split; [done|]. congruence.
  - destruct (stopped_submits_nothing _ _ _ _ _
                (process_meeting_no_audio W audio_path meeting_id tr e Haudio))
      as (r & tr' & Hrun & Hev & Hsub & _).
    exists r, tr'. split; [done|]. by rewrite Hev, app_nil_r.
  - destruct (stopped_submits_nothing _ _ _ _ _
                (extract_events_only_no_audio W audio_path meeting_id tr e Haudio))
      as (r & tr' & Hrun & Hev & Hsub & _).
    exists r, tr'. split; [done|]. by rewrite Hev, app_nil_r.
Qed.

(** X11. The minutes-only and the transcript-only run never hand an event to
    the calendar and return no events, and the transcript-only run sends
    no request to the model either. *)
Theorem runs_without_calendar (W : World) (audio_path : str)
    (meeting_id : option str) (tr : list event) :
  (exists r tr',
     generate_minutes_only W audio_path meeting_id tr = (tr', Ok r) /\
     calendar_events r = [] /\
     calendar_submissions tr' = calendar_submissions tr) /\
  (exists r tr',
     generate_transcript_only W audio_path meeting_id tr = (tr', Ok r) /\
     calendar_events r = [] /\ minutes r = None /\
     calendar_submissions tr' = calendar_submissions tr /\
     llm_calls tr' = llm_calls tr).
Proof.
  destruct (process_audio_file W audio_path (meeting_id_or_fresh W meeting_id))
    as [t|e] eqn:Haudio; split.
  - destruct (generate_minutes_only_run W audio_path meeting_id tr t Haudio)
      as (r & tr' & Hrun & _ & Hev & _ & Hsub).
    by exists r, tr'.
  - destruct (generate_transcript_only_run W audio_path meeting_id tr t Haudio)
      as (r & Hrun & _ & _ & _ & Hm & Hev).
    eexists _, _. split; [exact Hrun|]. split; [done|]. split; [done|].
    rewrite calendar_submissions_app, llm_calls_app. simpl. by rewrite !app_nil_r.
  - destruct (stopped_submits_nothing _ _ _ _ _
                (generate_minutes_only_no_audio W audio_path meeting_id tr e Haudio))
      as (r & tr' & Hrun & Hev & Hsub & _).
    by exists r, tr'.
  - destruct (generate_transcript_only_no_audio W audio_path meeting_id tr e Haudio)
      as (r & Hrun & _ & _ & _ & Hm & Hev).
    eexists _, _. split; [exact Hrun|]. split; [done|]. split; [done|].
    rewrite calendar_submissions_app, llm_calls_app. simpl. by rewrite !app_nil_r.
Qed.

(** X12. When the transcription raises, each of the four entry points asks
    the transcriber once and nothing else: no request goes to the model,
    no event to the calendar, and the result is failed with the message
    of the exception. *)
Theorem failed_transcription_stops_the_run (W : World) (audio_path : str)
    (meeting_id : option str) (tr : list event) (e : exn) :
  process_audio_file W audio_path (meeting_id_or_fresh W meeting_id) = Raise e ->
  let mid := meeting_id_or_fresh W meeting_id in
  stopped_at_transcription (process_meeting W audio_path meeting_id) audio_path mid e tr /\
  stopped_at_transcription (generate_minutes_only W audio_path meeting_id)
    audio_path mid e tr /\
  stopped_at_transcription (extract_events_only W audio_path meeting_id)
    audio_path mid e tr /\
  stopped_at_transcription (generate_transcript_only W audio_path meeting_id)
    audio_path mid e tr.
Proof.
  intros Haudio mid. subst mid.
  split; [by apply process_meeting_no_audio|].
  split; [by apply generate_minutes_only_no_audio|].
  split; [by apply extract_events_only_no_audio|].
  by apply generate_transcript_only_no_audio.
Qed.

Lemma failed_transcription_stops_the_run_witness :
  stopped_at_transcription (process_meeting quiet_world (lit "missing.wav") None)
    (lit "missing.wav") (lit "00000000-0000-4000-8000-000000000000")
    (Exn PlainException (lit "Transcription failed: no audio")) [].
Proof.
  exact (proj1 (failed_transcription_stops_the_run quiet_world (lit "missing.wav") None []
                  (Exn PlainException (lit "Transcription failed: no audio")) eq_refl)).
Defined.

(** X13. Once the transcript is produced, the minutes-only run completes
    exactly when generating the minutes returns, and fails with the
    exception's message otherwise; the events-only run always completes,
    with the events extracted from the transcript as transcribed and no
    minutes; the transcript-only run always completes. Each keeps the
    transcript as transcribed. *)
Theorem single_stage_runs_by_stage (W : World) (audio_path : str)
    (meeting_id : option str) (tr : list event) (t : MeetingTranscript) :
  process_audio_file W audio_path (meeting_id_or_fresh W meeting_id) = Ok t ->
  (exists r tr',
     generate_minutes_only W audio_path meeting_id tr = (tr', Ok r) /\
     transcript r = Some t /\
     match outcome (generate_meeting_minutes W t) with
     | Ok m => pr_status r = COMPLETED /\ error_message r = None /\ minutes r = Some m
     | Raise e => pr_status r = FAILED /\ error_message r = Some (exn_msg e) /\
                  minutes r = None
     end) /\
  (exists r tr',
     extract_events_only W audio_path meeting_id tr = (tr', Ok r) /\
     transcript r = Some t /\
     pr_status r = COMPLETED /\ error_message r = None /\ minutes r = None /\
     outcome (extract_calendar_events W t None) = Ok (calendar_events r)) /\
  (exists r tr',
     generate_transcript_only W audio_path meeting_id tr = (tr', Ok r) /\
     transcript r = Some t /\
     pr_status r = COMPLETED /\ error_message r = None).
Proof.
  intros Haudio. split; [|split].
  - destruct (generate_minutes_only_run W audio_path meeting_id tr t Haudio)
      as (r & tr' & Hrun & Ht & _ & Hm & _).
    by exists r, tr'.
  - destruct (extract_events_only_run W audio_path meeting_id tr t Haudio)
      as (r & tr' & Hrun & Hst & Herr & Ht & Hm & Hev & _).
    by exists r, tr'.
  - destruct (generate_transcript_only_run W audio_path meeting_id tr t Haudio)
      as (r & Hrun & Hst & Herr & Ht & _).
    by eexists _, _.
Qed.

Lemma single_stage_runs_by_stage_witness :
  exists r tr',
    generate_minutes_only world_failing_minutes (lit "demo_meeting.wav") None []
    = (tr', Ok r) /\
    transcript r = Some demo_transcript /\ pr_status r = FAILED /\ minutes r = None.
Proof.
  destruct (single_stage_runs_by_stage world_failing_minutes (lit "demo_meeting.wav")
              None [] demo_transcript eq_refl) as ((r & tr' & Hrun & Ht & Hm) & _).
  exists r, tr'. split; [exact Hrun|]. split; [exact Ht|].
  destruct (outcome (generate_meeting_minutes world_failing_minutes demo_transcript))
    as [m|e] eqn:Hgen; [exfalso; vm_compute in Hgen; discriminate Hgen|].
  destruct Hm as (Hst & _ & Hmin). by split.
Defined.

(** ** [transcribe_audio] *)

Lemma collect_ok_inv {A B} (f : A -> result B) (l : list A) (r : list B) :
  collect f l = Ok r -> Forall2 (fun x y => f x = Ok y) l r.
Proof.
  revert r. induction l as [|x l IH]; intros r; simpl.
  - intros [= <-]. constructor.
  - destruct (f x) as [y|e] eqn:Hx; [|discriminate].
    destruct (collect f l) as [ys|e]; [|discriminate].
    intros [= <-]. constructor; [done|by apply IH].
Qed.

Lemma collect_ok {A B} (f : A -> result B) (l : list A) :
  Forall (fun x => exists y, f x = Ok y) l -> exists r, collect f l = Ok r.
Proof.
  induction 1 as [|x l [y Hy] _ [r IH]]; simpl; [by eexists|].
  rewrite Hy, IH. by eexists.
Qed.

Lemma collect_raise {A B} (f : A -> result B) (l : list A) (e0 : exn) :
  Forall (fun x => forall e, f x = Raise e -> e = e0) l ->
  forall e, collect f l = Raise e -> e = e0.
Proof.
  induction 1 as [|x l Hx _ IH]; simpl; [discriminate|]. intros e.
  destruct (f x) as [y|e'] eqn:Hfx; [|intros [= <-]; by apply Hx].
  destruct (collect f l) as [ys|e'']; [discriminate|]. intros [= <-]. by apply IH.
Qed.

Lemma relabel_covers (sm : gmap str str) (t : MeetingTranscript) :
  speakers_cover_segments t -> speakers_cover_segments (apply_speaker_map sm t).
Proof.
  intros Hcov seg' Hseg'. rewrite apply_speaker_map_relabel in *. simpl in *.
  apply list_elem_of_fmap in Hseg' as (seg & -> & Hseg).
  apply Hcov, list_elem_of_fmap in Hseg as (s & Hs & Hin).
  rewrite relabel_segment_speaker, Hs, <- relabel_speaker_id.
  apply list_elem_of_fmap. exists (relabel_speaker sm s). split; [done|].
  apply list_elem_of_fmap. by exists s.
Qed.

Section TranscribeAudio.
Context (transcribe : str -> result AaiTranscript) (now : datetime).

Lemma speaker_of_label (i : option str) (s : Speaker) :
  AudioProcessor.speaker_of i = Ok s ->
  i = Some (speaker_id s) /\ role s = PARTICIPANT /\ name s = None /\
  speaker_confidence s = full_confidence.
Proof. destruct i; [|discriminate]. by intros [= <-]. Qed.

Lemma segment_of_utterance (u : Utterance) (seg : TranscriptionSegment) :
  AudioProcessor.segment_of u = Ok seg ->
  utt_speaker u = Some (speaker seg) /\
  seg_start seg = utt_start u /\ seg_end seg = utt_end u /\ text seg = utt_text u /\
  confidence seg = default full_confidence (utt_confidence u) /\
  in_unit_interval (confidence seg) = true.
Proof.
  unfold AudioProcessor.segment_of. destruct (utt_speaker u); [|discriminate].
  destruct (in_unit_interval _) eqn:Hc; [|discriminate]. by intros [= <-].
Qed.

Lemma transcribe_audio_ok_inv audio_path mid t :
  AudioProcessor.transcribe_audio transcribe now audio_path mid = Ok t ->
  exists recording utts seconds,
    transcribe audio_path = Ok recording /\
    status_is_error recording = false /\
    utterances recording = Some utts /\
    audio_duration recording = Some seconds /\
    Forall2 (fun i s => AudioProcessor.speaker_of i = Ok s)
      (remove_dups (utt_speaker <$> utts)) (speakers t) /\
    Forall2 (fun u seg => AudioProcessor.segment_of u = Ok seg) utts (segments t) /\
    meeting_id t = mid /\ audio_url t = audio_path /\
    duration t = seconds * 1000 /\ created_at t = now.
Proof.
  unfold AudioProcessor.transcribe_audio.
  destruct (transcribe audio_path) as [recording|e]; [|discriminate].
  destruct (status_is_error recording) eqn:Hst; [discriminate|].
  destruct (utterances recording) as [utts|] eqn:Hutts; [|discriminate].
  destruct (collect _ (remove_dups _)) as [sps|e] eqn:Hsps; [|discriminate].
  destruct (collect _ utts) as [segs|e] eqn:Hsegs; [|discriminate].
  destruct (audio_duration recording) as [seconds|] eqn:Hsec; [|discriminate].
  intros [= <-]. exists recording, utts, seconds. simpl.
  repeat split; try done; by apply collect_ok_inv.
Qed.

End TranscribeAudio.

(** X14. A transcript [transcribe_audio] returns has one segment per
    utterance, in order, with the utterance's label, bounds and text and
    a confidence between 0 and 1 (1 when the utterance has none); it has
    one speaker per distinct label, each a participant without a name and
    with confidence 1; every segment's speaker is one of its speakers and
    every speaker speaks in some segment. It carries the meeting id and
    the audio path given, and the duration of the recording in
    milliseconds. *)
Theorem transcribe_audio_output (transcribe : str -> result AaiTranscript)
    (now : datetime) (audio_path mid : str) (t : MeetingTranscript) :
  AudioProcessor.transcribe_audio transcribe now audio_path mid = Ok t ->
  exists recording utts seconds,
    transcribe audio_path = Ok recording /\
    utterances recording = Some utts /\
    audio_duration recording = Some seconds /\
    meeting_id t = mid /\ audio_url t = audio_path /\
    duration t = seconds * 1000 /\
    Forall2 (fun u seg =>
               utt_speaker u = Some (speaker seg) /\
               seg_start seg = utt_start u /\ seg_end seg = utt_end u /\
               text seg = utt_text u /\
               confidence seg = default full_confidence (utt_confidence u) /\
               in_unit_interval (confidence seg) = true)
            utts (segments t) /\
    NoDup (speaker_id <$> speakers t) /\
    Forall (fun s => role s = PARTICIPANT /\ name s = None /\
                     speaker_confidence s = full_confidence) (speakers t) /\
    (forall label, label ∈ speaker_id <$> speakers t
                   <-> exists seg, seg ∈ segments t /\ speaker seg = label).
Proof.
  intros H. apply transcribe_audio_ok_inv in H
    as (recording & utts & seconds & Hrec & _ & Hu & Hd & Hsps & Hsegs & Hid & Hurl & Hdur & _).
  exists recording, utts, seconds. do 6 (split; [done|]).
  assert (Hsegs' : Forall2 (fun u seg => utt_speaker u = Some (speaker seg)) utts (segments t)).
  { eapply Forall2_impl; [exact Hsegs|]. intros u seg Hseg.
    by apply segment_of_utterance in Hseg as [? _]. }
  assert (Hlabels : Some <$> (speaker_id <$> speakers t) = remove_dups (utt_speaker <$> utts)).
  { clear -Hsps. induction Hsps as [|i s ids sps Hs _ IH]; [done|].
    apply speaker_of_label in Hs as [-> _]. simpl. by f_equal. }
  assert (Hutts : utt_speaker <$> utts = Some <$> (speaker <$> segments t)).
  { clear -Hsegs'. induction Hsegs' as [|u seg utts segs Hs _ IH]; [done|].
    simpl. by f_equal. }
  split; [|split; [|split]].
  - eapply Forall2_impl; [exact Hsegs|]. intros u seg Hseg. by apply segment_of_utterance.
  - eapply (NoDup_fmap_1 Some). rewrite Hlabels. apply NoDup_remove_dups.
  - clear -Hsps. induction Hsps as [|i s ids sps Hs _ IH]; constructor; [|done].
    by apply speaker_of_label in Hs as (_ & ? & ? & ?).
  - intros label.
    rewrite <- (list_elem_of_fmap_inj Some _ label), Hlabels, elem_of_remove_dups, Hutts,
      (list_elem_of_fmap_inj Some).
    rewrite list_elem_of_fmap. split; intros (seg & ? & ?); by exists seg.
Qed.

Lemma transcribe_audio_output_witness :
  exists t,
    AudioProcessor.transcribe_audio (fun _ => Ok demo_recording) (Datetime 2024 1 1 9 0 0)
      (lit "demo_meeting.wav") (lit "demo-meeting-001") = Ok t /\
    t = demo_transcript /\
    NoDup (speaker_id <$> speakers t).
Proof.
  exists demo_transcript. split; [by vm_compute|]. split; [done|].
  destruct (transcribe_audio_output (fun _ => Ok demo_recording) (Datetime 2024 1 1 9 0 0)
              (lit "demo_meeting.wav") (lit "demo-meeting-001") demo_transcript)
    as (? & ? & ? & _ & _ & _ & _ & _ & _ & _ & Hnd & _); [by vm_compute|exact Hnd].
Defined.

Lemma collect_member_raises {A B} (f : A -> result B) (l : list A) (x : A) (e : exn) :
  x ∈ l -> f x = Raise e -> exists e', collect f l = Raise e'.
Proof.
  intros Hin Hx. induction l as [|y l IH]; [by apply not_elem_of_nil in Hin|].
  simpl. apply elem_of_cons in Hin as [<-|Hin]; [rewrite Hx; by eexists|].
  destruct (f y); [|by eexists]. destruct (IH Hin) as [e' ->]. by eexists.
Qed.

Lemma usable_utterance_segment (u : Utterance) :
  if usable_utterance u then exists seg, AudioProcessor.segment_of u = Ok seg
  else AudioProcessor.segment_of u = Raise validation_error.
Proof.
  unfold usable_utterance, AudioProcessor.segment_of.
  destruct (utt_speaker u); [|done]. destruct (in_unit_interval _); [by eexists|done].
Qed.

Lemma speaker_of_raises (i : option str) (e : exn) :
  AudioProcessor.speaker_of i = Raise e -> e = validation_error.
Proof. destruct i; [discriminate|]. by intros [= <-]. Qed.

Lemma segment_of_raises (u : Utterance) (e : exn) :
  AudioProcessor.segment_of u = Raise e -> e = validation_error.
Proof.
  unfold AudioProcessor.segment_of. destruct (utt_speaker u); [|by intros [= <-]].
  destruct (in_unit_interval _); [discriminate|by intros [= <-]].
Qed.

(** X15. What [transcribe_audio] does, case by case. An exception of the
    transcription request is passed on. An error status raises
    [Exception("Transcription failed: ...")] with the service's error.
    Missing utterances raise a [TypeError]. One utterance without a
    speaker label, or with a confidence outside 0..1, fails the whole
    call with a validation error: no partial transcript is returned. A
    missing duration raises a [TypeError]. In every other case a
    transcript is returned. *)
Theorem transcribe_audio_cases (transcribe : str -> result AaiTranscript)
    (now : datetime) (audio_path mid : str) :
  let returned := AudioProcessor.transcribe_audio transcribe now audio_path mid in
  match transcribe audio_path with
  | Raise e => returned = Raise e
  | Ok recording =>
      if status_is_error recording
      then returned = Raise (transcription_failed (aai_error recording))
      else
        match utterances recording with
        | None => returned = Raise type_error_none_iter
        | Some utts =>
            if forallb usable_utterance utts then
              match audio_duration recording with
              | None => returned = Raise type_error_none_mul
              | Some _ => exists t, returned = Ok t
              end
            else returned = Raise validation_error
        end
  end.
Proof.
  unfold AudioProcessor.transcribe_audio. simpl.
  destruct (transcribe audio_path) as [recording|e]; [|done].
  destruct (status_is_error recording); [done|].
  destruct (utterances recording) as [utts|]; [|done].
  destruct (forallb usable_utterance utts) eqn:Husable.
  - rewrite forallb_forall in Husable.
    destruct (collect_ok AudioProcessor.speaker_of (remove_dups (utt_speaker <$> utts)))
      as [sps ->].
    { apply Forall_forall. intros i Hi.
      apply elem_of_remove_dups, list_elem_of_fmap in Hi as (u & -> & Hu).
      apply list_elem_of_In, Husable in Hu. unfold usable_utterance in Hu.
      destruct (utt_speaker u); [by eexists|done]. }
    destruct (collect_ok AudioProcessor.segment_of utts) as [segs ->].
    { apply Forall_forall. intros u Hu. apply list_elem_of_In, Husable in Hu.
      pose proof (usable_utterance_segment u) as Hseg. by rewrite Hu in Hseg. }
    destruct (audio_duration recording); [by eexists|done].
  - assert (Hbad : exists u, u ∈ utts /\ usable_utterance u = false).
    { clear -Husable. induction utts as [|u utts IH]; [done|]. simpl in Husable.
      destruct (usable_utterance u) eqn:Hu.
      - destruct (IH Husable) as (u' & Hin & Hu'). exists u'. split; [|done].
        by apply list_elem_of_further.
      - exists u. split; [apply list_elem_of_here|done]. }
    destruct Hbad as (u & Hin & Hu).
    pose proof (usable_utterance_segment u) as Hseg. rewrite Hu in Hseg.
    destruct (collect_member_raises _ _ _ _ Hin Hseg) as [e' Hsegs].
    destruct (collect AudioProcessor.speaker_of _) as [sps|e] eqn:Hsps.
    + rewrite Hsegs. f_equal.
      eapply (collect_raise AudioProcessor.segment_of utts); [|exact Hsegs].
      apply Forall_forall. intros ? _ ?. apply segment_of_raises.
    + f_equal. eapply (collect_raise AudioProcessor.speaker_of); [|exact Hsps].
      apply Forall_forall. intros ? _ ?. apply speaker_of_raises.
Qed.

(** X16. Every transcript attached to a result of the four entry points has
    all its segments spoken by one of its speakers, when transcription is
    [AudioProcessor.process_audio_file]: [transcribe_audio] establishes
    this and the relabeling of the full pipeline keeps it. *)
Theorem pipeline_transcripts_are_covered (W : World)
    (transcribe : str -> result AaiTranscript) (now : datetime)
    (audio_path : str) (meeting_id : option str) (tr : list event) :
  (forall path mid,
     process_audio_file W path mid
     = AudioProcessor.process_audio_file transcribe now path mid) ->
  Forall (fun run : M ProcessingResult =>
            exists r tr',
              run tr = (tr', Ok r) /\
              forall t, transcript r = Some t -> speakers_cover_segments t)
    [process_meeting W audio_path meeting_id;
     generate_minutes_only W audio_path meeting_id;
     extract_events_only W audio_path meeting_id;
     generate_transcript_only W audio_path meeting_id].
Proof.
  intros Haudio.
  assert (Hcontract : forall run,
            entry_point_contract run
              (process_audio_file W audio_path (meeting_id_or_fresh W meeting_id)) tr ->
            exists r tr',
              run tr = (tr', Ok r) /\
              forall t, transcript r = Some t -> speakers_cover_segments t).
  { intros run (r & tr' & Hrun & _ & _ & _ & Hok & Hfail). exists r, tr'.
    split; [done|]. intros t' Ht'.
    destruct (process_audio_file W audio_path _) as [t|e] eqn:Hp.
    - destruct (Hok t eq_refl) as [sm Ht]. rewrite Ht in Ht'. injection Ht' as <-.
      apply relabel_covers. rewrite Haudio in Hp.
      apply transcribe_audio_ok_inv in Hp
        as (recording & utts & seconds & _ & _ & _ & _ & Hsps & Hsegs & _).
      intros seg Hseg.
      apply list_elem_of_lookup in Hseg as [i Hi].
      destruct (Forall2_lookup_r _ _ _ _ _ Hsegs Hi) as (u & Hu & Hseg).
      apply segment_of_utterance in Hseg as [Hlabel _].
      assert (Hin : Some (speaker seg) ∈ remove_dups (utt_speaker <$> utts)).
      { apply elem_of_remove_dups, list_elem_of_fmap. exists u.
        split; [done|]. by eapply list_elem_of_lookup_2. }
      apply list_elem_of_lookup in Hin as [j Hj].
      destruct (Forall2_lookup_l _ _ _ _ _ Hsps Hj) as (s & Hs & Hspk).
      apply speaker_of_label in Hspk as [[= ->] _].
      apply list_elem_of_fmap. exists s. split; [done|]. by eapply list_elem_of_lookup_2.
    - destruct (Hfail e eq_refl) as (_ & _ & Hnone & _). congruence. }
  repeat constructor; apply Hcontract.
  - apply process_meeting_contract.
  - apply generate_minutes_only_contract.
  - apply extract_events_only_contract.
  - apply generate_transcript_only_contract.
Qed.

Lemma pipeline_transcripts_are_covered_witness :
  exists r tr',
    process_meeting
      (world (llm_scripted names_reply minutes_as_prose events_valid_then_malformed)
         (AudioProcessor.process_audio_file (fun _ => Ok demo_recording)
            (Datetime 2024 1 1 9 0 0)))
      (lit "demo_meeting.wav") (Some (lit "demo-meeting-001")) [] = (tr', Ok r) /\
    forall t, transcript r = Some t -> speakers_cover_segments t.
Proof.
  pose proof (pipeline_transcripts_are_covered
                (world (llm_scripted names_reply minutes_as_prose
                          events_valid_then_malformed)
                   (AudioProcessor.process_audio_file (fun _ => Ok demo_recording)
                      (Datetime 2024 1 1 9 0 0)))
                (fun _ => Ok demo_recording) (Datetime 2024 1 1 9 0 0)
                (lit "demo_meeting.wav") (Some (lit "demo-meeting-001")) []
                (fun _ _ => eq_refl)) as H.
  by apply Forall_cons_1 in H as [H _].
Defined.

(** ** Analysing a saved transcript *)

(** X17. [analyze_transcript_file], case by case. When the file cannot be
    read, the exception of the read is raised and the model is not asked.
    When the completion call raises, the caller gets an
    [UnboundLocalError] from the handler, not the error of the call.
    When the call returns a text, the result is the string-valued
    entries of the first JSON block of the text if it is an object, and
    the empty mapping otherwise; the model was asked once, about the text
    of the file. *)
Theorem analyze_transcript_file_cases (W : World) (read_text : str -> result str)
    (transcript_file : str) (tr : list event) :
  match read_text transcript_file with
  | Raise e => analyze_transcript_file W read_text transcript_file tr = (tr, Raise e)
  | Ok content =>
      match ollama W (analysis_prompt content) analysis_system_prompt with
      | Raise _ =>
          analyze_transcript_file W read_text transcript_file tr
          = (tr ++ [EvOllama (analysis_prompt content) analysis_system_prompt],
             Raise unbound_response)
      | Ok response =>
          exists tr',
            analyze_transcript_file W read_text transcript_file tr
            = (tr', Ok match outcome (extract_first_json_block W response) with
                       | Ok (JObj kv) => validate_mapping kv
                       | _ => ∅
                       end) /\
            llm_calls tr'
            = llm_calls tr ++ [(analysis_prompt content, analysis_system_prompt)]
      end
  end.
Proof.
  unfold analyze_transcript_file, analyze_speaker_names_from_file.
  destruct (read_text transcript_file) as [content|e]; [|done].
  erewrite bind_ok; [|reflexivity].
  unfold analyze_speaker_names_from_text.
  unfold try_except at 1, bind at 1, _call_ollama, bind at 1, emit, lift.
  destruct (ollama W _ _) as [response|e]; simpl; [|done].
  unfold try_except, bind. rewrite (uniform_extract W response _).
  destruct (outcome (extract_first_json_block W response)) as [[]|e]; simpl;
    (eexists; split; [reflexivity|]);
    by rewrite !llm_calls_app, llm_calls_extract, app_nil_r.
Qed.

(** ** The summary of a run *)

(** X18. [get_processing_summary] returns a text for the result of each of
    the four entry points: the processing time it formats is always
    set. For a result without a processing time it raises a
    [TypeError]. *)
Theorem summary_of_every_run (W : World) (format_2f format_minutes_1f : Z -> str)
    (audio_path : str) (meeting_id : option str) (tr : list event) :
  (forall r, processing_time r = None ->
     get_processing_summary format_2f format_minutes_1f r = Raise type_error_format_none) /\
  Forall (fun run : M ProcessingResult =>
            exists r tr' summary,
              run tr = (tr', Ok r) /\
              get_processing_summary format_2f format_minutes_1f r = Ok summary)
    [process_meeting W audio_path meeting_id;
     generate_minutes_only W audio_path meeting_id;
     extract_events_only W audio_path meeting_id;
     generate_transcript_only W audio_path meeting_id].
Proof.
  assert (Hcontract : forall run,
            entry_point_contract run
              (process_audio_file W audio_path (meeting_id_or_fresh W meeting_id)) tr ->
            exists r tr' summary,
              run tr = (tr', Ok r) /\
              get_processing_summary format_2f format_minutes_1f r = Ok summary).
  { intros run (r & tr' & Hrun & _ & [seconds Htime] & _). exists r, tr'.
    unfold get_processing_summary. rewrite Htime. by eexists. }
  split; [intros r Hr; unfold get_processing_summary; by rewrite Hr|].
  repeat constructor; apply Hcontract.
  - apply process_meeting_contract.
  - apply generate_minutes_only_contract.
  - apply extract_events_only_contract.
  - apply generate_transcript_only_contract.
Qed.

(** ** The requests of [CalendarManager] *)

Lemma assoc_dict_set_eq {V} (k : str) (v : V) (kv : list (str * V)) :
  assoc k (dict_set k v kv) = Some v.
Proof.
  induction kv as [|[k' v'] kv IH]; simpl.
  - by rewrite bool_decide_eq_true_2.
  - case_bool_decide as Hk; simpl.
    + by rewrite bool_decide_eq_true_2.
    + by rewrite bool_decide_eq_false_2.
Qed.

Lemma assoc_dict_set_ne {V} (k k' : str) (v : V) (kv : list (str * V)) :
  k <> k' -> assoc k (dict_set k' v kv) = assoc k kv.
Proof.
  intros Hne. induction kv as [|[k0 v0] kv IH]; simpl.
  - by rewrite bool_decide_eq_false_2.
  - case_bool_decide as Hk; simpl; [|by rewrite IH].
    subst k0. by rewrite !bool_decide_eq_false_2 by done.
Qed.

Section CalendarRequests.
Context (timezone : str) (isoformat : datetime -> str).

Lemma with_location_attendees (event : CalendarEvent) (event_data : list (str * json)) :
  assoc (lit "attendees") (CalendarManager.with_location event event_data)
  = assoc (lit "attendees") event_data.
Proof.
  unfold CalendarManager.with_location. destruct (location event) as [[|c l]|]; try done.
  by apply assoc_dict_set_ne.
Qed.

Lemma create_event_data_attendees (event : CalendarEvent) :
  match CalendarManager.create_event_data timezone isoformat event with
  | JObj event_data =>
      assoc (lit "attendees") event_data
      = match filter (fun email => chr "@" ∈ email) (attendees event) with
        | [] => None
        | valid => Some (JArr (CalendarManager.email_entry <$> valid))
        end
  | _ => False
  end.
Proof.
  unfold CalendarManager.create_event_data. rewrite with_location_attendees.
  destruct (attendees event) as [|a l] eqn:Ha; [done|].
  destruct (filter _ (a :: l)) as [|b valid]; [done|].
  by rewrite assoc_dict_set_eq.
Qed.

Lemma update_event_data_attendees (event : CalendarEvent) :
  match CalendarManager.update_event_data timezone isoformat event with
  | JObj event_data =>
      assoc (lit "attendees") event_data
      = match attendees event with
        | [] => None
        | all => Some (JArr (CalendarManager.email_entry <$> all))
        end
  | _ => False
  end.
Proof.
  unfold CalendarManager.update_event_data. rewrite with_location_attendees.
  destruct (attendees event) as [|a l] eqn:Ha; [done|].
  by rewrite assoc_dict_set_eq.
Qed.

End CalendarRequests.

(** X19. With a calendar service, [create_event] sends one insert request
    whose attendees are the attendees of the event that contain an [@],
    in order, and which has no attendees when none does; [update_event]
    sends one update request with every attendee. The two send the same
    request body exactly when every attendee contains an [@]. *)
Theorem create_event_drops_attendees_without_at (svc : CalendarService)
    (timezone event_id : str) (isoformat : datetime -> str) (event : CalendarEvent) :
  (exists event_data,
     CalendarManager.create_event (Some svc) timezone isoformat event
     = events_insert svc (JObj event_data) /\
     assoc (lit "attendees") event_data
     = match filter (fun email => chr "@" ∈ email) (attendees event) with
       | [] => None
       | valid => Some (JArr (CalendarManager.email_entry <$> valid))
       end) /\
  CalendarManager.update_event (Some svc) timezone isoformat event_id event
  = events_update svc event_id (CalendarManager.update_event_data timezone isoformat event) /\
  (CalendarManager.create_event_data timezone isoformat event
   = CalendarManager.update_event_data timezone isoformat event
   <-> Forall (fun email => chr "@" ∈ email) (attendees event)).
Proof.
  unfold CalendarManager.create_event, CalendarManager.update_event.
  split; [|split; [done|]].
  - pose proof (create_event_data_attendees timezone isoformat event) as H.
    destruct (CalendarManager.create_event_data _ _ _) as [| | | | | |event_data];
      try done.
    by exists event_data.
  - split.
    + intros Heq.
      pose proof (create_event_data_attendees timezone isoformat event) as Hc.
      pose proof (update_event_data_attendees timezone isoformat event) as Hu.
      rewrite Heq in Hc.
      destruct (CalendarManager.update_event_data _ _ _) as [| | | | | |event_data];
        try done.
      rewrite Hu in Hc. clear Hu Heq.
      destruct (attendees event) as [|a l] eqn:Ha; [constructor|].
      destruct (filter _ (a :: l)) as [|b valid] eqn:Hf; [done|].
      injection Hc as Hab Hc.
      assert (Hvalid : a :: l = b :: valid).
      { f_equal; [done|]. revert Hc. generalize valid. clear.
        induction l as [|x l IH]; intros [|y l2] Heq; try discriminate Heq; [done|].
        injection Heq as -> Hl. f_equal. by apply IH. }
      rewrite Hvalid, <- Hf. apply Forall_forall. intros email Hin.
      by apply list_elem_of_filter in Hin as [? _].
    + intros Hall. unfold CalendarManager.create_event_data,
        CalendarManager.update_event_data.
      destruct (attendees event) as [|a l] eqn:Ha; [done|].
      assert (Hf : filter (fun email => chr "@" ∈ email) (a :: l) = a :: l).
      { clear Ha. induction Hall as [|x l' Hx _ IH]; [done|].
        by rewrite filter_cons_True, IH. }
      by rewrite Hf.
Qed.

(** X20. [check_availability] reports a free slot only when the calendar
    service is there, the listing for the slot (at most one event)
    succeeds, and what its answer holds under [items], or the empty list
    when it has no such key, has length 0. A missing service, a failed
    request or an answer that cannot be read makes the slot read as
    busy; nothing is raised. *)
Theorem check_availability_free_iff (service : option CalendarService)
    (isoformat : datetime -> str) (utcnow : datetime)
    (plus_seven_days : datetime -> result datetime) (start_time end_time : datetime) :
  CalendarManager.check_availability service isoformat utcnow plus_seven_days
    start_time end_time = true
  <-> exists svc events_result events,
        service = Some svc /\
        events_list svc (isoformat start_time ++ lit "Z") (isoformat end_time ++ lit "Z") 1
        = Ok events_result /\
        py_get events_result (lit "items") (JArr []) = Ok events /\
        py_len events = Ok 0.
Proof.
  unfold CalendarManager.check_availability, CalendarManager.list_events. simpl.
  split.
  - destruct service as [svc|]; [|done].
    destruct (events_list svc _ _ 1) as [events_result|e] eqn:Hlist; [|done].
    destruct (py_get events_result _ _) as [events|e] eqn:Hget; [|done].
    destruct (py_len events) as [n|e] eqn:Hlen; [|done].
    intros Hn. apply Z.eqb_eq in Hn as ->. by exists svc, events_result, events.
  - intros (svc & events_result & events & -> & Hlist & Hget & Hlen).
    by rewrite Hlist, Hget, Hlen.
Qed.

(** ** Null lists in the model's answer *)

(** X21. The four list fields of the answer do not treat [null] alike. When
    the extracted object has [action_items: null], the call raises a
    [TypeError]: the loop iterates over it. When it has [key_points:
    null] or [next_steps: null] and minutes are returned, that field of
    the minutes is the empty list. *)
Theorem null_lists_in_the_answer (W : World) (t : MeetingTranscript)
    (response : str) (kv : list (str * json)) :
  ollama W (minutes_prompt (_prepare_transcript_text t)) minutes_system_prompt = Ok response ->
  outcome (extract_first_json_block W response) = Ok (JObj kv) ->
  (assoc (lit "action_items") kv = Some JNull ->
   outcome (generate_meeting_minutes W t) = Raise type_error_iter) /\
  (forall m, outcome (generate_meeting_minutes W t) = Ok m ->
     (assoc (lit "key_points") kv = Some JNull -> key_points m = []) /\
     (assoc (lit "next_steps") kv = Some JNull -> next_steps m = [])).
Proof.
  intros Hllm Hex. unfold outcome.
  rewrite (generate_after_completion W t response [] Hllm). simpl. rewrite Hex.
  split.
  - intros Hnull. unfold minutes_of_parsed_data.
    erewrite bind_ok; [|unfold lift, py_get; by rewrite Hnull].
    by erewrite bind_raise.
  - intros m Hm.
    destruct (minutes_of_parsed_data W t (JObj kv) _) as [tr' r] eqn:Hrun.
    simpl in Hm. subst r.
    apply minutes_of_parsed_data_inv in Hrun
      as (ai & dl & kps & nss & sm & _ & _ & _ & _ & (kp & Hkp & Hkps)
          & (ns & Hns & Hnss) & ->).
    simpl in *. injection Hkp as <-. injection Hns as <-.
    split; intros Hnull; rewrite Hnull in *; simpl in *; congruence.
Qed.

Lemma null_lists_in_the_answer_witness :
  outcome (generate_meeting_minutes
             (world (llm_says minutes_with_null_action_items) audio_demo) demo_transcript)
  = Raise type_error_iter /\
  exists m,
    outcome (generate_meeting_minutes
               (world (llm_says minutes_with_null_key_points) audio_demo) demo_transcript)
    = Ok m /\ key_points m = [].
Proof.
  split.
  - refine (proj1 (null_lists_in_the_answer
                     (world (llm_says minutes_with_null_action_items) audio_demo)
                     demo_transcript minutes_with_null_action_items _ eq_refl _) _);
      cbv; reflexivity.
  - destruct (outcome (generate_meeting_minutes
                         (world (llm_says minutes_with_null_key_points) audio_demo)
                         demo_transcript)) as [m|e] eqn:Hrun;
      [|exfalso; vm_compute in Hrun; discriminate Hrun].
    exists m. split; [done|].
    refine (proj1 (proj2 (null_lists_in_the_answer
                     (world (llm_says minutes_with_null_key_points) audio_demo)
                     demo_transcript minutes_with_null_key_points _ eq_refl _) m Hrun) _);
      cbv; reflexivity.
Defined.

(** ** Relabeling and the list of speakers *)

Lemma NoDup_fmap_iff {A B} (f : A -> B) (l : list A) :
  NoDup l ->
  (NoDup (f <$> l) <-> forall x y, x ∈ l -> y ∈ l -> f x = f y -> x = y).
Proof.
  intros Hl. split; [|intros Hinj; by apply NoDup_fmap_2_strong].
  intros Hfl x y Hx Hy Hxy.
  apply list_elem_of_lookup in Hx as [i Hi]. apply list_elem_of_lookup in Hy as [j Hj].
  assert (i = j) as ->; [|congruence].
  eapply (NoDup_lookup _ i j (f x) Hfl); rewrite list_lookup_fmap.
  - by rewrite Hi.
  - by rewrite Hj, Hxy.
Qed.

(** X22. Relabeling a transcript with distinct speaker ids leaves the ids
    distinct exactly when no two of its speakers get the same label;
    otherwise the relabeled transcript lists a speaker id more than
    once. *)
Theorem relabeling_merges_speakers_iff (speaker_map : gmap str str)
    (t : MeetingTranscript) :
  NoDup (speaker_id <$> speakers t) ->
  (NoDup (speaker_id <$> speakers (apply_speaker_map speaker_map t))
   <-> forall a b, a ∈ speaker_id <$> speakers t -> b ∈ speaker_id <$> speakers t ->
         relabeled speaker_map a = relabeled speaker_map b -> a = b).
Proof.
  intros Hnd. rewrite apply_speaker_map_relabel. simpl.
  rewrite <- (NoDup_fmap_iff (relabeled speaker_map) _ Hnd).
  rewrite <- !list_fmap_compose.
  assert (Heq : (speaker_id ∘ relabel_speaker speaker_map) <$> speakers t
                = (relabeled speaker_map ∘ speaker_id) <$> speakers t); [|by rewrite Heq].
  apply list_fmap_ext. intros i s _. simpl. apply relabel_speaker_id.
Qed.

Lemma relabeling_merges_speakers_iff_witness :
  NoDup (speaker_id <$> speakers demo_transcript) /\
  ~ NoDup (speaker_id <$> speakers (apply_speaker_map merging_map demo_transcript)).
Proof.
  assert (Hnd : NoDup (speaker_id <$> speakers demo_transcript)).
  { change (NoDup [lit "A"; lit "B"]). apply NoDup_cons. split; [|apply NoDup_singleton].
    intros Hin. apply list_elem_of_singleton in Hin. discriminate Hin. }
  split; [exact Hnd|]. intros Hmerged.
  pose proof (proj1 (relabeling_merges_speakers_iff merging_map demo_transcript Hnd)
                Hmerged (lit "A") (lit "B")) as Hab.
  assert (lit "A" = lit "B") as Heq; [|discriminate Heq].
  apply Hab; [apply list_elem_of_here| |by vm_compute].
  apply list_elem_of_further, list_elem_of_here.
Defined.

(** ** The added models on concrete inputs *)

(** one utterance without a speaker label fails the transcription *)
Example transcribe_audio_unlabeled :
  AudioProcessor.transcribe_audio (fun _ => Ok unlabeled_recording)
    (Datetime 2024 1 1 9 0 0) (lit "demo_meeting.wav") (lit "demo-meeting-001")
  = Raise validation_error.
Proof. reflexivity. Qed.

(** the name among the attendees is not sent on creation, and is on update *)
Example create_event_data_of_event_with_a_name :
  match CalendarManager.create_event_data (lit "UTC") (fun _ => lit "2024-03-01T10:00:00")
          event_with_a_name,
        CalendarManager.update_event_data (lit "UTC") (fun _ => lit "2024-03-01T10:00:00")
          event_with_a_name with
  | JObj created, JObj updated =>
      assoc (lit "attendees") created
      = Some (JArr [CalendarManager.email_entry (lit "ana@example.com")]) /\
      assoc (lit "attendees") updated
      = Some (JArr [CalendarManager.email_entry (lit "ana@example.com");
                    CalendarManager.email_entry (lit "Bob")])
  | _, _ => False
  end.
Proof. by vm_compute. Qed.

(** a missing file, and a saved transcript while the model is down *)
Example analyze_transcript_file_failures :
  outcome (analyze_transcript_file quiet_world
             (one_file (lit "saved.txt") (lit "[00:00] A: Hi I'm John"))
             (lit "other.txt"))
  = Raise file_not_found /\
  outcome (analyze_transcript_file quiet_world
             (one_file (lit "saved.txt") (lit "[00:00] A: Hi I'm John"))
             (lit "saved.txt"))
  = Raise unbound_response.
Proof. by vm_compute. Qed.
